(** * dogpile.cache: the cache region ([dogpile/cache/region.py])

    A shallow embedding of [CacheRegion] and [DefaultInvalidationStrategy]
    and the properties of the region's read, write and get-or-create
    paths.

    Conventions of the embedding.
    - Time.  [time.time()] returns float seconds.  Here a timestamp is an
      integer number of ticks of 0.0001 s, so that the constant [0.0001]
      of the soft-invalidation path is one tick and the sentinel [-1] is
      [- second].  The clock is an oracle: the n-th call of [time.time()]
      returns [clock n].
    - Keys are strings, bytes are [list byte].
    - A Python dict whose iteration order matters is an association list
      in insertion order ([dict_set]); the backend's storage is a [gmap].
    - Every method runs in the monad [M]: it takes the state of the world
      and returns an outcome (a value, a raised exception, or [Blocked]
      when the caller would wait for a mutex that nobody releases) and the
      new state. *)

From Stdlib Require Import ZArith String Ascii List Bool Lia.
From Stdlib.Strings Require Import Byte.
From Stdlib Require Import DecimalString DecimalZ.
From stdpp Require Import base option list gmap sets strings.

Set Default Proof Using "Type".
Local Open Scope Z_scope.
Local Open Scope string_scope.

(** ** Python values *)

(** The payloads a caller caches. *)
Inductive ValuePayload : Type :=
  | PyNone
  | PyBool (b : bool)
  | PyInt (n : Z)
  | PyStr (s : string).

(** Values of a metadata dictionary, as far as JSON carries them here. *)
Inductive Json : Type :=
  | JInt (n : Z)
  | JStr (s : string).

Definition Json_eqb (a b : Json) : bool :=
  match a, b with
  | JInt x, JInt y => Z.eqb x y
  | JStr x, JStr y => String.eqb x y
  | _, _ => false
  end.

Definition bytes : Type := list byte.

(** Exceptions that cross the region's methods. *)
Inductive Exception : Type :=
  | NeedRegenerationException
  | DogpileCacheException (msg : string)
  | CantDeserializeException
  | NotImplementedError
  | JSONDecodeError
  | KeyError (k : string)
  | TypeError
  | AttributeError
  | AssertionError
  | UserError (n : Z).

(** Result of a pure call that may raise. *)
Inductive Result (A : Type) : Type :=
  | Ok (a : A)
  | Err (e : Exception).
Arguments Ok {A} a.
Arguments Err {A} e.

(** ** Insertion-ordered dictionaries *)

Section PyDict.
Context {V : Type}.

Fixpoint dict_get (k : string) (d : list (string * V)) : option V :=
  match d with
  | [] => None
  | (k', x) :: d' => if String.eqb k k' then Some x else dict_get k d'
  end.

(** [d[k] = x]: an existing key keeps its position. *)
Fixpoint dict_set (k : string) (x : V) (d : list (string * V))
  : list (string * V) :=
  match d with
  | [] => [(k, x)]
  | (k', y) :: d' =>
      if String.eqb k k' then (k, x) :: d' else (k', y) :: dict_set k x d'
  end.

(** [d.update(items)]. *)
Definition dict_update (d items : list (string * V)) : list (string * V) :=
  fold_left (fun acc kv => dict_set (fst kv) (snd kv) acc) items d.

(** [dict(items)] and the dict comprehensions. *)
Definition dict_of_items (items : list (string * V)) : list (string * V) :=
  dict_update [] items.

Definition dict_keys (d : list (string * V)) : list string := map fst d.
Definition dict_values (d : list (string * V)) : list V := map snd d.
End PyDict.

(** [sorted(set(keys))]: the keys in increasing order, each once. *)
Fixpoint insert_sorted (k : string) (l : list string) : list string :=
  match l with
  | [] => [k]
  | k' :: l' =>
      if String.eqb k k' then l
      else if String.ltb k k' then k :: l
      else k' :: insert_sorted k l'
  end.

Definition sorted_set (keys : list string) : list string :=
  fold_right insert_sorted [] keys.

(** ** Envelopes *)

Definition MetaDataType : Type := list (string * Json).

Record CachedValue : Type := mkCachedValue {
  payload : ValuePayload;
  metadata : MetaDataType
}.

(** What a read hands back: the token [NO_VALUE] or an envelope. *)
Inductive CacheReturnType : Type :=
  | NO_VALUE
  | Cached (cv : CachedValue).

(** [value.payload]; the payload of [NO_VALUE] is [NO_VALUE] itself,
    written [None]. *)
Definition payload_of (value : CacheReturnType) : option ValuePayload :=
  match value with
  | NO_VALUE => None
  | Cached cv => Some (payload cv)
  end.

Definition value_version : Z := 2.

(** Ticks per second, and the one-tick constant [0.0001]. *)
Definition second : Z := 10000.
Definition epsilon : Z := 1.

(** [metadata[k]]. *)
Definition getitem (md : MetaDataType) (k : string) : Result Json :=
  match dict_get k md with
  | Some j => Ok j
  | None => Err (KeyError k)
  end.

(** [metadata["ct"]] used as a timestamp. *)
Definition metadata_ct (md : MetaDataType) : Result Z :=
  match getitem md "ct" with
  | Ok (JInt t) => Ok t
  | Ok (JStr _) => Err TypeError
  | Err e => Err e
  end.

(** ** DefaultInvalidationStrategy *)

Module DefaultInvalidationStrategy.

Record t : Type := mk {
  _is_hard_invalidated : option bool;
  _invalidated : option Z
}.

(** [__init__] *)
Definition init : t :=
  {| _is_hard_invalidated := None; _invalidated := None |}.

(** [invalidate(hard)] at clock reading [now]. *)
Definition invalidate (hard : bool) (now : Z) (s : t) : t :=
  {| _is_hard_invalidated := Some hard; _invalidated := Some now |}.

Definition is_invalidated (s : t) (timestamp : Z) : bool :=
  match _invalidated s with
  | None => false
  | Some barrier => Z.ltb timestamp barrier
  end.

Definition was_hard_invalidated (s : t) : bool :=
  match _is_hard_invalidated s with
  | Some true => true
  | _ => false
  end.

Definition is_hard_invalidated (s : t) (timestamp : Z) : bool :=
  was_hard_invalidated s && is_invalidated s timestamp.

Definition was_soft_invalidated (s : t) : bool :=
  match _is_hard_invalidated s with
  | Some false => true
  | _ => false
  end.

Definition is_soft_invalidated (s : t) (timestamp : Z) : bool :=
  was_soft_invalidated s && is_invalidated s timestamp.

End DefaultInvalidationStrategy.

(** ** The JSON text of a metadata dictionary

    [json.dumps] and [json.loads] on dictionaries whose values are
    integers or strings.  Strings are sequences of code points below
    256.  [json_dumps] follows [json.dumps] with its defaults
    ([ensure_ascii], separators [", "] and [": "]); [json_loads] accepts
    the objects of this fragment, with JSON's whitespace and escapes, and
    raises [JSONDecodeError] on anything else. *)

Module Json_codec.

Definition quote : ascii := "034"%char.
Definition backslash : ascii := "092"%char.

Definition hex_digit (n : nat) : ascii :=
  nth n ["0"; "1"; "2"; "3"; "4"; "5"; "6"; "7";
         "8"; "9"; "a"; "b"; "c"; "d"; "e"; "f"]%char "0"%char.

(** One character of a string literal, as [ensure_ascii] writes it. *)
Definition escape_char (c : ascii) : string :=
  let n := nat_of_ascii c in
  if Ascii.eqb c quote then String backslash (String quote EmptyString)
  else if Ascii.eqb c backslash then
    String backslash (String backslash EmptyString)
  else if Nat.eqb n 10 then String backslash "n"
  else if Nat.eqb n 13 then String backslash "r"
  else if Nat.eqb n 9 then String backslash "t"
  else if Nat.eqb n 8 then String backslash "b"
  else if Nat.eqb n 12 then String backslash "f"
  else if Nat.leb 32 n && Nat.leb n 126 then String c EmptyString
  else String backslash
         (String "u" (String "0" (String "0"
           (String (hex_digit (Nat.div n 16))
             (String (hex_digit (Nat.modulo n 16)) EmptyString))))).

Fixpoint escape_string (s : string) : string :=
  match s with
  | EmptyString => EmptyString
  | String c s' => escape_char c ++ escape_string s'
  end.

Definition dumps_string (s : string) : string :=
  String quote (escape_string s ++ String quote EmptyString).

Definition dumps_int (n : Z) : string :=
  NilZero.string_of_int (Z.to_int n).

Definition dumps_value (j : Json) : string :=
  match j with
  | JInt n => dumps_int n
  | JStr s => dumps_string s
  end.

Definition dumps_member (kv : string * Json) : string :=
  dumps_string (fst kv) ++ ": " ++ dumps_value (snd kv).

Fixpoint dumps_members (md : MetaDataType) : string :=
  match md with
  | [] => EmptyString
  | [kv] => dumps_member kv
  | kv :: md' => dumps_member kv ++ ", " ++ dumps_members md'
  end.

(** [json.dumps(metadata)] *)
Definition json_dumps (md : MetaDataType) : string :=
  "{" ++ dumps_members md ++ "}".

(** *** Reading *)

Definition is_ws (c : ascii) : bool :=
  let n := nat_of_ascii c in
  Nat.eqb n 32 || Nat.eqb n 9 || Nat.eqb n 10 || Nat.eqb n 13.

Fixpoint skip_ws (s : string) : string :=
  match s with
  | String c s' => if is_ws c then skip_ws s' else s
  | EmptyString => s
  end.

Definition hex_value (c : ascii) : option nat :=
  let n := nat_of_ascii c in
  if Nat.leb 48 n && Nat.leb n 57 then Some (n - 48)%nat
  else if Nat.leb 97 n && Nat.leb n 102 then Some (n - 87)%nat
  else if Nat.leb 65 n && Nat.leb n 70 then Some (n - 55)%nat
  else None.

(** The code point of [\uXXXX], when it is below 256. *)
Definition unicode_escape (a b c d : ascii) : option ascii :=
  match hex_value a, hex_value b, hex_value c, hex_value d with
  | Some 0%nat, Some 0%nat, Some x, Some y =>
      Some (ascii_of_nat (16 * x + y))
  | _, _, _, _ => None
  end.

(** The body of a string literal, after its opening quote: the decoded
    string and the text after the closing quote. *)
Fixpoint loads_string_body (s : string) : option (string * string) :=
  match s with
  | EmptyString => None
  | String c s' =>
      if Ascii.eqb c quote then Some (EmptyString, s')
      else if Ascii.eqb c backslash then
        match s' with
        | String e s'' =>
            let continue_with (x : ascii) (rest : string) :=
              match loads_string_body rest with
              | Some (body, after) => Some (String x body, after)
              | None => None
              end in
            if Ascii.eqb e quote then continue_with quote s''
            else if Ascii.eqb e backslash then continue_with backslash s''
            else if Ascii.eqb e "/" then continue_with "/"%char s''
            else if Ascii.eqb e "n" then continue_with (ascii_of_nat 10) s''
            else if Ascii.eqb e "r" then continue_with (ascii_of_nat 13) s''
            else if Ascii.eqb e "t" then continue_with (ascii_of_nat 9) s''
            else if Ascii.eqb e "b" then continue_with (ascii_of_nat 8) s''
            else if Ascii.eqb e "f" then continue_with (ascii_of_nat 12) s''
            else if Ascii.eqb e "u" then
              match s'' with
              | String h1 (String h2 (String h3 (String h4 rest))) =>
                  match unicode_escape h1 h2 h3 h4 with
                  | Some x => continue_with x rest
                  | None => None
                  end
              | _ => None
              end
            else None
        | EmptyString => None
        end
      else if Nat.ltb (nat_of_ascii c) 32 then None
      else
        match loads_string_body s' with
        | Some (body, after) => Some (String c body, after)
        | None => None
        end
  end.

Definition digit_of (c : ascii) : option (Decimal.uint -> Decimal.uint) :=
  match nat_of_ascii c with
  | 48%nat => Some Decimal.D0
  | 49%nat => Some Decimal.D1
  | 50%nat => Some Decimal.D2
  | 51%nat => Some Decimal.D3
  | 52%nat => Some Decimal.D4
  | 53%nat => Some Decimal.D5
  | 54%nat => Some Decimal.D6
  | 55%nat => Some Decimal.D7
  | 56%nat => Some Decimal.D8
  | 57%nat => Some Decimal.D9
  | _ => None
  end.

(** The longest run of digits at the head of [s] and what follows. *)
Fixpoint read_digits (s : string) : Decimal.uint * string :=
  match s with
  | EmptyString => (Decimal.Nil, EmptyString)
  | String c s' =>
      match digit_of c with
      | Some d => let (u, rest) := read_digits s' in (d u, rest)
      | None => (Decimal.Nil, s)
      end
  end.

(** A fraction or an exponent follows: a float, outside the fragment. *)
Definition starts_float_tail (s : string) : bool :=
  match s with
  | String c _ => Ascii.eqb c "." || Ascii.eqb c "e" || Ascii.eqb c "E"
  | EmptyString => false
  end.

Definition checked_digits (s : string) : option (Decimal.uint * string) :=
  let (u, rest) := read_digits s in
  match u with
  | Decimal.Nil => None
  | Decimal.D0 (Decimal.Nil) =>
      if starts_float_tail rest then None else Some (u, rest)
  | Decimal.D0 _ => None
  | _ => if starts_float_tail rest then None else Some (u, rest)
  end.

Definition loads_int (s : string) : option (Z * string) :=
  match s with
  | String c s' =>
      if Ascii.eqb c "-" then
        match checked_digits s' with
        | Some (u, rest) => Some (Z.of_int (Decimal.Neg u), rest)
        | None => None
        end
      else
        match checked_digits s with
        | Some (u, rest) => Some (Z.of_int (Decimal.Pos u), rest)
        | None => None
        end
  | EmptyString => None
  end.

Definition loads_value (s : string) : option (Json * string) :=
  match s with
  | String c s' =>
      if Ascii.eqb c quote then
        match loads_string_body s' with
        | Some (x, rest) => Some (JStr x, rest)
        | None => None
        end
      else
        match loads_int s with
        | Some (n, rest) => Some (JInt n, rest)
        | None => None
        end
  | EmptyString => None
  end.

(** One member [key : value], from its opening quote on. *)
Definition loads_member (s : string) : option ((string * Json) * string) :=
  match s with
  | String c s' =>
      if Ascii.eqb c quote then
        match loads_string_body s' with
        | Some (k, rest) =>
            match skip_ws rest with
            | String colon rest' =>
                if Ascii.eqb colon ":" then
                  match loads_value (skip_ws rest') with
                  | Some (x, rest'') => Some ((k, x), rest'')
                  | None => None
                  end
                else None
            | EmptyString => None
            end
        | None => None
        end
      else None
  | EmptyString => None
  end.

(** The members after the first, up to the closing brace; a repeated key
    keeps its first position and takes the last value, as a dict does.
    [fuel] bounds the number of members. *)
Fixpoint loads_members (fuel : nat) (acc : MetaDataType) (s : string)
  : option (MetaDataType * string) :=
  match fuel with
  | O => None
  | S fuel' =>
      match loads_member s with
      | Some ((k, x), rest) =>
          let acc' := dict_set k x acc in
          match skip_ws rest with
          | String c rest' =>
              if Ascii.eqb c "," then loads_members fuel' acc' (skip_ws rest')
              else if Ascii.eqb c "}" then Some (acc', rest')
              else None
          | EmptyString => None
          end
      | None => None
      end
  end.

Definition loads_object (s : string) : option MetaDataType :=
  match skip_ws s with
  | String c s' =>
      if Ascii.eqb c "{" then
        match skip_ws s' with
        | String c' s'' =>
            if Ascii.eqb c' "}" then
              match skip_ws s'' with
              | EmptyString => Some []
              | _ => None
              end
            else
              match loads_members (String.length s) [] (skip_ws s') with
              | Some (md, rest) =>
                  match skip_ws rest with
                  | EmptyString => Some md
                  | _ => None
                  end
              | None => None
              end
        | EmptyString => None
        end
      else None
  | EmptyString => None
  end.

(** [json.loads(b)] on bytes *)
Definition json_loads (b : bytes) : Result MetaDataType :=
  match loads_object (string_of_list_byte b) with
  | Some md => Ok md
  | None => Err JSONDecodeError
  end.

End Json_codec.

(** ** The state of the world *)

(** What a backend holds under a key: an envelope object, or the bytes
    written through the serialized interface. *)
Inductive BackendFormatted : Type :=
  | Obj (cv : CachedValue)
  | Raw (b : bytes).

(** The calls a region makes on its backend. *)
Inductive BackendCall : Type :=
  | call_get (key : string)
  | call_get_multi (keys : list string)
  | call_get_serialized (key : string)
  | call_get_serialized_multi (keys : list string)
  | call_set (key : string) (value : CachedValue)
  | call_set_multi (mapping : list (string * CachedValue))
  | call_set_serialized (key : string) (value : bytes)
  | call_set_serialized_multi (mapping : list (string * bytes))
  | call_delete (key : string)
  | call_delete_multi (keys : list string).

Record World : Type := mkWorld {
  clock : nat -> Z;          (* the successive readings of time.time() *)
  ticks : nat;               (* how many readings were taken *)
  store : gmap string BackendFormatted;   (* the backend's contents *)
  calls : list BackendCall;  (* the backend calls made, latest first *)
  held : gset string;        (* names of the mutexes that are locked *)
  region_invalidator : DefaultInvalidationStrategy.t;
  mutexes : list (string * string)
    (* the dict [mutexes] of the get_or_create_multi call in progress *)
}.

Definition set_ticks (n : nat) (w : World) : World :=
  mkWorld (clock w) n (store w) (calls w) (held w)
          (region_invalidator w) (mutexes w).
Definition set_store (s : gmap string BackendFormatted) (w : World) : World :=
  mkWorld (clock w) (ticks w) s (calls w) (held w)
          (region_invalidator w) (mutexes w).
Definition set_calls (c : list BackendCall) (w : World) : World :=
  mkWorld (clock w) (ticks w) (store w) c (held w)
          (region_invalidator w) (mutexes w).
Definition set_held (h : gset string) (w : World) : World :=
  mkWorld (clock w) (ticks w) (store w) (calls w) h
          (region_invalidator w) (mutexes w).
Definition set_region_invalidator (i : DefaultInvalidationStrategy.t)
  (w : World) : World :=
  mkWorld (clock w) (ticks w) (store w) (calls w) (held w) i (mutexes w).
Definition set_mutexes (m : list (string * string)) (w : World) : World :=
  mkWorld (clock w) (ticks w) (store w) (calls w) (held w)
          (region_invalidator w) m.

(** ** The monad of methods *)

Inductive Outcome (A : Type) : Type :=
  | Return (a : A)
  | Raise (e : Exception)
  | Blocked.
Arguments Return {A} a.
Arguments Raise {A} e.
Arguments Blocked {A}.

Definition M (A : Type) : Type := World -> Outcome A * World.

Definition ret {A} (a : A) : M A := fun w => (Return a, w).
Definition raise {A} (e : Exception) : M A := fun w => (Raise e, w).
Definition block {A} : M A := fun w => (Blocked, w).

Definition bind {A B} (m : M A) (k : A -> M B) : M B :=
  fun w =>
    match m w with
    | (Return a, w') => k a w'
    | (Raise e, w') => (Raise e, w')
    | (Blocked, w') => (Blocked, w')
    end.

Notation "'let*' x ':=' m 'in' k" := (bind m (fun x => k))
  (at level 10, x binder, m at level 100, k at level 200).

Definition lift {A} (r : Result A) : M A :=
  match r with
  | Ok a => ret a
  | Err e => raise e
  end.

(** [try: body finally: cleanup] *)
Definition try_finally {A} (body : M A) (cleanup : M unit) : M A :=
  fun w =>
    match body w with
    | (Return a, w') =>
        match cleanup w' with
        | (Return _, w'') => (Return a, w'')
        | (Raise e, w'') => (Raise e, w'')
        | (Blocked, w'') => (Blocked, w'')
        end
    | (Raise e, w') =>
        match cleanup w' with
        | (Return _, w'') => (Raise e, w'')
        | (Raise e', w'') => (Raise e', w'')
        | (Blocked, w'') => (Blocked, w'')
        end
    | (Blocked, w') => (Blocked, w')
    end.

Fixpoint mapM {A B} (f : A -> M B) (l : list A) : M (list B) :=
  match l with
  | [] => ret []
  | x :: l' =>
      let* y := f x in
      let* ys := mapM f l' in
      ret (y :: ys)
  end.

Fixpoint forM_ {A} (l : list A) (f : A -> M unit) : M unit :=
  match l with
  | [] => ret tt
  | x :: l' => let* _ := f x in forM_ l' f
  end.

Definition get_world : M World := fun w => (Return w, w).

(** [time.time()] *)
Definition time_time : M Z :=
  fun w => (Return (clock w (ticks w)), set_ticks (S (ticks w)) w).

(** ** The backend

    The contract of section 4.A of the specification, as a dictionary
    backend: reads return what was stored or [NO_VALUE], deletes are
    idempotent, and every call is recorded.  Reading through one
    interface what was stored through the other raises
    [AttributeError], as using the ill-typed object does. *)

Definition record_call (c : BackendCall) : M unit :=
  fun w => (Return tt, set_calls (c :: calls w) w).

Definition lookup_object (w : World) (key : string) : Result CacheReturnType :=
  match store w !! key with
  | None => Ok NO_VALUE
  | Some (Obj cv) => Ok (Cached cv)
  | Some (Raw _) => Err AttributeError
  end.

Definition lookup_serialized (w : World) (key : string)
  : Result (option bytes) :=
  match store w !! key with
  | None => Ok None
  | Some (Raw b) => Ok (Some b)
  | Some (Obj _) => Err AttributeError
  end.

Definition backend_get (key : string) : M CacheReturnType :=
  let* _ := record_call (call_get key) in
  let* w := get_world in
  lift (lookup_object w key).

Definition backend_get_multi (keys : list string) : M (list CacheReturnType) :=
  let* _ := record_call (call_get_multi keys) in
  let* w := get_world in
  mapM (fun k => lift (lookup_object w k)) keys.

Definition backend_get_serialized (key : string) : M (option bytes) :=
  let* _ := record_call (call_get_serialized key) in
  let* w := get_world in
  lift (lookup_serialized w key).

Definition backend_get_serialized_multi (keys : list string)
  : M (list (option bytes)) :=
  let* _ := record_call (call_get_serialized_multi keys) in
  let* w := get_world in
  mapM (fun k => lift (lookup_serialized w k)) keys.

Definition store_all {V} (inj : V -> BackendFormatted)
  (mapping : list (string * V)) (s : gmap string BackendFormatted)
  : gmap string BackendFormatted :=
  fold_left (fun acc kv => <[fst kv := inj (snd kv)]> acc) mapping s.

Definition backend_set (key : string) (value : CachedValue) : M unit :=
  fun w =>
    (Return tt,
     set_store (<[key := Obj value]> (store w))
       (set_calls (call_set key value :: calls w) w)).

Definition backend_set_multi (mapping : list (string * CachedValue))
  : M unit :=
  fun w =>
    (Return tt,
     set_store (store_all Obj mapping (store w))
       (set_calls (call_set_multi mapping :: calls w) w)).

Definition backend_set_serialized (key : string) (value : bytes) : M unit :=
  fun w =>
    (Return tt,
     set_store (<[key := Raw value]> (store w))
       (set_calls (call_set_serialized key value :: calls w) w)).

Definition backend_set_serialized_multi (mapping : list (string * bytes))
  : M unit :=
  fun w =>
    (Return tt,
     set_store (store_all Raw mapping (store w))
       (set_calls (call_set_serialized_multi mapping :: calls w) w)).

Definition backend_delete (key : string) : M unit :=
  fun w =>
    (Return tt,
     set_store (delete key (store w))
       (set_calls (call_delete key :: calls w) w)).

Definition backend_delete_multi (keys : list string) : M unit :=
  fun w =>
    (Return tt,
     set_store (fold_left (fun acc k => delete k acc) keys (store w))
       (set_calls (call_delete_multi keys :: calls w) w)).

(** The backend calls that write. *)
Definition is_write (c : BackendCall) : bool :=
  match c with
  | call_set _ _ | call_set_multi _
  | call_set_serialized _ _ | call_set_serialized_multi _
  | call_delete _ | call_delete_multi _ => true
  | _ => false
  end.

(** ** Mutexes

    The registry memoises one mutex per name, so a mutex is its name. *)

Definition locked (mutex : string) : M bool :=
  fun w => (Return (bool_decide (mutex ∈ held w)), w).

(** [mutex.acquire(False)] *)
Definition acquire_nowait (mutex : string) : M bool :=
  fun w =>
    if bool_decide (mutex ∈ held w) then (Return false, w)
    else (Return true, set_held ({[mutex]} ∪ held w) w).

Definition release (mutex : string) : M unit :=
  fun w => (Return tt, set_held (held w ∖ {[mutex]}) w).

(** ** CacheRegion *)

(** The caller's creation function: it receives the positional
    arguments of [creator_args] (none without them) and may look at the
    world it runs in. *)
Definition Creator : Type := list ValuePayload -> World -> Result ValuePayload.

(** The creation function of the multi-key call: from the keys to
    generate to their values. *)
Definition MultiCreator : Type :=
  list string -> World -> Result (list ValuePayload).

(** [async_creation_runner(region, key, creator, mutex)]: the embedder's
    runner, given the caller's key, the creation thunk and the mutex it
    must release. *)
Definition AsyncCreator : Type :=
  string -> (World -> Result ValuePayload) -> string -> M unit.

(** The attributes of a configured region. *)
Record CacheRegion : Type := mkCacheRegion {
  key_mangler : option (string -> string);
  serializer : option (ValuePayload -> bytes);
  deserializer : option (bytes -> Result ValuePayload);
  expiration_time : option Z;
  async_creation_runner : option AsyncCreator
}.

(** [self.expiration_time], for the methods whose parameter has the same
    name. *)
Definition self_expiration_time (self : CacheRegion) : option Z :=
  expiration_time self.

(** [key_mangler(key)] when a mangler is set. *)
Definition mangle (self : CacheRegion) (key : string) : string :=
  match key_mangler self with
  | Some km => km key
  | None => key
  end.

(** [invalidate(hard)] *)
Definition invalidate (hard : bool) : M unit :=
  let* now := time_time in
  fun w =>
    (Return tt,
     set_region_invalidator
       (DefaultInvalidationStrategy.invalidate hard now
          (region_invalidator w)) w).

Definition _gen_metadata : M MetaDataType :=
  let* now := time_time in
  ret [("ct", JInt now); ("v", JInt value_version)].

Definition _value (value : ValuePayload) (metadata : option MetaDataType)
  : M CachedValue :=
  let* metadata :=
    match metadata with
    | None => _gen_metadata
    | Some md => ret md
    end in
  ret (mkCachedValue value metadata).

Definition pipe : byte := "|"%byte.

(** [byte_value.partition(b"|")]: the bytes before the first pipe and the
    bytes after it; without a pipe, everything and nothing. *)
Fixpoint partition_pipe (byte_value : bytes) : bytes * bytes :=
  match byte_value with
  | [] => ([], [])
  | b :: rest =>
      if Byte.eqb b pipe then ([], rest)
      else let (before, after) := partition_pipe rest in (b :: before, after)
  end.

Definition _parse_serialized_from_backend (self : CacheRegion)
  (value : option bytes) : Result CacheReturnType :=
  match value with
  | None => Ok NO_VALUE
  | Some byte_value =>
      match deserializer self with
      | None => Err AssertionError
      | Some deserialize =>
          let (bytes_metadata, bytes_payload) := partition_pipe byte_value in
          match Json_codec.json_loads bytes_metadata with
          | Err e => Err e
          | Ok metadata =>
              match deserialize bytes_payload with
              | Err CantDeserializeException => Ok NO_VALUE
              | Err e => Err e
              | Ok payload => Ok (Cached (mkCachedValue payload metadata))
              end
          end
      end
  end.

Definition _serialize_cached_value_elements (self : CacheRegion)
  (payload : ValuePayload) (metadata : MetaDataType) : Result bytes :=
  match serializer self with
  | None => Err TypeError
  | Some serialize =>
      Ok (list_byte_of_string (Json_codec.json_dumps metadata)
            ++ pipe :: serialize payload)%list
  end.

Definition _serialized_payload (self : CacheRegion) (payload : ValuePayload)
  (metadata : option MetaDataType) : M bytes :=
  let* metadata :=
    match metadata with
    | None => _gen_metadata
    | Some md => ret md
    end in
  lift (_serialize_cached_value_elements self payload metadata).

Definition _serialized_cached_value (self : CacheRegion)
  (value : CachedValue) : Result bytes :=
  match serializer self with
  | None => Err AssertionError
  | Some _ =>
      _serialize_cached_value_elements self (payload value) (metadata value)
  end.

Definition _get_from_backend (self : CacheRegion) (key : string)
  : M CacheReturnType :=
  match deserializer self with
  | Some _ =>
      let* raw := backend_get_serialized key in
      lift (_parse_serialized_from_backend self raw)
  | None => backend_get key
  end.

Definition _get_multi_from_backend (self : CacheRegion) (keys : list string)
  : M (list CacheReturnType) :=
  match deserializer self with
  | Some _ =>
      let* raws := backend_get_serialized_multi keys in
      mapM (fun v => lift (_parse_serialized_from_backend self v)) raws
  | None => backend_get_multi keys
  end.

Definition _set_cached_value_to_backend (self : CacheRegion) (key : string)
  (value : CachedValue) : M unit :=
  match serializer self with
  | Some _ =>
      let* b := lift (_serialized_cached_value self value) in
      backend_set_serialized key b
  | None => backend_set key value
  end.

Definition _set_multi_cached_value_to_backend (self : CacheRegion)
  (mapping : list (string * CachedValue)) : M unit :=
  match mapping with
  | [] => ret tt
  | _ :: _ =>
      match serializer self with
      | Some _ =>
          let* items :=
            mapM (fun kv =>
                    let* b := lift (_serialized_cached_value self (snd kv)) in
                    ret (fst kv, b)) mapping in
          backend_set_serialized_multi (dict_of_items items)
      | None => backend_set_multi mapping
      end
  end.

(** [set(key, value)] *)
Definition set (self : CacheRegion) (key : string) (value : ValuePayload)
  : M unit :=
  let key := mangle self key in
  match serializer self with
  | Some _ =>
      let* b := _serialized_payload self value None in
      backend_set_serialized key b
  | None =>
      let* cv := _value value None in
      backend_set key cv
  end.

(** [set_multi(mapping)] *)
Definition set_multi (self : CacheRegion)
  (mapping : list (string * ValuePayload)) : M unit :=
  match mapping with
  | [] => ret tt
  | _ :: _ =>
      let* metadata := _gen_metadata in
      match serializer self with
      | Some _ =>
          let* items :=
            mapM (fun kv =>
                    let* b :=
                      _serialized_payload self (snd kv) (Some metadata) in
                    ret (mangle self (fst kv), b)) mapping in
          backend_set_serialized_multi (dict_of_items items)
      | None =>
          let* items :=
            mapM (fun kv =>
                    let* cv := _value (snd kv) (Some metadata) in
                    ret (mangle self (fst kv), cv)) mapping in
          backend_set_multi (dict_of_items items)
      end
  end.

(** [delete(key)] *)
Definition delete (self : CacheRegion) (key : string) : M unit :=
  backend_delete (mangle self key).

(** [delete_multi(keys)] *)
Definition delete_multi (self : CacheRegion) (keys : list string) : M unit :=
  backend_delete_multi (map (mangle self) keys).

(** The closure [value_fn] of [_unexpired_value_fn], with the
    [expiration_time] and [current_time] it captured. *)
Definition value_fn (expiration_time : option Z) (current_time : Z)
  (value : CacheReturnType) : M CacheReturnType :=
  match value with
  | NO_VALUE => ret value
  | Cached cv =>
      let* expired :=
        match expiration_time with
        | None => ret false
        | Some e =>
            let* ct := lift (metadata_ct (metadata cv)) in
            ret (Z.gtb (current_time - ct) e)
        end in
      if expired then ret NO_VALUE
      else
        let* ct := lift (metadata_ct (metadata cv)) in
        let* w := get_world in
        if DefaultInvalidationStrategy.is_invalidated
             (region_invalidator w) ct
        then ret NO_VALUE
        else ret value
  end.

Definition _unexpired_value_fn (self : CacheRegion)
  (expiration_time : option Z) (ignore_expiration : bool)
  : M (CacheReturnType -> M CacheReturnType) :=
  if ignore_expiration then ret (fun value => ret value)
  else
    let expiration_time :=
      match expiration_time with
      | None => self_expiration_time self
      | Some e => Some e
      end in
    let* current_time := time_time in
    ret (value_fn expiration_time current_time).

Definition _get_cache_value (self : CacheRegion) (key : string)
  (expiration_time : option Z) (ignore_expiration : bool)
  : M CacheReturnType :=
  let key := mangle self key in
  let* value := _get_from_backend self key in
  let* fn := _unexpired_value_fn self expiration_time ignore_expiration in
  fn value.

(** [get(key, expiration_time, ignore_expiration)]; [None] is the token
    [NO_VALUE]. *)
Definition get (self : CacheRegion) (key : string)
  (expiration_time : option Z) (ignore_expiration : bool)
  : M (option ValuePayload) :=
  let* value :=
    _get_cache_value self key expiration_time ignore_expiration in
  ret (payload_of value).

(** [get_value_metadata(key, ...)]; Python's [None] is [None]. *)
Definition get_value_metadata (self : CacheRegion) (key : string)
  (expiration_time : option Z) (ignore_expiration : bool)
  : M (option CachedValue) :=
  let* cache_value :=
    _get_cache_value self key expiration_time ignore_expiration in
  match cache_value with
  | NO_VALUE => ret None
  | Cached cv => ret (Some cv)
  end.

(** [get_multi(keys, expiration_time, ignore_expiration)] *)
Definition get_multi (self : CacheRegion) (keys : list string)
  (expiration_time : option Z) (ignore_expiration : bool)
  : M (list (option ValuePayload)) :=
  match keys with
  | [] => ret []
  | _ :: _ =>
      let keys := map (mangle self) keys in
      let* backend_values := _get_multi_from_backend self keys in
      let* fn := _unexpired_value_fn self expiration_time ignore_expiration in
      mapM (fun value => let* value := fn value in ret (payload_of value))
           backend_values
  end.

Definition _is_cache_miss (self : CacheRegion) (value : CacheReturnType)
  (orig_key : string) : M bool :=
  match value with
  | NO_VALUE => ret true
  | Cached cv =>
      let* v := lift (getitem (metadata cv) "v") in
      if negb (Json_eqb v (JInt value_version)) then ret true
      else
        let* ct := lift (metadata_ct (metadata cv)) in
        let* w := get_world in
        if DefaultInvalidationStrategy.is_hard_invalidated
             (region_invalidator w) ct
        then ret true
        else ret false
  end.

(** [key_is_locked(key)] *)
Definition key_is_locked (self : CacheRegion) (key : string) : M bool :=
  locked key.

(** [with self._log_time(keys): body]: the clock is read before the body
    and, when the body returns, after it. *)
Definition _log_time {A} (body : M A) : M A :=
  let* start_time := time_time in
  let* x := body in
  let* end_time := time_time in
  ret x.

(** A call of the caller's function in the current world. *)
Definition call {A} (f : World -> Result A) : M A :=
  fun w => lift (f w) w.

(** ** The dogpile lock *)

(** Step 1 of the lock: the reader's pair, or no payload and creation
    time 0 when it signals that regeneration is needed. *)
Definition read_value {A} (get_value : M (A * Z)) : M (option A * Z) :=
  fun w =>
    match get_value w with
    | (Return (p, ct), w') => (Return (Some p, ct), w')
    | (Raise NeedRegenerationException, w') => (Return (None, 0), w')
    | (Raise e, w') => (Raise e, w')
    | (Blocked, w') => (Blocked, w')
    end.

(** Step 2 of the lock: is a value created at [ct] fresh?  A creation
    time of 0 or less stands for "no value" and is never fresh. *)
Definition is_fresh (expiration_time : option Z) (ct : Z) : M bool :=
  match expiration_time with
  | None => ret (Z.ltb 0 ct)
  | Some e =>
      let* now := time_time in
      ret (Z.ltb 0 ct && Z.ltb (now - ct) e)
  end.

(** Modelled from the spec: the dogpile lock, [Lock] of [dogpile/lock.py],
    which the region calls and which is not among the sources.  It follows
    section 4.F of the specification for one caller:
    1. read with [get_value]; "need regeneration" gives creation time 0;
    2. a fresh value is returned;
    3. a stale one makes the caller try the mutex without waiting.  With
       the mutex: [async_creator], when there is one and the reader
       returned a value, takes the mutex over and the value read is
       returned; otherwise [gen_value] runs and the mutex is released.
       Without the mutex: a value created at a positive time is returned
       stale, otherwise the caller waits ([Blocked]: nobody else runs).
    The reader of [get_or_create_multi] returns the pair (payload, 0)
    for a miss, and section 4.G has the missing keys regenerated through
    [async_creator]: a reader that returned a pair counts as a prior
    value in step 3. *)
Definition Lock {A} (mutex : string) (gen_value : M (A * Z))
  (get_value : M (A * Z)) (expiration_time : option Z)
  (async_creator : option (string -> M unit)) : M A :=
  let* '(prior, ct) := read_value get_value in
  let* fresh := is_fresh expiration_time ct in
  match fresh, prior with
  | true, Some p => ret p
  | _, _ =>
      let* acquired := acquire_nowait mutex in
      if acquired then
        match async_creator, prior with
        | Some run_async, Some p =>
            fun w =>
              match run_async mutex w with
              | (Return _, w') => (Return p, w')
              | (Raise e, w') => (Raise e, set_held (held w' ∖ {[mutex]}) w')
              | (Blocked, w') => (Blocked, w')
              end
        | _, _ =>
            let* '(p, _) := try_finally gen_value (release mutex) in
            ret p
        end
      else
        match prior with
        | Some p => if Z.ltb 0 ct then ret p else block
        | None => block
        end
  end.

(** ** get_or_create *)

Definition soft_invalidation_error : Exception :=
  DogpileCacheException
    "Non-None expiration time required for soft invalidation".

(** The expiration time in force in [get_or_create] and
    [get_or_create_multi]: the argument, else the region's, and [-1]
    for none. *)
Definition effective_expiration_time (self : CacheRegion)
  (expiration_time : option Z) : option Z :=
  let expiration_time :=
    match expiration_time with
    | None => self_expiration_time self
    | Some e => Some e
    end in
  match expiration_time with
  | Some e => if Z.eqb e (- second) then None else Some e
  | None => None
  end.

(** The closure [get_value] of [get_or_create]; [expiration_time] is the
    value the enclosing variable has when the lock runs. *)
Definition get_value (self : CacheRegion) (key orig_key : string)
  (expiration_time : option Z) : M (ValuePayload * Z) :=
  let* value := _get_from_backend self key in
  let* miss := _is_cache_miss self value orig_key in
  if miss then raise NeedRegenerationException
  else
    match value with
    | NO_VALUE => raise AttributeError
    | Cached cv =>
        let* ct := lift (metadata_ct (metadata cv)) in
        let* w := get_world in
        if DefaultInvalidationStrategy.is_soft_invalidated
             (region_invalidator w) ct
        then
          match expiration_time with
          | None => raise soft_invalidation_error
          | Some e =>
              let* now := time_time in
              ret (payload cv, now - e - epsilon)
          end
        else ret (payload cv, ct)
    end.

(** The closure [gen_value] of [get_or_create]. *)
Definition gen_value (self : CacheRegion) (key orig_key : string)
  (creator : Creator) (creator_args : option (list ValuePayload))
  (expiration_time : option Z)
  (should_cache_fn : option (ValuePayload -> bool))
  : M (ValuePayload * Z) :=
  let* created_value :=
    _log_time
      (match creator_args with
       | Some args => call (creator args)
       | None => call (creator [])
       end) in
  let* value := _value created_value None in
  let* w := get_world in
  if match expiration_time with None => true | Some _ => false end
     && DefaultInvalidationStrategy.was_soft_invalidated (region_invalidator w)
  then raise soft_invalidation_error
  else
    let* _ :=
      match should_cache_fn with
      | None => _set_cached_value_to_backend self key value
      | Some f =>
          if f created_value
          then _set_cached_value_to_backend self key value
          else ret tt
      end in
    let* ct := lift (metadata_ct (metadata value)) in
    ret (payload value, ct).

(** [get_or_create(key, creator, expiration_time, should_cache_fn,
    creator_args)] *)
Definition get_or_create (self : CacheRegion) (key : string)
  (creator : Creator) (expiration_time : option Z)
  (should_cache_fn : option (ValuePayload -> bool))
  (creator_args : option (list ValuePayload)) : M ValuePayload :=
  let orig_key := key in
  let key := mangle self key in
  let expiration_time := effective_expiration_time self expiration_time in
  let async_creator :=
    match async_creation_runner self with
    | Some acr =>
        let go :=
          match creator_args with
          | Some args => creator args
          | None => creator []
          end in
        Some (fun mutex => acr orig_key go mutex)
    | None => None
    end in
  Lock key
    (gen_value self key orig_key creator creator_args expiration_time
       should_cache_fn)
    (get_value self key orig_key expiration_time)
    expiration_time async_creator.

(** ** get_or_create_multi *)

(** The closure [get_value(key)] of [get_or_create_multi], over the dict
    [values] read from the backend. *)
Definition multi_get_value (self : CacheRegion)
  (values : list (string * CacheReturnType)) (orig_key key : string)
  (expiration_time : option Z) : M (option ValuePayload * Z) :=
  let value := default NO_VALUE (dict_get key values) in
  let* miss := _is_cache_miss self value orig_key in
  if miss then ret (payload_of value, 0)
  else
    match value with
    | NO_VALUE => raise AttributeError
    | Cached cv =>
        let* ct := lift (metadata_ct (metadata cv)) in
        let* w := get_world in
        if DefaultInvalidationStrategy.is_soft_invalidated
             (region_invalidator w) ct
        then
          match expiration_time with
          | None => raise soft_invalidation_error
          | Some e =>
              let* now := time_time in
              ret (Some (payload cv), now - e - epsilon)
          end
        else ret (Some (payload cv), ct)
    end.

Definition multi_gen_value : M (option ValuePayload * Z) :=
  raise NotImplementedError.

(** [async_creator(mutexes, key, mutex)]: [mutexes[key] = mutex]. *)
Definition multi_async_creator (key mutex : string) : M unit :=
  fun w => (Return tt, set_mutexes (dict_set key mutex (mutexes w)) w).

(** [d[k]] on a dict. *)
Definition dict_item {V} (d : list (string * V)) (k : string) : M V :=
  match dict_get k d with
  | Some x => ret x
  | None => raise (KeyError k)
  end.

(** The comprehension
    [{orig_to_mangled[k]: self._value(v) for k, v in zip(keys_to_get, new_values)}] *)
Fixpoint values_w_created (orig_to_mangled : list (string * string))
  (items : list (string * ValuePayload))
  (acc : list (string * CachedValue)) : M (list (string * CachedValue)) :=
  match items with
  | [] => ret acc
  | (k, v) :: items' =>
      let* mk := dict_item orig_to_mangled k in
      let* cv := _value v None in
      values_w_created orig_to_mangled items' (dict_set mk cv acc)
  end.

(** The [for] loop of [get_or_create_multi]: one pass of the lock per
    key, whose [async_creator] records the mutexes taken. *)
Definition multi_lock_keys (self : CacheRegion)
  (orig_to_mangled : list (string * string))
  (values : list (string * CacheReturnType)) (expiration_time : option Z)
  : M unit :=
  forM_ orig_to_mangled
    (fun item =>
       let orig_key := fst item in
       let mangled_key := snd item in
       let* _ :=
         Lock mangled_key multi_gen_value
           (multi_get_value self values orig_key mangled_key
              expiration_time)
           expiration_time
           (Some (fun mutex => multi_async_creator orig_key mutex)) in
       ret tt).

(** The body of the [try] of [get_or_create_multi]. *)
Definition multi_try (self : CacheRegion) (keys : list string)
  (creator : MultiCreator) (expiration_time : option Z)
  (should_cache_fn : option (ValuePayload -> bool))
  (orig_to_mangled : list (string * string))
  (values : list (string * CacheReturnType))
  : M (list (option ValuePayload)) :=
  let* w := get_world in
  let* values :=
    match mutexes w with
    | [] => ret values
    | _ :: _ =>
        let keys_to_get := sorted_set (dict_keys (mutexes w)) in
        let* new_values := _log_time (call (creator keys_to_get)) in
        let* created :=
          values_w_created orig_to_mangled
            (combine keys_to_get new_values) [] in
        let* w' := get_world in
        if match expiration_time with None => true | Some _ => false end
           && DefaultInvalidationStrategy.was_soft_invalidated
                (region_invalidator w')
        then raise soft_invalidation_error
        else
          let* _ :=
            match should_cache_fn with
            | None => _set_multi_cached_value_to_backend self created
            | Some f =>
                _set_multi_cached_value_to_backend self
                  (List.filter (fun kv => f (payload (snd kv))) created)
            end in
          ret (dict_update values
                 (map (fun kv => (fst kv, Cached (snd kv))) created))
    end in
  mapM (fun k =>
          let* mk := dict_item orig_to_mangled k in
          let* value := dict_item values mk in
          ret (payload_of value)) keys.

(** The [finally] of [get_or_create_multi]. *)
Definition multi_finally : M unit :=
  let* w := get_world in
  forM_ (dict_values (mutexes w)) release.

(** [get_or_create_multi(keys, creator, expiration_time,
    should_cache_fn)] *)
Definition get_or_create_multi (self : CacheRegion) (keys : list string)
  (creator : MultiCreator) (expiration_time : option Z)
  (should_cache_fn : option (ValuePayload -> bool))
  : M (list (option ValuePayload)) :=
  let expiration_time := effective_expiration_time self expiration_time in
  let sorted_unique_keys := sorted_set keys in
  let mangled_keys := map (mangle self) sorted_unique_keys in
  let orig_to_mangled :=
    dict_of_items (combine sorted_unique_keys mangled_keys) in
  let* backend_values := _get_multi_from_backend self mangled_keys in
  let values := dict_of_items (combine mangled_keys backend_values) in
  let* _ := (fun w => (Return tt, set_mutexes [] w)) in
  let* _ := multi_lock_keys self orig_to_mangled values expiration_time in
  try_finally
    (multi_try self keys creator expiration_time should_cache_fn
       orig_to_mangled values)
    multi_finally.

(** The envelopes [values_w_created] makes of the entries
    (mangled key, value): each is stamped with the next clock reading. *)
Fixpoint stamp_entries (clock : nat -> Z) (t : nat)
  (entries : list (string * ValuePayload)) : list (string * CachedValue) :=
  match entries with
  | [] => []
  | (mk, v) :: entries' =>
      (mk, mkCachedValue v
             [("ct", JInt (clock t)); ("v", JInt value_version)])
      :: stamp_entries clock (S t) entries'
  end.

(** The items of [values_w_created] with their keys looked up in
    [orig_to_mangled]; [None] when a key is missing. *)
Fixpoint mangled_items (orig_to_mangled : list (string * string))
  (items : list (string * ValuePayload))
  : option (list (string * ValuePayload)) :=
  match items with
  | [] => Some []
  | (k, v) :: items' =>
      match dict_get k orig_to_mangled with
      | None => None
      | Some mk =>
          match mangled_items orig_to_mangled items' with
          | None => None
          | Some entries => Some ((mk, v) :: entries)
          end
      end
  end.

(** ** Reading the model *)

Definition outcome_of {A} (r : Result A) : Outcome A :=
  match r with
  | Ok a => Return a
  | Err e => Raise e
  end.

(** What [_get_from_backend] finds under [key]. *)
Definition stored_envelope (self : CacheRegion) (w : World) (key : string)
  : Result CacheReturnType :=
  match deserializer self with
  | Some _ =>
      match lookup_serialized w key with
      | Ok raw => _parse_serialized_from_backend self raw
      | Err e => Err e
      end
  | None => lookup_object w key
  end.

(** The backend call by which [_get_from_backend] reads [key]. *)
Definition read_call (self : CacheRegion) (key : string) : BackendCall :=
  match deserializer self with
  | Some _ => call_get_serialized key
  | None => call_get key
  end.

(** The write calls among the backend calls made. *)
Definition writes (w : World) : list BackendCall :=
  List.filter is_write (calls w).

(** The world after step 2 of the lock: the clock was read when there
    is an expiration time. *)
Definition after_fresh (e : option Z) (w : World) : World :=
  match e with
  | None => w
  | Some _ => set_ticks (S (ticks w)) w
  end.

(** The world in which a generation runs: the mutex is held. *)
Definition holding (mutex : string) (w : World) : World :=
  set_held ({[mutex]} ∪ held w) w.

(** The world after [_get_from_backend] read [key]. *)
Definition logged (self : CacheRegion) (key : string) (w : World) : World :=
  set_calls (read_call self key :: calls w) w.

(** The arguments [gen_value] calls the creator with. *)
Definition creator_call (creator : Creator)
  (creator_args : option (list ValuePayload)) : World -> Result ValuePayload :=
  match creator_args with
  | Some args => creator args
  | None => creator []
  end.

(** What [_set_cached_value_to_backend] stores for an envelope, and the
    call it makes. *)
Definition backend_item (self : CacheRegion) (cv : CachedValue)
  : BackendFormatted :=
  match serializer self with
  | Some serialize =>
      Raw (list_byte_of_string (Json_codec.json_dumps (metadata cv))
             ++ pipe :: serialize (payload cv))%list
  | None => Obj cv
  end.

Definition write_call (self : CacheRegion) (key : string) (cv : CachedValue)
  : BackendCall :=
  match serializer self with
  | Some serialize =>
      call_set_serialized key
        (list_byte_of_string (Json_codec.json_dumps (metadata cv))
           ++ pipe :: serialize (payload cv))%list
  | None => call_set key cv
  end.

(** A miss, as [_is_cache_miss] decides it on what was read. *)
Definition is_miss (w : World) (value : CacheReturnType) : Prop :=
  match value with
  | NO_VALUE => True
  | Cached cv =>
      exists j, getitem (metadata cv) "v" = Ok j
        /\ (j <> JInt value_version
            \/ exists ct, metadata_ct (metadata cv) = Ok ct
                 /\ DefaultInvalidationStrategy.is_hard_invalidated
                      (region_invalidator w) ct = true)
  end.

(** ** Example regions and worlds *)

(** A clock that starts at 1 700 000 000 s and advances one second per
    reading. *)
Definition example_clock (n : nat) : Z :=
  (1700000000 + Z.of_nat n) * second.

Definition empty_world : World :=
  mkWorld example_clock 0 ∅ [] ∅ DefaultInvalidationStrategy.init [].

(** A world whose backend holds [item] under [key]. *)
Definition world_with (key : string) (item : BackendFormatted) : World :=
  set_store (<[key := item]> ∅) empty_world.

(** A region with no mangler, no serializer and no expiration time. *)
Definition plain_region : CacheRegion :=
  mkCacheRegion None None None None None.

(** An envelope written ten seconds before the clock starts, by a
    release whose schema version was 1. *)
Definition old_version_envelope : CachedValue :=
  mkCachedValue (PyInt 7)
    [("ct", JInt (1699999990 * second)); ("v", JInt 1)].

(** An envelope of the current version, written ten seconds before the
    clock starts. *)
Definition current_envelope : CachedValue :=
  mkCachedValue (PyInt 7)
    [("ct", JInt (1699999990 * second)); ("v", JInt value_version)].

(** A creator that returns 42. *)
Definition creator_42 : Creator := fun _ _ => Ok (PyInt 42).

(** What [value_fn] answers for [value], given the invalidation state. *)
Definition unexpired (e : option Z) (now : Z)
  (inv : DefaultInvalidationStrategy.t) (value : CacheReturnType)
  : Result CacheReturnType :=
  match value with
  | NO_VALUE => Ok NO_VALUE
  | Cached cv =>
      match metadata_ct (metadata cv) with
      | Err exn => Err exn
      | Ok ct =>
          if match e with Some e' => Z.gtb (now - ct) e' | None => false end
          then Ok NO_VALUE
          else if DefaultInvalidationStrategy.is_invalidated inv ct
               then Ok NO_VALUE
               else Ok value
      end
  end.

(** The results of a list of calls made in order: the first exception
    wins. *)
Fixpoint sequence_results {A} (l : list (Result A)) : Result (list A) :=
  match l with
  | [] => Ok []
  | Ok x :: l' =>
      match sequence_results l' with
      | Ok xs => Ok (x :: xs)
      | Err exn => Err exn
      end
  | Err exn :: _ => Err exn
  end.

Definition Result_map {A B} (f : A -> B) (r : Result A) : Result B :=
  match r with
  | Ok a => Ok (f a)
  | Err exn => Err exn
  end.

(** The backend call by which [_get_multi_from_backend] reads [keys]. *)
Definition multi_read_call (self : CacheRegion) (keys : list string)
  : BackendCall :=
  match deserializer self with
  | Some _ => call_get_serialized_multi keys
  | None => call_get_multi keys
  end.

(** The world in which "k" holds [current_envelope] and the region was
    then invalidated softly. *)
Definition soft_world : World :=
  snd (invalidate false (world_with "k" (Obj current_envelope))).

(** A serializer for the example regions: one tag byte, then the
    content ([N], [T], [F], [I] and the decimal digits, [S] and the
    characters).  The deserializer raises [CantDeserializeException] on
    bytes it does not know, and an error of its own on the tag [X]. *)
Definition example_serializer (p : ValuePayload) : bytes :=
  list_byte_of_string
    match p with
    | PyNone => "N"
    | PyBool true => "T"
    | PyBool false => "F"
    | PyInt n => String "I" (Json_codec.dumps_int n)
    | PyStr s => String "S" s
    end.

Definition example_deserializer (b : bytes) : Result ValuePayload :=
  match string_of_list_byte b with
  | String tag rest =>
      if Ascii.eqb tag "N" then
        match rest with EmptyString => Ok PyNone
                   | _ => Err CantDeserializeException end
      else if Ascii.eqb tag "T" then
        match rest with EmptyString => Ok (PyBool true)
                   | _ => Err CantDeserializeException end
      else if Ascii.eqb tag "F" then
        match rest with EmptyString => Ok (PyBool false)
                   | _ => Err CantDeserializeException end
      else if Ascii.eqb tag "I" then
        match Json_codec.loads_int rest with
        | Some (n, EmptyString) => Ok (PyInt n)
        | _ => Err CantDeserializeException
        end
      else if Ascii.eqb tag "S" then Ok (PyStr rest)
      else if Ascii.eqb tag "X" then Err (UserError 1)
      else Err CantDeserializeException
  | EmptyString => Err CantDeserializeException
  end.

(** A region with a key mangler, the example serializer and an
    expiration time of one minute. *)
Definition serializing_region : CacheRegion :=
  mkCacheRegion (Some (fun k => "region:" ++ k))
    (Some example_serializer) (Some example_deserializer)
    (Some (60 * second)) None.

(** The bytes of an envelope of the current version whose payload the
    example deserializer does not know ([?]), and of one on which it
    fails with its own error ([X]). *)
Definition undecodable_bytes : bytes :=
  list_byte_of_string
    (Json_codec.json_dumps
       [("ct", JInt (1699999990 * second)); ("v", JInt value_version)]
     ++ "|?").

Definition failing_bytes : bytes :=
  list_byte_of_string
    (Json_codec.json_dumps
       [("ct", JInt (1699999990 * second)); ("v", JInt value_version)]
     ++ "|X").

(** A creator that calls [region.key_is_locked(key)] and returns the
    answer. *)
Definition probe_key_is_locked (self : CacheRegion) (key : string)
  : Creator :=
  fun _ w =>
    match fst (key_is_locked self key w) with
    | Return b => Ok (PyBool b)
    | Raise exn => Err exn
    | Blocked => Err AssertionError
    end.

(** A creator that returns whether the mutex registered under [name] is
    locked. *)
Definition probe_mutex (name : string) : Creator :=
  fun _ w =>
    match fst (locked name w) with
    | Return b => Ok (PyBool b)
    | Raise exn => Err exn
    | Blocked => Err AssertionError
    end.

(** A region whose key mangler prefixes the key. *)
Definition mangling_region : CacheRegion :=
  mkCacheRegion (Some (fun k => "region:" ++ k)) None None None None.

(** ** Steps that respect a relation between worlds *)

(** [keeps R m]: from any world, [m] ends in a world related to it. *)
Definition keeps {A} (R : World -> World -> Prop) (m : M A) : Prop :=
  forall w, R w (snd (m w)).

(** Same backend contents and same write calls. *)
Definition same_backend (w w' : World) : Prop :=
  store w' = store w /\ writes w' = writes w.

(** Same backend contents under [key]. *)
Definition same_item (key : string) (w w' : World) : Prop :=
  store w' !! key = store w !! key.

(** The value the last item with key [k] gives it, if any. *)
Definition last_assoc {V} (k : string) (items : list (string * V))
  : option V :=
  fold_left
    (fun acc kv => if String.eqb k (fst kv) then Some (snd kv) else acc)
    items None.

(** What the comprehension that ends [get_or_create_multi] returns for
    the key [k]. *)
Definition multi_result (orig_to_mangled : list (string * string))
  (values : list (string * CacheReturnType)) (k : string)
  : Result (option ValuePayload) :=
  match dict_get k orig_to_mangled with
  | None => Err (KeyError k)
  | Some mk =>
      match dict_get mk values with
      | None => Err (KeyError mk)
      | Some value => Ok (payload_of value)
      end
  end.

(** Same dict [mutexes]. *)
Definition same_mutexes (w w' : World) : Prop := mutexes w' = mutexes w.

(** A multi-key creator whose value for a key is the key as a string. *)
Definition creator_of_keys : MultiCreator :=
  fun ks _ => Ok (map PyStr ks).

(** A [should_cache_fn] that refuses everything, and one that refuses
    the string "a". *)
Definition refuse_all : ValuePayload -> bool := fun _ => false.

Definition refuse_a : ValuePayload -> bool :=
  fun v =>
    match v with
    | PyStr s => negb (String.eqb s "a")
    | _ => true
    end.

(** A region whose values expire after five seconds, and a world in
    which "a" and "b" hold envelopes written ten seconds before the
    clock starts. *)
Definition expiring_region : CacheRegion :=
  mkCacheRegion None None None (Some (5 * second)) None.

Definition two_stale_world : World :=
  set_store (<["a" := Obj current_envelope]>
               (<["b" := Obj current_envelope]> ∅)) empty_world.

(** The metadata record [set_multi] makes in the world [w]. *)
Definition shared_metadata (w : World) : MetaDataType :=
  [("ct", JInt (clock w (ticks w))); ("v", JInt value_version)].

(** A metadata record with an extra key that contains a pipe. *)
Definition metadata_with_pipe : MetaDataType :=
  [("ct", JInt (1699999990 * second)); ("v", JInt value_version);
   ("a|b", JInt 1)].

(** The text after a JSON integer ends the integer: it does not start
    with a digit, a fraction or an exponent. *)
Definition ends_integer (rest : string) : bool :=
  match rest with
  | EmptyString => true
  | String c _ =>
      match Json_codec.digit_of c with
      | Some _ => false
      | None => negb (Json_codec.starts_float_tail rest)
      end
  end.

(** The metadata record [_gen_metadata] makes at the creation time [t]. *)
Definition generated_metadata (t : Z) : MetaDataType :=
  [("ct", JInt t); ("v", JInt value_version)].

(** No pipe byte in the ASCII bytes of [s]. *)
Definition pipe_free (s : string) : Prop :=
  ~ In pipe (list_byte_of_string s).

(** The runner of the class docstring,
    [async_creation_runner(cache, somekey, creator, mutex)]: the body of
    its thread calls the creator, stores the value with [cache.set] and
    releases the mutex whatever happened.  The thread runs to its end as
    soon as it is started, and an exception ends the thread without
    reaching the caller.  [cache] is the region the runner is called
    with; [set] reads its mangler and serializer only. *)
Definition docstring_async_creation_runner (cache : CacheRegion)
  : AsyncCreator :=
  fun somekey creator mutex w =>
    match try_finally
            (let* value := call creator in set cache somekey value)
            (release mutex) w with
    | (Raise _, w') => (Return tt, w')
    | r => r
    end.

(** [expiring_region] with the runner of the class docstring. *)
Definition async_region : CacheRegion :=
  mkCacheRegion None None None (Some (5 * second))
    (Some (docstring_async_creation_runner expiring_region)).

(** The region reads back what it writes for the payload [x]: it has
    neither serializer nor deserializer, or it has both and the
    deserializer undoes the serializer on [x]. *)
Definition reads_back (self : CacheRegion) (x : ValuePayload) : Prop :=
  match serializer self, deserializer self with
  | None, None => True
  | Some serialize, Some deserialize => deserialize (serialize x) = Ok x
  | _, _ => False
  end.

(** From [w] to [w'] the backend's contents, the write calls made, the
    locked mutexes and the invalidation state are the same: at most the
    clock was read and read calls were made. *)
Definition only_read (w w' : World) : Prop :=
  store w' = store w /\ writes w' = writes w /\ held w' = held w
  /\ region_invalidator w' = region_invalidator w.

(** The envelope [set] and [gen_value] make for [x] at the clock reading
    [t]. *)
Definition generated_envelope (x : ValuePayload) (t : Z) : CachedValue :=
  mkCachedValue x (generated_metadata t).

(** ** cache_on_arguments *)

(** The [expiration_time] argument of the decorator: a number of seconds
    or none, or a callable that is evaluated at each call. *)
Inductive ExpirationTimeArg : Type :=
  | expiration_value (e : option Z)
  | expiration_callable (f : World -> Result (option Z)).

(** What [cache_on_arguments(namespace, expiration_time, should_cache_fn,
    ...)] makes of [user_func]: the decorated function
    [get_or_create_for_user_func] and its attributes [refresh],
    [invalidate], [set] and [get].  The calls are positional: the keyword
    arguments, which the source passes along with [arg], are empty.
    [key_generator] is what the function key generator of the region,
    which is not among the sources, returns for [user_func]. *)
Module cache_on_arguments.

Section decorator.
Variable self : CacheRegion.
Variable key_generator : list ValuePayload -> string.
Variable expiration_time : ExpirationTimeArg.
Variable should_cache_fn : option (ValuePayload -> bool).
Variable user_func : Creator.

Definition get_or_create_for_user_func (arg : list ValuePayload)
  : M ValuePayload :=
  let key := key_generator arg in
  let* timeout :=
    match expiration_time with
    | expiration_callable f => call f
    | expiration_value e => ret e
    end in
  get_or_create self key user_func timeout should_cache_fn (Some arg).

Definition refresh (arg : list ValuePayload) : M ValuePayload :=
  let key := key_generator arg in
  let* value := call (user_func arg) in
  let* _ := set self key value in
  ret value.

Definition invalidate (arg : list ValuePayload) : M unit :=
  let key := key_generator arg in
  delete self key.

Definition set_ (value : ValuePayload) (arg : list ValuePayload) : M unit :=
  let key := key_generator arg in
  set self key value.

Definition get (arg : list ValuePayload) : M (option ValuePayload) :=
  let key := key_generator arg in
  get self key None false.

End decorator.

End cache_on_arguments.

(** A key generator in the manner of the default one: the function's
    name, then the arguments that are strings, joined by spaces. *)
Definition example_key_generator (arg : list ValuePayload) : string :=
  fold_left
    (fun acc a =>
       match a with
       | PyStr s => acc ++ " " ++ s
       | _ => acc
       end)
    arg "fn|".

(** * Properties *)

Arguments _parse_serialized_from_backend : simpl never.
Arguments _serialize_cached_value_elements : simpl never.
Arguments Json_codec.json_loads : simpl never.
Arguments Json_codec.json_dumps : simpl never.
Arguments bind : simpl never.
Arguments value_fn : simpl never.
Arguments _unexpired_value_fn : simpl never.
Arguments _get_from_backend : simpl never.
Arguments _get_multi_from_backend : simpl never.
Arguments _set_cached_value_to_backend : simpl never.
Arguments _set_multi_cached_value_to_backend : simpl never.
Arguments _is_cache_miss : simpl never.
Arguments _gen_metadata : simpl never.
Arguments _value : simpl never.
Arguments _log_time : simpl never.
Arguments get_value : simpl never.
Arguments gen_value : simpl never.
Arguments multi_get_value : simpl never.
Arguments Lock : simpl never.
Arguments read_value : simpl never.
Arguments is_fresh : simpl never.
Arguments try_finally : simpl never.
Arguments stored_envelope : simpl never.
Arguments effective_expiration_time : simpl never.

(** One step of a computation: unfold the leading [bind] and replace the
    run of its first part by the equation [H]. *)
Ltac mstep H := unfold bind at 1; rewrite H; cbv beta iota.

Lemma bind_Return {A B} (m : M A) (k : A -> M B) w a w' :
  m w = (Return a, w') -> bind m k w = k a w'.
Proof. unfold bind. intros ->. reflexivity. Qed.

Lemma bind_Raise {A B} (m : M A) (k : A -> M B) w e w' :
  m w = (Raise e, w') -> bind m k w = (Raise e, w').
Proof. unfold bind. intros ->. reflexivity. Qed.

Lemma bind_Blocked {A B} (m : M A) (k : A -> M B) w w' :
  m w = (Blocked, w') -> bind m k w = (Blocked, w').
Proof. unfold bind. intros ->. reflexivity. Qed.

(** *** The invalidation strategy *)

Lemma invalidate_run (hard : bool) (w : World) :
  invalidate hard w =
  (Return tt,
   set_region_invalidator
     (DefaultInvalidationStrategy.invalidate hard (clock w (ticks w))
        (region_invalidator w))
     (set_ticks (S (ticks w)) w)).
Proof. reflexivity. Qed.

Lemma invalidate_sequence (modes : list bool) (hard : bool) (w : World) :
  region_invalidator (snd (forM_ (modes ++ [hard]) invalidate w)) =
  DefaultInvalidationStrategy.mk (Some hard)
    (Some (clock w (ticks w + length modes)%nat)).
Proof.
  revert w. induction modes as [|m modes IH]; intros w.
  - simpl. rewrite Nat.add_0_r. reflexivity.
  - change (forM_ ((m :: modes) ++ [hard]) invalidate w)
      with (forM_ (modes ++ [hard]) invalidate
              (snd (invalidate m w))).
    rewrite IH. simpl. f_equal. f_equal. f_equal. lia.
Qed.

(** C10.  For [DefaultInvalidationStrategy], [was_hard_invalidated()] and
    [was_soft_invalidated()] are never both true: a fresh strategy answers
    false to both, and after any sequence of [invalidate(hard)] calls
    exactly one of them is true, the mode of the last call, which
    overwrote the stored mode and the barrier timestamp (the clock reading
    of that call). *)
Theorem C10_hard_and_soft_exclusive :
  (DefaultInvalidationStrategy.was_hard_invalidated
     DefaultInvalidationStrategy.init = false
   /\ DefaultInvalidationStrategy.was_soft_invalidated
        DefaultInvalidationStrategy.init = false)
  /\ (forall s,
        DefaultInvalidationStrategy.was_hard_invalidated s
        && DefaultInvalidationStrategy.was_soft_invalidated s = false)
  /\ (forall (modes : list bool) (hard : bool) (w : World),
        let s := region_invalidator
                   (snd (forM_ (modes ++ [hard]) invalidate w)) in
        DefaultInvalidationStrategy.was_hard_invalidated s = hard
        /\ DefaultInvalidationStrategy.was_soft_invalidated s = negb hard
        /\ DefaultInvalidationStrategy._invalidated s =
             Some (clock w (ticks w + length modes)%nat)).
Proof.
  split; [split; reflexivity|]. split.
  - intros [[[|]|] barrier]; reflexivity.
  - intros modes hard w. cbv zeta. rewrite invalidate_sequence.
    destruct hard; repeat split; reflexivity.
Qed.

(** *** Reading the backend *)

Lemma stored_envelope_frame (self : CacheRegion) (w w' : World) key :
  store w' = store w ->
  stored_envelope self w' key = stored_envelope self w key.
Proof.
  intros E. unfold stored_envelope, lookup_serialized, lookup_object.
  rewrite E. reflexivity.
Qed.

Lemma _get_from_backend_run (self : CacheRegion) key w :
  _get_from_backend self key w =
  (outcome_of (stored_envelope self w key),
   set_calls (read_call self key :: calls w) w).
Proof.
  unfold _get_from_backend, stored_envelope, read_call.
  destruct (deserializer self) as [d|] eqn:D.
  - unfold backend_get_serialized, bind, record_call, get_world, lift.
    unfold lookup_serialized. simpl.
    destruct (store w !! key) as [[cv|b]|]; simpl; try reflexivity.
    destruct (_parse_serialized_from_backend self (Some b)); reflexivity.
  - unfold backend_get, bind, record_call, get_world, lift, lookup_object.
    simpl. destruct (store w !! key) as [[cv|b]|]; reflexivity.
Qed.

Lemma _is_cache_miss_run (self : CacheRegion) cv orig_key j ct w :
  getitem (metadata cv) "v" = Ok j ->
  metadata_ct (metadata cv) = Ok ct ->
  _is_cache_miss self (Cached cv) orig_key w =
  (Return (negb (Json_eqb j (JInt value_version))
           || DefaultInvalidationStrategy.is_hard_invalidated
                (region_invalidator w) ct), w).
Proof.
  intros Hv Hct. unfold _is_cache_miss, bind, lift, get_world.
  rewrite Hv. simpl.
  destruct (negb (Json_eqb j (JInt value_version))); simpl; [reflexivity|].
  rewrite Hct. simpl.
  destruct (DefaultInvalidationStrategy.is_hard_invalidated _ _);
    reflexivity.
Qed.

Lemma _is_cache_miss_version (self : CacheRegion) cv orig_key j w :
  getitem (metadata cv) "v" = Ok j ->
  j <> JInt value_version ->
  _is_cache_miss self (Cached cv) orig_key w = (Return true, w).
Proof.
  intros Hv Hne. unfold _is_cache_miss, bind, lift. rewrite Hv. simpl.
  assert (Json_eqb j (JInt value_version) = false) as ->; [|reflexivity].
  destruct j as [n|s]; simpl; [|reflexivity].
  apply Z.eqb_neq. intros ->. apply Hne. reflexivity.
Qed.

Lemma Json_eqb_eq (a b : Json) : Json_eqb a b = true <-> a = b.
Proof.
  destruct a, b; simpl; split; intros H; try discriminate.
  - apply Z.eqb_eq in H. congruence.
  - inversion H. apply Z.eqb_refl.
  - apply String.eqb_eq in H. congruence.
  - inversion H. apply String.eqb_refl.
Qed.

(** [value_fn] on an envelope that has a creation time. *)
Lemma value_fn_run (e : option Z) (now : Z) cv ct w :
  metadata_ct (metadata cv) = Ok ct ->
  value_fn e now (Cached cv) w =
  (Return
     (if match e with Some e' => Z.gtb (now - ct) e' | None => false end
      then NO_VALUE
      else if DefaultInvalidationStrategy.is_invalidated
                (region_invalidator w) ct
           then NO_VALUE else Cached cv), w).
Proof.
  intros Hct. unfold value_fn, bind, lift, get_world. rewrite Hct.
  destruct e as [e'|]; simpl.
  - destruct (Z.gtb (now - ct) e'); simpl; [reflexivity|].
    destruct (DefaultInvalidationStrategy.is_invalidated _ _); reflexivity.
  - destruct (DefaultInvalidationStrategy.is_invalidated _ _); reflexivity.
Qed.

Lemma _unexpired_value_fn_run (self : CacheRegion) e w :
  _unexpired_value_fn self e false w =
  (Return (value_fn (match e with
                     | None => self_expiration_time self
                     | Some e' => Some e'
                     end) (clock w (ticks w))),
   set_ticks (S (ticks w)) w).
Proof. reflexivity. Qed.

Lemma _get_cache_value_run (self : CacheRegion) key e cv ct w :
  stored_envelope self w (mangle self key) = Ok (Cached cv) ->
  metadata_ct (metadata cv) = Ok ct ->
  _get_cache_value self key e false w =
  (Return
       (if match (match e with
                  | None => self_expiration_time self
                  | Some e' => Some e'
                  end) with
           | Some e' => Z.gtb (clock w (ticks w) - ct) e'
           | None => false
           end
        then NO_VALUE
        else if DefaultInvalidationStrategy.is_invalidated
                  (region_invalidator w) ct
             then NO_VALUE else Cached cv),
   set_ticks (S (ticks w))
     (set_calls (read_call self (mangle self key) :: calls w) w)).
Proof.
  intros Hs Hct. unfold _get_cache_value.
  mstep _get_from_backend_run. rewrite Hs. cbn [outcome_of].
  mstep _unexpired_value_fn_run.
  rewrite (value_fn_run _ _ _ _ _ Hct). reflexivity.
Qed.

Lemma get_run (self : CacheRegion) key e cv ct w :
  stored_envelope self w (mangle self key) = Ok (Cached cv) ->
  metadata_ct (metadata cv) = Ok ct ->
  fst (get self key e false w) =
  Return
    (payload_of
       (if match (match e with
                  | None => self_expiration_time self
                  | Some e' => Some e'
                  end) with
           | Some e' => Z.gtb (clock w (ticks w) - ct) e'
           | None => false
           end
        then NO_VALUE
        else if DefaultInvalidationStrategy.is_invalidated
                  (region_invalidator w) ct
             then NO_VALUE else Cached cv)).
Proof.
  intros Hs Hct. unfold get.
  mstep (_get_cache_value_run _ _ e _ _ _ Hs Hct). reflexivity.
Qed.

(** *** The dogpile lock *)

Lemma read_value_Return {A} (get : M (A * Z)) w p ct w' :
  get w = (Return (p, ct), w') ->
  read_value get w = (Return (Some p, ct), w').
Proof. unfold read_value. intros ->. reflexivity. Qed.

Lemma read_value_NeedRegeneration {A} (get : M (A * Z)) w w' :
  get w = (Raise NeedRegenerationException, w') ->
  read_value get w = (Return (None, 0), w').
Proof. unfold read_value. intros ->. reflexivity. Qed.

Lemma read_value_Raise {A} (get : M (A * Z)) w e w' :
  get w = (Raise e, w') ->
  e <> NeedRegenerationException ->
  read_value get w = (Raise e, w').
Proof.
  unfold read_value. intros -> Hne. destruct e; congruence.
Qed.

Lemma is_fresh_run (e : option Z) ct w :
  is_fresh e ct w =
  (Return (Z.ltb 0 ct
           && match e with
              | None => true
              | Some e' => Z.ltb (clock w (ticks w) - ct) e'
              end),
   after_fresh e w).
Proof.
  destruct e as [e'|]; unfold is_fresh; simpl.
  - reflexivity.
  - unfold ret. rewrite andb_true_r. reflexivity.
Qed.

(** A reader that raises anything but "need regeneration": the lock
    lets the exception through. *)
Lemma Lock_reader_raises {A} mutex (gen get : M (A * Z)) e ac w exn w' :
  get w = (Raise exn, w') ->
  exn <> NeedRegenerationException ->
  Lock mutex gen get e ac w = (Raise exn, w').
Proof.
  intros Hget Hne. unfold Lock.
  mstep (read_value_Raise _ _ _ _ Hget Hne). reflexivity.
Qed.

(** A fresh value is returned as read. *)
Lemma Lock_fresh {A} mutex (gen get : M (A * Z)) e ac w p ct w' :
  get w = (Return (p, ct), w') ->
  0 < ct ->
  match e with
  | None => True
  | Some e' => clock w' (ticks w') - ct < e'
  end ->
  Lock mutex gen get e ac w = (Return p, after_fresh e w').
Proof.
  intros Hget Hct He. unfold Lock.
  mstep (read_value_Return _ _ _ _ _ Hget).
  mstep is_fresh_run.
  assert (Z.ltb 0 ct = true) as -> by (apply Z.ltb_lt; exact Hct).
  destruct e as [e'|]; simpl.
  - assert (Z.ltb (clock w' (ticks w') - ct) e' = true) as ->
      by (apply Z.ltb_lt; exact He).
    reflexivity.
  - reflexivity.
Qed.

Lemma acquire_nowait_free mutex w :
  mutex ∉ held w ->
  acquire_nowait mutex w = (Return true, holding mutex w).
Proof.
  intros H. unfold acquire_nowait. rewrite bool_decide_eq_false_2 by exact H.
  reflexivity.
Qed.

Lemma acquire_nowait_held mutex w :
  mutex ∈ held w ->
  acquire_nowait mutex w = (Return false, w).
Proof.
  intros H. unfold acquire_nowait. rewrite bool_decide_eq_true_2 by exact H.
  reflexivity.
Qed.

(** A miss with the mutex free: the value is generated under the mutex,
    which is released afterwards. *)
Lemma Lock_miss {A} mutex (gen get : M (A * Z)) e ac w w' :
  get w = (Raise NeedRegenerationException, w') ->
  mutex ∉ held w' ->
  Lock mutex gen get e ac w =
  (let* r := try_finally gen (release mutex) in ret (fst r))
    (holding mutex (after_fresh e w')).
Proof.
  intros Hget Hfree. unfold Lock.
  mstep (read_value_NeedRegeneration _ _ _ Hget).
  mstep is_fresh_run. cbn [Z.ltb Z.compare andb].
  rewrite (bind_Return _ _ _ true (holding mutex (after_fresh e w'))).
  2:{ apply acquire_nowait_free. destruct e; exact Hfree. }
  cbv beta iota.
  assert (forall w0,
    (let* '(p, _) := try_finally gen (release mutex) in ret p) w0 =
    (let* r := try_finally gen (release mutex) in ret (fst r)) w0) as E.
  { intros w0. unfold bind.
    destruct (try_finally gen (release mutex) w0) as [[[p c]| |] w1];
      reflexivity. }
  destruct ac; apply E.
Qed.

(** A miss with the mutex held by somebody else: the caller waits. *)
Lemma Lock_miss_held {A} mutex (gen get : M (A * Z)) e ac w w' :
  get w = (Raise NeedRegenerationException, w') ->
  mutex ∈ held w' ->
  fst (Lock mutex gen get e ac w) = Blocked.
Proof.
  intros Hget Hheld. unfold Lock.
  mstep (read_value_NeedRegeneration _ _ _ Hget).
  mstep is_fresh_run. cbn [Z.ltb Z.compare andb].
  rewrite (bind_Return _ _ _ false (after_fresh e w')).
  2:{ apply acquire_nowait_held. destruct e; exact Hheld. }
  reflexivity.
Qed.

(** *** The closures of get_or_create *)

Lemma get_value_miss (self : CacheRegion) key orig_key e w value :
  stored_envelope self w key = Ok value ->
  _is_cache_miss self value orig_key (logged self key w) =
    (Return true, logged self key w) ->
  get_value self key orig_key e w =
  (Raise NeedRegenerationException, logged self key w).
Proof.
  intros Hs Hmiss. unfold get_value.
  mstep _get_from_backend_run. rewrite Hs. cbn [outcome_of].
  fold (logged self key w). mstep Hmiss. reflexivity.
Qed.

Lemma get_value_error (self : CacheRegion) key orig_key e w exn :
  stored_envelope self w key = Err exn ->
  get_value self key orig_key e w = (Raise exn, logged self key w).
Proof.
  intros Hs. unfold get_value.
  mstep _get_from_backend_run. rewrite Hs. reflexivity.
Qed.

Lemma get_value_cached (self : CacheRegion) key orig_key e w cv ct :
  stored_envelope self w key = Ok (Cached cv) ->
  getitem (metadata cv) "v" = Ok (JInt value_version) ->
  metadata_ct (metadata cv) = Ok ct ->
  get_value self key orig_key e w =
  if DefaultInvalidationStrategy.is_hard_invalidated
       (region_invalidator w) ct
  then (Raise NeedRegenerationException, logged self key w)
  else if DefaultInvalidationStrategy.is_soft_invalidated
            (region_invalidator w) ct
  then match e with
       | None => (Raise soft_invalidation_error, logged self key w)
       | Some e' =>
           (Return (payload cv, clock w (ticks w) - e' - epsilon),
            set_ticks (S (ticks w)) (logged self key w))
       end
  else (Return (payload cv, ct), logged self key w).
Proof.
  intros Hs Hv Hct. unfold get_value.
  mstep _get_from_backend_run. rewrite Hs. cbn [outcome_of].
  fold (logged self key w).
  mstep (_is_cache_miss_run self cv orig_key _ _ (logged self key w) Hv Hct).
  cbn [Json_eqb]. rewrite Z.eqb_refl. cbn [negb orb].
  change (region_invalidator (logged self key w))
    with (region_invalidator w).
  destruct (DefaultInvalidationStrategy.is_hard_invalidated _ _);
    [reflexivity|].
  unfold bind, lift, get_world. rewrite Hct. unfold ret. cbv beta iota.
  change (region_invalidator (logged self key w))
    with (region_invalidator w).
  destruct (DefaultInvalidationStrategy.is_soft_invalidated _ _);
    [|reflexivity].
  destruct e; reflexivity.
Qed.

Lemma _log_time_call {A} (f : World -> Result A) w :
  _log_time (call f) w =
  match f (set_ticks (S (ticks w)) w) with
  | Ok x => (Return x, set_ticks (S (S (ticks w))) w)
  | Err e => (Raise e, set_ticks (S (ticks w)) w)
  end.
Proof.
  unfold _log_time, bind, time_time, call, lift.
  destruct (f (set_ticks (S (ticks w)) w)); reflexivity.
Qed.

Lemma _value_run x w :
  _value x None w =
  (Return (mkCachedValue x
             [("ct", JInt (clock w (ticks w))); ("v", JInt value_version)]),
   set_ticks (S (ticks w)) w).
Proof. reflexivity. Qed.

(** [gen_value] when the creator raises. *)
Lemma gen_value_creator_raises (self : CacheRegion) key orig_key creator
  creator_args e scf w exn :
  creator_call creator creator_args (set_ticks (S (ticks w)) w) = Err exn ->
  gen_value self key orig_key creator creator_args e scf w =
  (Raise exn, set_ticks (S (ticks w)) w).
Proof.
  intros Hc. unfold gen_value.
  replace (match creator_args with
           | Some args => call (creator args)
           | None => call (creator [])
           end) with (call (creator_call creator creator_args))
    by (destruct creator_args; reflexivity).
  unfold bind at 1. rewrite _log_time_call, Hc. reflexivity.
Qed.

(** [gen_value] when the creator returns [x]: the envelope is stamped
    with the clock reading that follows the two of [_log_time]; with no
    expiration time in a softly invalidated region the call raises before
    anything is written; otherwise the envelope is written unless
    [should_cache_fn] refuses the value. *)
Lemma gen_value_run (self : CacheRegion) key orig_key creator creator_args
  e scf w x :
  creator_call creator creator_args (set_ticks (S (ticks w)) w) = Ok x ->
  let w3 := set_ticks (S (S (S (ticks w)))) w in
  let cv := mkCachedValue x
              [("ct", JInt (clock w (S (S (ticks w)))));
               ("v", JInt value_version)] in
  gen_value self key orig_key creator creator_args e scf w =
  if match e with None => true | Some _ => false end
     && DefaultInvalidationStrategy.was_soft_invalidated
          (region_invalidator w)
  then (Raise soft_invalidation_error, w3)
  else
    if match scf with None => true | Some f => f x end
    then
      match _set_cached_value_to_backend self key cv w3 with
      | (Return _, w4) => (Return (x, clock w (S (S (ticks w)))), w4)
      | (Raise exn, w4) => (Raise exn, w4)
      | (Blocked, w4) => (Blocked, w4)
      end
    else (Return (x, clock w (S (S (ticks w)))), w3).
Proof.
  intros Hc w3 cv. unfold gen_value.
  replace (match creator_args with
           | Some args => call (creator args)
           | None => call (creator [])
           end) with (call (creator_call creator creator_args))
    by (destruct creator_args; reflexivity).
  unfold bind at 1. rewrite _log_time_call, Hc. cbv beta iota.
  mstep _value_run. unfold bind at 1, get_world at 1. cbv beta iota.
  change (region_invalidator (set_ticks _ (set_ticks _ w)))
    with (region_invalidator w).
  change (set_ticks (S (ticks (set_ticks (S (S (ticks w))) w)))
            (set_ticks (S (S (ticks w))) w)) with w3.
  change (clock (set_ticks (S (S (ticks w))) w)
            (ticks (set_ticks (S (S (ticks w))) w)))
    with (clock w (S (S (ticks w)))).
  fold cv.
  destruct (match e with None => true | Some _ => false end
            && DefaultInvalidationStrategy.was_soft_invalidated
                 (region_invalidator w)); [reflexivity|].
  destruct scf as [f|].
  - destruct (f x).
    + unfold bind at 1.
      destruct (_set_cached_value_to_backend self key cv w3)
        as [[[]|exn|] w4]; reflexivity.
    + reflexivity.
  - unfold bind at 1.
    destruct (_set_cached_value_to_backend self key cv w3)
      as [[[]|exn|] w4]; reflexivity.
Qed.

Lemma _set_cached_value_to_backend_run (self : CacheRegion) key cv w :
  _set_cached_value_to_backend self key cv w =
  (Return tt,
   set_store (<[key := backend_item self cv]> (store w))
     (set_calls (write_call self key cv :: calls w) w)).
Proof.
  unfold _set_cached_value_to_backend, backend_item, write_call,
    _serialized_cached_value, _serialize_cached_value_elements.
  destruct (serializer self) as [ser|]; reflexivity.
Qed.

Lemma _is_cache_miss_true (self : CacheRegion) value orig_key w :
  is_miss w value ->
  _is_cache_miss self value orig_key w = (Return true, w).
Proof.
  destruct value as [|cv]; [reflexivity|].
  intros (j & Hv & [Hne | (ct & Hct & Hhard)]).
  - apply (_is_cache_miss_version _ _ _ _ _ Hv Hne).
  - rewrite (_is_cache_miss_run _ _ _ _ _ _ Hv Hct), Hhard.
    rewrite orb_true_r. reflexivity.
Qed.

Lemma is_miss_frame w w' value :
  region_invalidator w' = region_invalidator w ->
  is_miss w value -> is_miss w' value.
Proof.
  intros E. destruct value as [|cv]; [trivial|]. simpl. rewrite E. trivial.
Qed.

Lemma release_holding mutex w :
  mutex ∉ held w ->
  held (holding mutex w) ∖ {[mutex]} = held w.
Proof.
  intros H. unfold holding. simpl. apply set_eq. intros x.
  rewrite elem_of_difference, elem_of_union, elem_of_singleton.
  split; [intros [[->|Hx] Hne]; [contradiction|exact Hx]|].
  intros Hx. split; [right; exact Hx|]. intros ->. contradiction.
Qed.

Lemma after_fresh_frame e w :
  clock (after_fresh e w) = clock w
  /\ store (after_fresh e w) = store w
  /\ calls (after_fresh e w) = calls w
  /\ held (after_fresh e w) = held w
  /\ region_invalidator (after_fresh e w) = region_invalidator w
  /\ mutexes (after_fresh e w) = mutexes w.
Proof. destruct e; repeat split; reflexivity. Qed.

(** [get_or_create] on a miss with the mutex free: the lock runs
    [gen_value] holding the mutex of the mangled key and releases it. *)
Lemma get_or_create_miss (self : CacheRegion) key creator e scf args w value :
  let mk := mangle self key in
  let e' := effective_expiration_time self e in
  stored_envelope self w mk = Ok value ->
  is_miss w value ->
  mk ∉ held w ->
  get_or_create self key creator e scf args w =
  (let* r := try_finally (gen_value self mk key creator args e' scf)
               (release mk) in
   ret (fst r))
    (holding mk (after_fresh e' (logged self mk w))).
Proof.
  intros mk e' Hs Hmiss Hfree. unfold get_or_create. fold mk. fold e'.
  apply Lock_miss with (w' := logged self mk w).
  - apply get_value_miss with (value := value); [exact Hs|].
    apply _is_cache_miss_true.
    apply is_miss_frame with (w := w); [reflexivity|exact Hmiss].
  - exact Hfree.
Qed.

(** The same, to the end, for a creator that returns [x]. *)
Lemma get_or_create_generates (self : CacheRegion) key creator e scf args
  w value x :
  let mk := mangle self key in
  let e' := effective_expiration_time self e in
  let wg := holding mk (after_fresh e' (logged self mk w)) in
  let t := ticks wg in
  let cv := mkCachedValue x
              [("ct", JInt (clock w (S (S t)))); ("v", JInt value_version)] in
  stored_envelope self w mk = Ok value ->
  is_miss w value ->
  mk ∉ held w ->
  creator_call creator args (set_ticks (S t) wg) = Ok x ->
  get_or_create self key creator e scf args w =
  if match e' with None => true | Some _ => false end
     && DefaultInvalidationStrategy.was_soft_invalidated
          (region_invalidator w)
  then (Raise soft_invalidation_error,
        set_held (held w) (set_ticks (S (S (S t))) wg))
  else if match scf with None => true | Some f => f x end
  then (Return x,
        set_held (held w)
          (set_store (<[mk := backend_item self cv]> (store w))
             (set_calls (write_call self mk cv :: calls wg)
                (set_ticks (S (S (S t))) wg))))
  else (Return x, set_held (held w) (set_ticks (S (S (S t))) wg)).
Proof.
  intros mk e' wg t cv Hs Hmiss Hfree Hc.
  rewrite (get_or_create_miss _ _ _ _ _ _ _ _ Hs Hmiss Hfree).
  fold mk e' wg. unfold bind, try_finally.
  rewrite (gen_value_run _ _ _ _ _ _ _ _ _ Hc). cbv zeta.
  destruct (after_fresh_frame e' (logged self mk w))
    as (Hclock & Hstore & Hcalls & Hheld & Hinv & Hmut).
  assert (region_invalidator wg = region_invalidator w) as ->
    by (unfold wg; simpl; rewrite Hinv; reflexivity).
  assert (clock wg = clock w) as Hcl
    by (unfold wg; simpl; rewrite Hclock; reflexivity).
  rewrite !Hcl. fold t. fold cv.
  assert (store wg = store w) as Hst
    by (unfold wg; simpl; rewrite Hstore; reflexivity).
  assert (held wg ∖ {[mk]} = held w) as Hrel.
  { unfold wg. rewrite release_holding by (rewrite Hheld; exact Hfree).
    rewrite Hheld. reflexivity. }
  destruct (match e' with None => true | Some _ => false end
            && DefaultInvalidationStrategy.was_soft_invalidated
                 (region_invalidator w)).
  { unfold release. cbn [held set_ticks]. rewrite Hrel. reflexivity. }
  destruct (match scf with None => true | Some f => f x end).
  - rewrite _set_cached_value_to_backend_run. unfold release, ret.
    cbn [held set_ticks set_store set_calls store calls clock ticks
         region_invalidator mutexes fst].
    rewrite Hrel, Hst. reflexivity.
  - unfold release, ret. cbn [held set_ticks fst]. rewrite Hrel. reflexivity.
Qed.

(** [get_or_create] on a miss with the mutex held: the caller waits. *)
Lemma get_or_create_miss_held (self : CacheRegion) key creator e scf args w
  value :
  stored_envelope self w (mangle self key) = Ok value ->
  is_miss w value ->
  mangle self key ∈ held w ->
  fst (get_or_create self key creator e scf args w) = Blocked.
Proof.
  intros Hs Hmiss Hheld. unfold get_or_create.
  apply Lock_miss_held with (w' := logged self (mangle self key) w).
  - apply get_value_miss with (value := value); [exact Hs|].
    apply _is_cache_miss_true.
    apply is_miss_frame with (w := w); [reflexivity|exact Hmiss].
  - exact Hheld.
Qed.

(** Whatever [gen_value] returns is what the creator returned to it. *)
Lemma gen_value_returns (self : CacheRegion) key orig_key creator
  creator_args e scf w x ct w' :
  gen_value self key orig_key creator creator_args e scf w
    = (Return (x, ct), w') ->
  creator_call creator creator_args (set_ticks (S (ticks w)) w) = Ok x.
Proof.
  intros H.
  destruct (creator_call creator creator_args (set_ticks (S (ticks w)) w))
    as [x0|exn] eqn:Hc.
  - rewrite (gen_value_run _ _ _ _ _ _ _ _ _ Hc) in H. cbv zeta in H.
    destruct (match e with None => true | Some _ => false end
              && DefaultInvalidationStrategy.was_soft_invalidated
                   (region_invalidator w)); [discriminate|].
    rewrite _set_cached_value_to_backend_run in H.
    destruct (match scf with None => true | Some f => f x0 end);
      congruence.
  - rewrite (gen_value_creator_raises _ _ _ _ _ _ _ _ _ Hc) in H.
    discriminate.
Qed.

(** On a miss, every value [get_or_create] returns is a result of the
    creator: never what the backend holds. *)
Lemma get_or_create_miss_returns (self : CacheRegion) key creator e scf args
  w value x :
  stored_envelope self w (mangle self key) = Ok value ->
  is_miss w value ->
  fst (get_or_create self key creator e scf args w) = Return x ->
  exists w', creator_call creator args w' = Ok x.
Proof.
  intros Hs Hmiss Hret.
  destruct (decide (mangle self key ∈ held w)) as [Hheld|Hfree].
  - rewrite (get_or_create_miss_held _ _ _ _ _ _ _ _ Hs Hmiss Hheld) in Hret.
    discriminate.
  - rewrite (get_or_create_miss _ _ _ _ _ _ _ _ Hs Hmiss Hfree) in Hret.
    unfold bind, try_finally in Hret.
    match type of Hret with
    | context [gen_value ?a ?b ?c ?d ?f ?g ?h ?wg] =>
        destruct (gen_value a b c d f g h wg) as [[[x0 ct]|exn|] w1] eqn:Hg
    end.
    + apply gen_value_returns in Hg. simpl in Hret.
      injection Hret as <-. eexists. exact Hg.
    + simpl in Hret. discriminate.
    + simpl in Hret. discriminate.
Qed.

Lemma value_fn_unexpired (e : option Z) (now : Z) value w :
  value_fn e now value w =
  (outcome_of (unexpired e now (region_invalidator w) value), w).
Proof.
  destruct value as [|cv]; [reflexivity|].
  unfold unexpired. destruct (metadata_ct (metadata cv)) as [ct|exn] eqn:Hct.
  - rewrite (value_fn_run _ _ _ _ _ Hct).
    destruct (match e with Some e' => Z.gtb (now - ct) e' | None => false end);
      [reflexivity|].
    destruct (DefaultInvalidationStrategy.is_invalidated _ _); reflexivity.
  - unfold value_fn, bind, lift. rewrite Hct.
    destruct e; reflexivity.
Qed.

Lemma mapM_lift {A B} (f : A -> Result B) (l : list A) w :
  mapM (fun x => lift (f x)) l w =
  (outcome_of (sequence_results (map f l)), w).
Proof.
  induction l as [|x l IH]; [reflexivity|].
  cbn [mapM map sequence_results]. unfold bind at 1.
  destruct (f x) as [y|exn]; [|reflexivity].
  cbn [lift]. unfold ret at 1. cbv beta iota.
  unfold bind at 1. rewrite IH.
  destruct (sequence_results (map f l)); reflexivity.
Qed.

Lemma sequence_results_Forall2 {A B} (f : A -> Result B) l ys :
  Forall2 (fun x y => f x = Ok y) l ys ->
  sequence_results (map f l) = Ok ys.
Proof.
  induction 1 as [|x y l ys Hxy _ IH]; [reflexivity|].
  cbn [map sequence_results]. rewrite Hxy, IH. reflexivity.
Qed.

Lemma _get_multi_from_backend_run (self : CacheRegion) keys values w :
  Forall2 (fun k value => stored_envelope self w k = Ok value) keys values ->
  _get_multi_from_backend self keys w =
  (Return values, set_calls (multi_read_call self keys :: calls w) w).
Proof.
  intros H. unfold _get_multi_from_backend, multi_read_call.
  destruct (deserializer self) as [d|] eqn:D.
  - assert (exists raws,
      Forall2 (fun k raw => lookup_serialized w k = Ok raw) keys raws
      /\ Forall2 (fun raw value =>
                    _parse_serialized_from_backend self raw = Ok value)
           raws values) as (raws & Hraws & Hparse).
    { induction H as [|k value keys values Hk _ IH].
      - exists []. split; constructor.
      - destruct IH as (raws & H1 & H2).
        unfold stored_envelope in Hk. rewrite D in Hk.
        destruct (lookup_serialized w k) as [raw|exn] eqn:Hl;
          [|discriminate].
        exists (raw :: raws). split; constructor; assumption. }
    unfold backend_get_serialized_multi.
    unfold bind at 1. unfold bind at 1. unfold record_call at 1.
    cbv beta iota. unfold bind at 1, get_world at 1. cbv beta iota.
    rewrite mapM_lift.
    rewrite (sequence_results_Forall2
               (lookup_serialized
                  (set_calls (call_get_serialized_multi keys :: calls w) w))
               keys raws) by exact Hraws.
    cbn [outcome_of]. rewrite mapM_lift.
    rewrite (sequence_results_Forall2 _ _ _ Hparse). reflexivity.
  - unfold backend_get_multi.
    unfold bind at 1, record_call at 1. cbv beta iota.
    unfold bind at 1, get_world at 1. cbv beta iota.
    rewrite mapM_lift.
    rewrite (sequence_results_Forall2
               (lookup_object
                  (set_calls (call_get_multi keys :: calls w) w))
               keys values); [reflexivity|].
    unfold stored_envelope in H. rewrite D in H. exact H.
Qed.

Lemma mapM_value_fn (e : option Z) (now : Z) values w :
  mapM (fun value => let* value := value_fn e now value in
                     ret (payload_of value)) values w =
  (outcome_of
     (sequence_results
        (map (fun value =>
                Result_map payload_of
                  (unexpired e now (region_invalidator w) value)) values)),
   w).
Proof.
  induction values as [|value values IH]; [reflexivity|].
  cbn [mapM map sequence_results]. unfold bind at 1. unfold bind at 1.
  rewrite value_fn_unexpired.
  destruct (unexpired e now (region_invalidator w) value) as [y|exn];
    [|reflexivity].
  cbn [outcome_of Result_map]. unfold ret at 1. cbv beta iota.
  unfold bind at 1. rewrite IH.
  destruct (sequence_results _); reflexivity.
Qed.

(** [get_multi] on keys whose envelopes can be read. *)
Lemma get_multi_run (self : CacheRegion) k keys e values w :
  Forall2 (fun k value => stored_envelope self w (mangle self k) = Ok value)
    (k :: keys) values ->
  fst (get_multi self (k :: keys) e false w) =
  outcome_of
    (sequence_results
       (map (fun value =>
               Result_map payload_of
                 (unexpired
                    (match e with
                     | None => self_expiration_time self
                     | Some e' => Some e'
                     end)
                    (clock w (ticks w)) (region_invalidator w) value))
          values)).
Proof.
  intros H. unfold get_multi.
  unfold bind at 1.
  rewrite (_get_multi_from_backend_run self
             (map (mangle self) (k :: keys)) values w).
  2:{ apply Forall2_fmap_l. exact H. }
  cbv beta iota. mstep _unexpired_value_fn_run.
  rewrite mapM_value_fn. reflexivity.
Qed.

(** *** C9: the sentinel [-1] *)

(** C9.  [-1] means "no expiration" only to [get_or_create] and
    [get_or_create_multi], which map it to no expiration time before
    anything else (an envelope of the current version that is not
    invalidated is then returned whatever its age).  [get] compares the
    age with [-1] as it stands: for every stored envelope whose age is
    above -1 second, [get(key, expiration_time=-1)] returns [NO_VALUE]. *)
Theorem C9_get_compares_age_with_minus_one
  (self : CacheRegion) (w : World) (key : string) (cv : CachedValue)
  (ct : Z) :
  stored_envelope self w (mangle self key) = Ok (Cached cv) ->
  metadata_ct (metadata cv) = Ok ct ->
  clock w (ticks w) - ct > - second ->
  fst (get self key (Some (- second)) false w) = Return None
  /\ fst (get_multi self [key] (Some (- second)) false w) = Return [None]
  /\ effective_expiration_time self (Some (- second)) = None
  /\ (getitem (metadata cv) "v" = Ok (JInt value_version) ->
      0 < ct ->
      DefaultInvalidationStrategy.is_invalidated (region_invalidator w) ct
        = false ->
      forall creator scf args,
        fst (get_or_create self key creator (Some (- second)) scf args w)
        = Return (payload cv)).
Proof.
  intros Hs Hct Hage. split; [|split; [|split]].
  - rewrite (get_run _ _ _ _ _ _ Hs Hct).
    assert (Z.gtb (clock w (ticks w) - ct) (- second) = true) as ->
      by (apply Z.gtb_lt; lia).
    reflexivity.
  - rewrite (get_multi_run self key [] _ [Cached cv] w)
      by (repeat constructor; exact Hs).
    cbn [map sequence_results unexpired]. rewrite Hct.
    assert (Z.gtb (clock w (ticks w) - ct) (- second) = true) as ->
      by (apply Z.gtb_lt; lia).
    reflexivity.
  - unfold effective_expiration_time. rewrite Z.eqb_refl. reflexivity.
  - intros Hv Hpos Hinv creator scf args. unfold get_or_create.
    assert (effective_expiration_time self (Some (- second)) = None) as ->
      by (unfold effective_expiration_time; rewrite Z.eqb_refl; reflexivity).
    erewrite Lock_fresh; [reflexivity| |exact Hpos|exact I].
    rewrite (get_value_cached _ _ _ _ _ _ _ Hs Hv Hct).
    unfold DefaultInvalidationStrategy.is_hard_invalidated,
      DefaultInvalidationStrategy.is_soft_invalidated.
    rewrite Hinv, !andb_false_r. reflexivity.
Qed.

Lemma C9_witness :
  fst (get plain_region "k" (Some (- second)) false
         (world_with "k" (Obj current_envelope))) = Return None
  /\ fst (get_multi plain_region ["k"] (Some (- second)) false
            (world_with "k" (Obj current_envelope))) = Return [None]
  /\ effective_expiration_time plain_region (Some (- second)) = None
  /\ fst (get_or_create plain_region "k" creator_42 (Some (- second))
            None None (world_with "k" (Obj current_envelope)))
     = Return (PyInt 7).
Proof.
  destruct (C9_get_compares_age_with_minus_one plain_region
              (world_with "k" (Obj current_envelope)) "k" current_envelope
              (1699999990 * second))
    as (H1 & H2 & H3 & H4).
  - reflexivity.
  - reflexivity.
  - vm_compute. reflexivity.
  - split; [exact H1|]. split; [exact H2|]. split; [exact H3|].
    apply H4; reflexivity.
Defined.

(** *** C1: envelopes of another schema version *)

Lemma get_ignore_expiration (self : CacheRegion) key e value w :
  stored_envelope self w (mangle self key) = Ok value ->
  fst (get self key e true w) = Return (payload_of value).
Proof.
  intros Hs. unfold get, _get_cache_value.
  unfold bind at 1. unfold bind at 1.
  rewrite _get_from_backend_run, Hs. reflexivity.
Qed.

Lemma multi_get_value_miss (self : CacheRegion) values orig_key key e w value :
  dict_get key values = Some value ->
  is_miss w value ->
  multi_get_value self values orig_key key e w =
  (Return (payload_of value, 0), w).
Proof.
  intros Hget Hmiss. unfold multi_get_value. rewrite Hget.
  cbn [from_option id].
  mstep (_is_cache_miss_true self value orig_key w Hmiss). reflexivity.
Qed.

(** The claim C1 fails for [get] and [get_multi]: an envelope of schema
    version 1 is stored under "k", and both return its payload. *)
Lemma C1_counterexample :
  let w := world_with "k" (Obj old_version_envelope) in
  stored_envelope plain_region w "k" = Ok (Cached old_version_envelope)
  /\ getitem (metadata old_version_envelope) "v" = Ok (JInt 1)
  /\ JInt 1 <> JInt value_version
  /\ fst (get plain_region "k" None false w) = Return (Some (PyInt 7))
  /\ fst (get_multi plain_region ["k"] None false w)
     = Return [Some (PyInt 7)]
  /\ fst (get plain_region "k" None false w) <> Return None.
Proof.
  cbv zeta. split; [reflexivity|]. split; [reflexivity|].
  split; [discriminate|]. split; [reflexivity|]. split; [reflexivity|].
  vm_compute. discriminate.
Qed.

(** C1, amended.  For every stored envelope whose metadata field ["v"]
    differs from [value_version], [get_or_create] treats the read as a
    miss and does not return the stored payload: [_is_cache_miss] answers
    true, the reader signals that regeneration is needed, and every value
    the call returns is a result of the creator.  [get] and [get_multi]
    do not look at ["v"]: they return the payload of such an envelope
    whenever it is neither expired nor invalidated, and always with
    [ignore_expiration]. *)
Theorem C1_version_mismatch_is_a_miss_for_get_or_create
  (self : CacheRegion) (w : World) (key : string) (cv : CachedValue)
  (j : Json) :
  stored_envelope self w (mangle self key) = Ok (Cached cv) ->
  getitem (metadata cv) "v" = Ok j ->
  j <> JInt value_version ->
  (forall orig_key w',
     _is_cache_miss self (Cached cv) orig_key w' = (Return true, w'))
  /\ (forall e,
        fst (get_value self (mangle self key) key e w)
        = Raise NeedRegenerationException)
  /\ (forall creator e scf args x,
        fst (get_or_create self key creator e scf args w) = Return x ->
        exists w', creator_call creator args w' = Ok x)
  /\ (forall e,
        fst (get self key e true w) = Return (Some (payload cv)))
  /\ (forall e ct,
        metadata_ct (metadata cv) = Ok ct ->
        match (match e with
               | None => self_expiration_time self
               | Some e' => Some e'
               end) with
        | Some e' => clock w (ticks w) - ct <= e'
        | None => True
        end ->
        DefaultInvalidationStrategy.is_invalidated (region_invalidator w) ct
          = false ->
        fst (get self key e false w) = Return (Some (payload cv))
        /\ fst (get_multi self [key] e false w)
           = Return [Some (payload cv)]).
Proof.
  intros Hs Hv Hne.
  assert (forall w', is_miss w' (Cached cv)) as Hmiss
    by (intros w'; exists j; split; [exact Hv|left; exact Hne]).
  split; [|split; [|split; [|split]]].
  - intros orig_key w'. apply _is_cache_miss_true, Hmiss.
  - intros e.
    rewrite (get_value_miss self _ key e w (Cached cv) Hs); [reflexivity|].
    apply _is_cache_miss_true, Hmiss.
  - intros creator e scf args x Hret.
    exact (get_or_create_miss_returns self key creator e scf args w
             (Cached cv) x Hs (Hmiss w) Hret).
  - intros e. apply (get_ignore_expiration _ _ _ _ _ Hs).
  - intros e ct Hct Hage Hinv.
    assert (match (match e with
                   | None => self_expiration_time self
                   | Some e' => Some e'
                   end) with
            | Some e' => Z.gtb (clock w (ticks w) - ct) e'
            | None => false
            end = false) as Hexp.
    { destruct (match e with
                | None => self_expiration_time self
                | Some e' => Some e'
                end) as [e'|]; [|reflexivity].
      rewrite Z.gtb_ltb. apply Z.ltb_ge. exact Hage. }
    split.
    + rewrite (get_run _ _ _ _ _ _ Hs Hct), Hexp, Hinv. reflexivity.
    + rewrite (get_multi_run self key [] _ [Cached cv] w)
        by (repeat constructor; exact Hs).
      cbn [map sequence_results unexpired]. rewrite Hct, Hexp, Hinv.
      reflexivity.
Qed.

Lemma C1_witness :
  let w := world_with "k" (Obj old_version_envelope) in
  fst (get_value plain_region "k" "k" None w)
    = Raise NeedRegenerationException
  /\ fst (get_or_create plain_region "k" creator_42 None None None w)
     = Return (PyInt 42)
  /\ (exists w', creator_call creator_42 None w' = Ok (PyInt 42))
  /\ fst (get plain_region "k" None false w) = Return (Some (PyInt 7)).
Proof.
  cbv zeta.
  destruct (C1_version_mismatch_is_a_miss_for_get_or_create plain_region
              (world_with "k" (Obj old_version_envelope)) "k"
              old_version_envelope (JInt 1))
    as (_ & H2 & H3 & _ & H5).
  - reflexivity.
  - reflexivity.
  - discriminate.
  - split; [exact (H2 None)|]. split; [vm_compute; reflexivity|]. split.
    + apply (H3 creator_42 None None None (PyInt 42)).
      vm_compute. reflexivity.
    + apply (H5 None (1699999990 * second)); [reflexivity|exact I|].
      reflexivity.
Defined.

(** *** C3: soft invalidation needs an expiration time *)

Lemma soft_excludes_hard (s : DefaultInvalidationStrategy.t) :
  DefaultInvalidationStrategy.was_soft_invalidated s = true ->
  DefaultInvalidationStrategy.was_hard_invalidated s = false.
Proof.
  destruct s as [[[|]|] barrier];
    unfold DefaultInvalidationStrategy.was_soft_invalidated,
      DefaultInvalidationStrategy.was_hard_invalidated;
    simpl; intros H; congruence.
Qed.

Lemma read_call_not_write (self : CacheRegion) key :
  is_write (read_call self key) = false.
Proof. unfold read_call. destruct (deserializer self); reflexivity. Qed.

Lemma writes_logged (self : CacheRegion) key w :
  writes (logged self key w) = writes w.
Proof.
  unfold writes, logged. cbn [calls set_calls List.filter].
  rewrite read_call_not_write. reflexivity.
Qed.

(** C3.  In a softly invalidated region, with no expiration time in
    force (the argument, else the region's, [-1] counted as none),
    [get_or_create] raises to its caller and neither returns nor caches a
    value: when the envelope it reads is softly invalidated, and when it
    generates a value. *)
Theorem C3_soft_invalidation_without_expiration_raises
  (self : CacheRegion) (w : World) (key : string) (creator : Creator)
  (e : option Z) (scf : option (ValuePayload -> bool))
  (args : option (list ValuePayload)) :
  effective_expiration_time self e = None ->
  DefaultInvalidationStrategy.was_soft_invalidated (region_invalidator w)
    = true ->
  (forall cv ct,
     stored_envelope self w (mangle self key) = Ok (Cached cv) ->
     getitem (metadata cv) "v" = Ok (JInt value_version) ->
     metadata_ct (metadata cv) = Ok ct ->
     DefaultInvalidationStrategy.is_soft_invalidated (region_invalidator w) ct
       = true ->
     let r := get_or_create self key creator e scf args w in
     fst r = Raise soft_invalidation_error
     /\ store (snd r) = store w /\ writes (snd r) = writes w
     /\ held (snd r) = held w)
  /\ (forall value x,
        stored_envelope self w (mangle self key) = Ok value ->
        is_miss w value ->
        mangle self key ∉ held w ->
        (forall w', creator_call creator args w' = Ok x) ->
        let r := get_or_create self key creator e scf args w in
        fst r = Raise soft_invalidation_error
        /\ store (snd r) = store w /\ writes (snd r) = writes w
        /\ held (snd r) = held w).
Proof.
  intros He Hsoft. split.
  - intros cv ct Hs Hv Hct Hinv r.
    assert (r = (Raise soft_invalidation_error,
                 logged self (mangle self key) w)) as ->.
    { unfold r, get_or_create. rewrite He.
      apply Lock_reader_raises; [|discriminate].
      rewrite (get_value_cached _ _ _ _ _ _ _ Hs Hv Hct).
      unfold DefaultInvalidationStrategy.is_hard_invalidated.
      rewrite (soft_excludes_hard _ Hsoft). cbn [andb].
      rewrite Hinv. reflexivity. }
    cbn [fst snd]. rewrite writes_logged. repeat split; reflexivity.
  - intros value x Hs Hmiss Hfree Hc r.
    assert (r = (Raise soft_invalidation_error,
                 set_held (held w)
                   (set_ticks
                      (S (S (S (ticks (holding (mangle self key)
                                         (logged self (mangle self key) w))))))
                      (holding (mangle self key)
                         (logged self (mangle self key) w))))) as ->.
    { unfold r.
      rewrite (get_or_create_generates self key creator e scf args w
                 value x Hs Hmiss Hfree (Hc _)).
      rewrite He, Hsoft. reflexivity. }
    cbn [fst snd]. split; [reflexivity|]. split; [reflexivity|].
    split; [apply (writes_logged self (mangle self key) w)|reflexivity].
Qed.

Lemma C3_witness :
  fst (get_or_create plain_region "k" creator_42 None None None soft_world)
    = Raise soft_invalidation_error
  /\ store (snd (get_or_create plain_region "k" creator_42 None None None
                   soft_world)) = store soft_world
  /\ fst (get_or_create plain_region "absent" creator_42 (Some (- second))
            None None soft_world)
     = Raise soft_invalidation_error
  /\ store (snd (get_or_create plain_region "absent" creator_42
                   (Some (- second)) None None soft_world))
     = store soft_world.
Proof.
  destruct (C3_soft_invalidation_without_expiration_raises plain_region
              soft_world "k" creator_42 None None None)
    as [Hread _]; [reflexivity|reflexivity|].
  destruct (C3_soft_invalidation_without_expiration_raises plain_region
              soft_world "absent" creator_42 (Some (- second)) None None)
    as [_ Hgen]; [reflexivity|reflexivity|].
  destruct (Hread current_envelope (1699999990 * second))
    as (H1 & H2 & _); [reflexivity|reflexivity|reflexivity|reflexivity|].
  destruct (Hgen NO_VALUE (PyInt 42)) as (H3 & H4 & _);
    [reflexivity|exact I| |reflexivity|].
  { vm_compute. set_solver. }
  split; [exact H1|]. split; [exact H2|]. split; [exact H3|exact H4].
Defined.

(** *** C4: what the deserializer raises *)

Lemma stored_envelope_raw (self : CacheRegion) des w key b :
  deserializer self = Some des ->
  store w !! key = Some (Raw b) ->
  stored_envelope self w key = _parse_serialized_from_backend self (Some b).
Proof.
  intros D Hb. unfold stored_envelope, lookup_serialized.
  rewrite D, Hb. reflexivity.
Qed.

Lemma _parse_serialized_run (self : CacheRegion) des b md :
  deserializer self = Some des ->
  Json_codec.json_loads (fst (partition_pipe b)) = Ok md ->
  _parse_serialized_from_backend self (Some b) =
  match des (snd (partition_pipe b)) with
  | Ok p => Ok (Cached (mkCachedValue p md))
  | Err CantDeserializeException => Ok NO_VALUE
  | Err exn => Err exn
  end.
Proof.
  intros D Hmd. unfold _parse_serialized_from_backend. rewrite D.
  destruct (partition_pipe b) as [bm bp]. cbn [fst snd] in *.
  rewrite Hmd. reflexivity.
Qed.

Lemma get_raises (self : CacheRegion) key e ign w exn :
  stored_envelope self w (mangle self key) = Err exn ->
  fst (get self key e ign w) = Raise exn.
Proof.
  intros Hs. unfold get, _get_cache_value.
  unfold bind at 1. unfold bind at 1.
  rewrite _get_from_backend_run, Hs. reflexivity.
Qed.

(** C4.  With a deserializer configured, a read whose metadata decodes
    and whose deserializer call raises [CantDeserializeException] yields
    [NO_VALUE]: [get_or_create] goes on to regenerate and returns the
    creator's value, no exception reaching its caller.  Any other
    exception of the deserializer comes out of the read
    ([_parse_serialized_from_backend], hence [get]) and, unless it is the
    lock's own [NeedRegenerationException], out of [get_or_create]. *)
Theorem C4_cannot_deserialize_is_a_miss
  (self : CacheRegion) (des : bytes -> Result ValuePayload) (b : bytes)
  (md : MetaDataType) :
  deserializer self = Some des ->
  Json_codec.json_loads (fst (partition_pipe b)) = Ok md ->
  (des (snd (partition_pipe b)) = Err CantDeserializeException ->
   _parse_serialized_from_backend self (Some b) = Ok NO_VALUE
   /\ forall w key creator e scf args x,
        store w !! mangle self key = Some (Raw b) ->
        mangle self key ∉ held w ->
        (forall w', creator_call creator args w' = Ok x) ->
        effective_expiration_time self e <> None
        \/ DefaultInvalidationStrategy.was_soft_invalidated
             (region_invalidator w) = false ->
        fst (get self key e false w) = Return None
        /\ fst (get_or_create self key creator e scf args w) = Return x)
  /\ (forall exn,
        des (snd (partition_pipe b)) = Err exn ->
        exn <> CantDeserializeException ->
        _parse_serialized_from_backend self (Some b) = Err exn
        /\ forall w key e,
             store w !! mangle self key = Some (Raw b) ->
             (forall ign, fst (get self key e ign w) = Raise exn)
             /\ (exn <> NeedRegenerationException ->
                 forall creator scf args,
                   fst (get_or_create self key creator e scf args w)
                   = Raise exn)).
Proof.
  intros D Hmd. split.
  - intros Hdes.
    assert (_parse_serialized_from_backend self (Some b) = Ok NO_VALUE)
      as Hparse
      by (rewrite (_parse_serialized_run _ _ _ _ D Hmd), Hdes; reflexivity).
    split; [exact Hparse|].
    intros w key creator e scf args x Hb Hfree Hc Hsoft.
    assert (stored_envelope self w (mangle self key) = Ok NO_VALUE) as Hs
      by (rewrite (stored_envelope_raw _ _ _ _ _ D Hb); exact Hparse).
    split.
    + unfold get, _get_cache_value.
      unfold bind at 1. unfold bind at 1.
      rewrite _get_from_backend_run, Hs. cbn [outcome_of].
      unfold bind at 1. rewrite _unexpired_value_fn_run. reflexivity.
    + rewrite (get_or_create_generates self key creator e scf args w
                 NO_VALUE x Hs I Hfree (Hc _)).
      assert (match effective_expiration_time self e with
              | None => true | Some _ => false end
              && DefaultInvalidationStrategy.was_soft_invalidated
                   (region_invalidator w) = false) as ->.
      { destruct Hsoft as [He | Hw].
        - destruct (effective_expiration_time self e);
            [reflexivity|congruence].
        - rewrite Hw. apply andb_false_r. }
      destruct (match scf with None => true | Some f => f x end);
        reflexivity.
  - intros exn Hdes Hne.
    assert (_parse_serialized_from_backend self (Some b) = Err exn)
      as Hparse.
    { rewrite (_parse_serialized_run _ _ _ _ D Hmd), Hdes.
      destruct exn; congruence. }
    split; [exact Hparse|].
    intros w key e Hb.
    assert (stored_envelope self w (mangle self key) = Err exn) as Hs
      by (rewrite (stored_envelope_raw _ _ _ _ _ D Hb); exact Hparse).
    split.
    + intros ign. apply get_raises. exact Hs.
    + intros Hregen creator scf args. unfold get_or_create.
      erewrite Lock_reader_raises; [reflexivity| |exact Hregen].
      apply get_value_error. exact Hs.
Qed.

Lemma C4_witness :
  _parse_serialized_from_backend serializing_region (Some undecodable_bytes)
    = Ok NO_VALUE
  /\ fst (get_or_create serializing_region "k" creator_42 None None None
            (world_with "region:k" (Raw undecodable_bytes)))
     = Return (PyInt 42)
  /\ _parse_serialized_from_backend serializing_region (Some failing_bytes)
     = Err (UserError 1)
  /\ fst (get_or_create serializing_region "k" creator_42 None None None
            (world_with "region:k" (Raw failing_bytes)))
     = Raise (UserError 1).
Proof.
  destruct (C4_cannot_deserialize_is_a_miss serializing_region
              example_deserializer undecodable_bytes
              [("ct", JInt (1699999990 * second)); ("v", JInt value_version)])
    as [Hcant _]; [reflexivity|reflexivity|].
  destruct (C4_cannot_deserialize_is_a_miss serializing_region
              example_deserializer failing_bytes
              [("ct", JInt (1699999990 * second)); ("v", JInt value_version)])
    as [_ Hother]; [reflexivity|reflexivity|].
  destruct Hcant as [H1 H2]; [reflexivity|].
  destruct (H2 (world_with "region:k" (Raw undecodable_bytes)) "k"
              creator_42 None None None (PyInt 42)) as [_ H3].
  { reflexivity. }
  { vm_compute. set_solver. }
  { reflexivity. }
  { left. discriminate. }
  destruct (Hother (UserError 1)) as [H4 H5]; [reflexivity|discriminate|].
  destruct (H5 (world_with "region:k" (Raw failing_bytes)) "k" None)
    as [_ H6]; [reflexivity|].
  split; [exact H1|]. split; [exact H3|]. split; [exact H4|].
  apply H6. discriminate.
Defined.

(** *** C7: the multi operations on nothing *)

(** The claim C7 fails for [delete_multi]: on an empty key sequence it
    still calls the backend, with the empty list. *)
Lemma C7_counterexample :
  calls (snd (delete_multi plain_region [] empty_world))
    = [call_delete_multi []]
  /\ calls (snd (delete_multi plain_region [] empty_world))
     <> calls empty_world.
Proof. split; [reflexivity|discriminate]. Qed.

(** C7, amended.  [get_multi] on an empty key sequence returns the empty
    list and [set_multi] on an empty mapping returns, both without any
    backend call or other effect.  [delete_multi] on an empty key
    sequence calls [backend.delete_multi] once with the empty list: what
    the backend stores is unchanged. *)
Theorem C7_empty_multi_operations
  (self : CacheRegion) (w : World) (e : option Z) (ign : bool) :
  get_multi self [] e ign w = (Return [], w)
  /\ set_multi self [] w = (Return tt, w)
  /\ delete_multi self [] w
     = (Return tt, set_calls (call_delete_multi [] :: calls w) w)
  /\ store (snd (delete_multi self [] w)) = store w.
Proof. repeat split. Qed.

(** *** C8: key_is_locked and the key mangler *)

Lemma held_generation_world (self : CacheRegion) mk e w n :
  held (set_ticks n (holding mk (after_fresh e (logged self mk w))))
  = {[mk]} ∪ held w.
Proof. destruct e; reflexivity. Qed.

(** C8.  [key_is_locked(key)] answers for the mutex registered under the
    key as given, without the key mangler, while [get_or_create(key, ...)]
    holds the mutex registered under the mangled key.  When the mangler
    changes the key, a creator running inside [get_or_create] sees the
    mutex of the mangled key locked, and gets from [key_is_locked(key)]
    the state the mutex of the raw key had before the call: false when
    nobody holds that one. *)
Theorem C8_key_is_locked_ignores_the_mangler
  (self : CacheRegion) (w : World) (key : string) (e : option Z)
  (scf : option (ValuePayload -> bool)) (args : option (list ValuePayload))
  (value : CacheReturnType) :
  mangle self key <> key ->
  stored_envelope self w (mangle self key) = Ok value ->
  is_miss w value ->
  mangle self key ∉ held w ->
  effective_expiration_time self e <> None
  \/ DefaultInvalidationStrategy.was_soft_invalidated (region_invalidator w)
     = false ->
  key_is_locked self key w = (Return (bool_decide (key ∈ held w)), w)
  /\ fst (get_or_create self key (probe_mutex (mangle self key)) e scf args w)
     = Return (PyBool true)
  /\ fst (get_or_create self key (probe_key_is_locked self key) e scf args w)
     = Return (PyBool (bool_decide (key ∈ held w)))
  /\ (key ∉ held w ->
      fst (get_or_create self key (probe_key_is_locked self key) e scf
             args w)
      = Return (PyBool false)).
Proof.
  intros Hne Hs Hmiss Hfree Hsoft.
  assert (match effective_expiration_time self e with
          | None => true | Some _ => false end
          && DefaultInvalidationStrategy.was_soft_invalidated
               (region_invalidator w) = false) as Hok.
  { destruct Hsoft as [He | Hw].
    - destruct (effective_expiration_time self e); [reflexivity|congruence].
    - rewrite Hw. apply andb_false_r. }
  assert (forall creator b,
            creator_call creator args
              (set_ticks
                 (S (ticks (holding (mangle self key)
                              (after_fresh (effective_expiration_time self e)
                                 (logged self (mangle self key) w)))))
                 (holding (mangle self key)
                    (after_fresh (effective_expiration_time self e)
                       (logged self (mangle self key) w))))
            = Ok (PyBool b) ->
            fst (get_or_create self key creator e scf args w)
            = Return (PyBool b)) as Hgen.
  { intros creator b Hc.
    rewrite (get_or_create_generates self key creator e scf args w
               value (PyBool b) Hs Hmiss Hfree Hc), Hok.
    destruct (match scf with None => true | Some f => f (PyBool b) end);
      reflexivity. }
  assert (fst (get_or_create self key (probe_key_is_locked self key) e scf
                 args w)
          = Return (PyBool (bool_decide (key ∈ held w)))) as Hprobe.
  { apply Hgen.
    unfold creator_call, probe_key_is_locked, key_is_locked, locked.
    destruct args; cbn [fst]; rewrite held_generation_world;
      f_equal; f_equal; apply bool_decide_ext;
      rewrite elem_of_union, elem_of_singleton; split;
      try (intros [Heq|Hin]; [congruence|exact Hin]); intros Hin;
      right; exact Hin. }
  split; [reflexivity|]. split; [|split; [exact Hprobe|]].
  - apply Hgen. unfold creator_call, probe_mutex, locked.
    destruct args; cbn [fst]; rewrite held_generation_world;
      f_equal; f_equal; apply bool_decide_eq_true_2;
      apply elem_of_union_l, elem_of_singleton; reflexivity.
  - intros Hraw. rewrite Hprobe.
    rewrite bool_decide_eq_false_2 by exact Hraw. reflexivity.
Qed.

Lemma C8_witness :
  fst (get_or_create mangling_region "k" (probe_mutex "region:k") None None
         None empty_world) = Return (PyBool true)
  /\ fst (get_or_create mangling_region "k"
            (probe_key_is_locked mangling_region "k") None None None
            empty_world) = Return (PyBool false).
Proof.
  destruct (C8_key_is_locked_ignores_the_mangler mangling_region empty_world
              "k" None None None NO_VALUE) as (_ & H1 & _ & H2).
  - discriminate.
  - reflexivity.
  - exact I.
  - vm_compute. set_solver.
  - right. reflexivity.
  - split; [exact H1|]. apply H2. vm_compute. set_solver.
Defined.

(** *** Steps that leave the backend alone *)

Section Keeps.
Variable R : World -> World -> Prop.
Hypothesis R_refl : forall w, R w w.
Hypothesis R_trans : forall w1 w2 w3, R w1 w2 -> R w2 w3 -> R w1 w3.
Hypothesis R_ticks : forall n w, R w (set_ticks n w).
Hypothesis R_held : forall h w, R w (set_held h w).
Hypothesis R_read :
  forall c w, is_write c = false -> R w (set_calls (c :: calls w) w).

Lemma keeps_ret {A} (a : A) : keeps R (ret a).
Proof using R_refl. intros w. apply R_refl. Qed.

Lemma keeps_raise {A} exn : keeps R (@raise A exn).
Proof using R_refl. intros w. apply R_refl. Qed.

Lemma keeps_block {A} : keeps R (@block A).
Proof using R_refl. intros w. apply R_refl. Qed.

Lemma keeps_lift {A} (r : Result A) : keeps R (lift r).
Proof using R_refl. destruct r; intros w; apply R_refl. Qed.

Lemma keeps_get_world : keeps R get_world.
Proof using R_refl. intros w. apply R_refl. Qed.

Lemma keeps_call {A} (f : World -> Result A) : keeps R (call f).
Proof using R_refl.
  intros w. unfold call. destruct (f w); apply R_refl.
Qed.

Lemma keeps_bind {A B} (m : M A) (k : A -> M B) :
  keeps R m -> (forall a, keeps R (k a)) -> keeps R (bind m k).
Proof using R_trans.
  intros Hm Hk w. unfold bind. specialize (Hm w).
  destruct (m w) as [[a|exn|] w1]; cbn [snd] in *; [|exact Hm|exact Hm].
  apply R_trans with (w2 := w1); [exact Hm|apply Hk].
Qed.

Lemma keeps_try_finally {A} (body : M A) (cleanup : M unit) :
  keeps R body -> keeps R cleanup -> keeps R (try_finally body cleanup).
Proof using R_trans.
  intros Hb Hc w. unfold try_finally. specialize (Hb w).
  destruct (body w) as [[a|exn|] w1]; cbn [snd] in *; [| |exact Hb];
    specialize (Hc w1); destruct (cleanup w1) as [[u|exn'|] w2];
    cbn [snd] in *; apply R_trans with (w2 := w1); assumption.
Qed.

Lemma keeps_mapM {A B} (f : A -> M B) (l : list A) :
  (forall x, In x l -> keeps R (f x)) -> keeps R (mapM f l).
Proof using R_refl R_trans.
  induction l as [|x l IH]; intros Hf; [apply keeps_ret|].
  cbn [mapM]. apply keeps_bind; [apply Hf; left; reflexivity|].
  intros y. apply keeps_bind; [|intros ys; apply keeps_ret].
  apply IH. intros x' Hx'. apply Hf. right. exact Hx'.
Qed.

Lemma keeps_forM_ {A} (l : list A) (f : A -> M unit) :
  (forall x, In x l -> keeps R (f x)) -> keeps R (forM_ l f).
Proof using R_refl R_trans.
  induction l as [|x l IH]; intros Hf; [apply keeps_ret|].
  cbn [forM_]. apply keeps_bind; [apply Hf; left; reflexivity|].
  intros _. apply IH. intros x' Hx'. apply Hf. right. exact Hx'.
Qed.

Lemma keeps_time_time : keeps R time_time.
Proof using R_ticks. intros w. apply R_ticks. Qed.

Lemma keeps_log_time {A} (body : M A) :
  keeps R body -> keeps R (_log_time body).
Proof using R_ticks R_trans R_refl.
  intros Hb. unfold _log_time.
  apply keeps_bind; [apply keeps_time_time|]. intros _.
  apply keeps_bind; [exact Hb|]. intros x.
  apply keeps_bind; [apply keeps_time_time|]. intros _. apply keeps_ret.
Qed.

Lemma keeps_gen_metadata : keeps R _gen_metadata.
Proof using R_ticks R_trans R_refl.
  unfold _gen_metadata. apply keeps_bind; [apply keeps_time_time|].
  intros now. apply keeps_ret.
Qed.

Lemma keeps_value x md : keeps R (_value x md).
Proof using R_ticks R_trans R_refl.
  unfold _value. apply keeps_bind; [|intros m; apply keeps_ret].
  destruct md; [apply keeps_ret|apply keeps_gen_metadata].
Qed.

Lemma keeps_acquire_nowait mutex : keeps R (acquire_nowait mutex).
Proof using R_held R_refl.
  intros w. unfold acquire_nowait.
  destruct (bool_decide (mutex ∈ held w)); [apply R_refl|apply R_held].
Qed.

Lemma keeps_release mutex : keeps R (release mutex).
Proof using R_held. intros w. apply R_held. Qed.

Lemma keeps_record_read c : is_write c = false -> keeps R (record_call c).
Proof using R_read. intros Hc w. apply R_read. exact Hc. Qed.

Lemma keeps_get_from_backend (self : CacheRegion) key :
  keeps R (_get_from_backend self key).
Proof using R_read.
  intros w. rewrite _get_from_backend_run. cbn [snd].
  apply R_read. apply read_call_not_write.
Qed.

Lemma keeps_get_multi_from_backend (self : CacheRegion) keys :
  keeps R (_get_multi_from_backend self keys).
Proof using R_read R_refl R_trans.
  unfold _get_multi_from_backend.
  destruct (deserializer self).
  - apply keeps_bind.
    + unfold backend_get_serialized_multi.
      apply keeps_bind; [apply keeps_record_read; reflexivity|]. intros _.
      apply keeps_bind; [apply keeps_get_world|]. intros w.
      apply keeps_mapM. intros k _. apply keeps_lift.
    + intros raws. apply keeps_mapM. intros v _. apply keeps_lift.
  - unfold backend_get_multi.
    apply keeps_bind; [apply keeps_record_read; reflexivity|]. intros _.
    apply keeps_bind; [apply keeps_get_world|]. intros w.
    apply keeps_mapM. intros k _. apply keeps_lift.
Qed.

Lemma keeps_is_cache_miss (self : CacheRegion) value orig_key :
  keeps R (_is_cache_miss self value orig_key).
Proof using R_refl R_trans.
  unfold _is_cache_miss. destruct value as [|cv]; [apply keeps_ret|].
  apply keeps_bind; [apply keeps_lift|]. intros j.
  destruct (negb (Json_eqb j (JInt value_version))); [apply keeps_ret|].
  apply keeps_bind; [apply keeps_lift|]. intros ct.
  apply keeps_bind; [apply keeps_get_world|]. intros w.
  destruct (DefaultInvalidationStrategy.is_hard_invalidated _ _);
    apply keeps_ret.
Qed.

Lemma keeps_get_value (self : CacheRegion) key orig_key e :
  keeps R (get_value self key orig_key e).
Proof using R_read R_refl R_trans R_ticks.
  unfold get_value.
  apply keeps_bind; [apply keeps_get_from_backend|]. intros value.
  apply keeps_bind; [apply keeps_is_cache_miss|]. intros miss.
  destruct miss; [apply keeps_raise|].
  destruct value as [|cv]; [apply keeps_raise|].
  apply keeps_bind; [apply keeps_lift|]. intros ct.
  apply keeps_bind; [apply keeps_get_world|]. intros w.
  destruct (DefaultInvalidationStrategy.is_soft_invalidated _ _);
    [|apply keeps_ret].
  destruct e; [|apply keeps_raise].
  apply keeps_bind; [apply keeps_time_time|]. intros now. apply keeps_ret.
Qed.

Lemma keeps_multi_get_value (self : CacheRegion) values orig_key key e :
  keeps R (multi_get_value self values orig_key key e).
Proof using R_refl R_trans R_ticks.
  unfold multi_get_value.
  apply keeps_bind; [apply keeps_is_cache_miss|]. intros miss.
  destruct miss; [apply keeps_ret|].
  destruct (default NO_VALUE (dict_get key values)) as [|cv];
    [apply keeps_raise|].
  apply keeps_bind; [apply keeps_lift|]. intros ct.
  apply keeps_bind; [apply keeps_get_world|]. intros w.
  destruct (DefaultInvalidationStrategy.is_soft_invalidated _ _);
    [|apply keeps_ret].
  destruct e; [|apply keeps_raise].
  apply keeps_bind; [apply keeps_time_time|]. intros now. apply keeps_ret.
Qed.

Lemma keeps_read_value {A} (get : M (A * Z)) :
  keeps R get -> keeps R (read_value get).
Proof using Type.
  intros Hg w. unfold read_value. specialize (Hg w).
  destruct (get w) as [[[p ct]|exn|] w1]; cbn [snd] in *;
    [exact Hg| |exact Hg].
  destruct exn; exact Hg.
Qed.

Lemma keeps_is_fresh e ct : keeps R (is_fresh e ct).
Proof using R_refl R_trans R_ticks.
  unfold is_fresh. destruct e; [|apply keeps_ret].
  apply keeps_bind; [apply keeps_time_time|]. intros now. apply keeps_ret.
Qed.

(** The lock respects what its reader, its generator and its
    asynchronous runner respect. *)
Lemma keeps_Lock {A} mutex (gen get : M (A * Z)) e ac :
  keeps R gen -> keeps R get ->
  (forall run, ac = Some run -> keeps R (run mutex)) ->
  keeps R (Lock mutex gen get e ac).
Proof using R_refl R_trans R_ticks R_held.
  intros Hgen Hget Hac. unfold Lock.
  apply keeps_bind; [apply keeps_read_value; exact Hget|].
  intros [prior ct]. apply keeps_bind; [apply keeps_is_fresh|].
  intros fresh.
  assert (keeps R
    (let* acquired := acquire_nowait mutex in
     if acquired then
       match ac, prior with
       | Some run_async, Some p =>
           fun w =>
             match run_async mutex w with
             | (Return _, w') => (Return p, w')
             | (Raise exn, w') => (Raise exn, set_held (held w' ∖ {[mutex]}) w')
             | (Blocked, w') => (Blocked, w')
             end
       | _, _ =>
           let* '(p, _) := try_finally gen (release mutex) in ret p
       end
     else
       match prior with
       | Some p => if Z.ltb 0 ct then ret p else block
       | None => block
       end)) as Hstale.
  { apply keeps_bind; [apply keeps_acquire_nowait|]. intros acquired.
    assert (keeps R
      (let* '(p, _) := try_finally gen (release mutex) in ret p)) as Hsync.
    { apply keeps_bind;
        [apply keeps_try_finally; [exact Hgen|apply keeps_release]|].
      intros [p c]. apply keeps_ret. }
    destruct acquired.
    - destruct ac as [run|]; [|exact Hsync].
      destruct prior as [p|]; [|exact Hsync].
      intros w. specialize (Hac run eq_refl w).
      destruct (run mutex w) as [[u|exn|] w1]; cbn [snd] in *;
        [exact Hac| |exact Hac].
      apply R_trans with (w2 := w1); [exact Hac|apply R_held].
    - destruct prior as [p|]; [|apply keeps_block].
      destruct (Z.ltb 0 ct); [apply keeps_ret|apply keeps_block]. }
  destruct fresh; [|exact Hstale].
  destruct prior; [apply keeps_ret|exact Hstale].
Qed.

(** [gen_value] writes nothing when [should_cache_fn] refuses whatever
    the creator returns. *)
Lemma keeps_gen_value_refused (self : CacheRegion) key orig_key creator
  args e (f : ValuePayload -> bool) :
  (forall w x, creator_call creator args w = Ok x -> f x = false) ->
  keeps R (gen_value self key orig_key creator args e (Some f)).
Proof using R_refl R_trans R_ticks.
  intros Hf w. unfold gen_value.
  replace (match args with
           | Some args0 => call (creator args0)
           | None => call (creator [])
           end) with (call (creator_call creator args))
    by (destruct args; reflexivity).
  unfold bind at 1. rewrite _log_time_call.
  destruct (creator_call creator args (set_ticks (S (ticks w)) w))
    as [x|exn] eqn:Hc; [|apply R_ticks].
  apply R_trans with (w2 := set_ticks (S (S (ticks w))) w);
    [apply R_ticks|].
  rewrite (Hf _ _ Hc).
  apply (keeps_bind (_value x None)); [apply keeps_value|]. intros cv.
  apply keeps_bind; [apply keeps_get_world|]. intros w'.
  destruct (_ && _); [apply keeps_raise|].
  apply keeps_bind; [apply keeps_ret|]. intros _.
  apply keeps_bind; [apply keeps_lift|]. intros ct. apply keeps_ret.
Qed.

End Keeps.

(** *** C5: values that should_cache_fn refuses *)

Lemma same_backend_refl w : same_backend w w.
Proof. split; reflexivity. Qed.

Lemma same_backend_trans w1 w2 w3 :
  same_backend w1 w2 -> same_backend w2 w3 -> same_backend w1 w3.
Proof. intros [A1 B1] [A2 B2]. split; congruence. Qed.

Lemma same_backend_ticks n w : same_backend w (set_ticks n w).
Proof. split; reflexivity. Qed.

Lemma same_backend_held h w : same_backend w (set_held h w).
Proof. split; reflexivity. Qed.

Lemma same_backend_read c w :
  is_write c = false -> same_backend w (set_calls (c :: calls w) w).
Proof.
  intros Hc. split; [reflexivity|].
  unfold writes. cbn [calls set_calls List.filter]. rewrite Hc. reflexivity.
Qed.

Lemma same_item_refl key w : same_item key w w.
Proof. reflexivity. Qed.

Lemma same_item_trans key w1 w2 w3 :
  same_item key w1 w2 -> same_item key w2 w3 -> same_item key w1 w3.
Proof. unfold same_item. congruence. Qed.

Lemma same_item_ticks key n w : same_item key w (set_ticks n w).
Proof. reflexivity. Qed.

Lemma same_item_held key h w : same_item key w (set_held h w).
Proof. reflexivity. Qed.

Lemma same_item_read key c w :
  is_write c = false -> same_item key w (set_calls (c :: calls w) w).
Proof. reflexivity. Qed.

(** Without an asynchronous runner, [get_or_create] writes nothing when
    [should_cache_fn] refuses whatever the creator returns. *)
Lemma get_or_create_refused_keeps_backend (self : CacheRegion) key creator
  e (f : ValuePayload -> bool) args :
  async_creation_runner self = None ->
  (forall w x, creator_call creator args w = Ok x -> f x = false) ->
  keeps same_backend (get_or_create self key creator e (Some f) args).
Proof.
  intros Hasync Hf. unfold get_or_create. rewrite Hasync.
  apply (keeps_Lock same_backend same_backend_refl same_backend_trans
           same_backend_ticks same_backend_held).
  - apply (keeps_gen_value_refused same_backend same_backend_refl
             same_backend_trans same_backend_ticks). exact Hf.
  - apply (keeps_get_value same_backend same_backend_refl
             same_backend_trans same_backend_ticks same_backend_read).
  - intros run Hrun. discriminate.
Qed.

(** *** Dictionaries *)

Lemma dict_get_In {V} (k : string) (d : list (string * V)) x :
  dict_get k d = Some x -> In (k, x) d.
Proof.
  induction d as [|[k' y] d IH]; [discriminate|]. cbn [dict_get].
  destruct (String.eqb k k') eqn:E.
  - apply String.eqb_eq in E. subst k'. intros [= ->]. left. reflexivity.
  - intros H. right. apply IH, H.
Qed.

Lemma dict_set_In {V} (k : string) (x : V) d k' y :
  In (k', y) (dict_set k x d) -> (k' = k /\ y = x) \/ In (k', y) d.
Proof.
  induction d as [|[k0 y0] d IH]; cbn [dict_set].
  - intros [[= <- <-]|[]]. left. split; reflexivity.
  - destruct (String.eqb k k0) eqn:E.
    + intros [[= <- <-]|H]; [left; split; reflexivity|].
      right. right. exact H.
    + intros [H|H]; [right; left; exact H|].
      destruct (IH H) as [H'|H']; [left; exact H'|right; right; exact H'].
Qed.

Lemma dict_update_In {V} (d items : list (string * V)) k y :
  In (k, y) (dict_update d items) -> In (k, y) d \/ In (k, y) items.
Proof.
  unfold dict_update. revert d.
  induction items as [|[k0 y0] items IH]; intros d; cbn [fold_left].
  - intros H. left. exact H.
  - intros H. destruct (IH _ H) as [H'|H'].
    + cbn [fst snd] in H'. destruct (dict_set_In _ _ _ _ _ H') as [[-> ->]|H''].
      * right. left. reflexivity.
      * left. exact H''.
    + right. right. exact H'.
Qed.

Lemma In_combine_map {A B} (f : A -> B) (l : list A) x y :
  In (x, y) (combine l (map f l)) -> y = f x.
Proof.
  induction l as [|a l IH]; [intros []|].
  cbn [map combine]. intros [[= <- <-]|H]; [reflexivity|apply IH, H].
Qed.

(** The entries of [orig_to_mangled] pair a key with its mangled form. *)
Lemma orig_to_mangled_get (f : string -> string) (l : list string) k mk :
  dict_get k (dict_of_items (combine l (map f l))) = Some mk -> mk = f k.
Proof.
  intros H. apply dict_get_In in H.
  destruct (dict_update_In _ _ _ _ H) as [[]|H'].
  apply In_combine_map in H'. exact H'.
Qed.

Lemma store_all_other {V} (inj : V -> BackendFormatted) mapping s key :
  (forall x, ~ In (key, x) mapping) ->
  store_all inj mapping s !! key = s !! key.
Proof.
  unfold store_all. revert s.
  induction mapping as [|[k x] mapping IH]; intros s Hk; [reflexivity|].
  cbn [fold_left fst snd]. rewrite IH.
  - apply lookup_insert_ne. intros ->. apply (Hk x). left. reflexivity.
  - intros y Hy. apply (Hk y). right. exact Hy.
Qed.

(** *** The closures of get_or_create_multi *)

Lemma values_w_created_run o2m items acc entries w :
  mangled_items o2m items = Some entries ->
  values_w_created o2m items acc w =
  (Return (dict_update acc (stamp_entries (clock w) (ticks w) entries)),
   set_ticks (ticks w + length items) w).
Proof.
  revert acc entries w.
  induction items as [|[k v] items IH]; intros acc entries w.
  - intros [= <-]. cbn. rewrite Nat.add_0_r. destruct w; reflexivity.
  - cbn [mangled_items].
    destruct (dict_get k o2m) as [mk|] eqn:Hk; [|discriminate].
    destruct (mangled_items o2m items) as [entries'|] eqn:Hi;
      [|discriminate].
    intros [= <-]. cbn [values_w_created].
    unfold bind at 1, dict_item at 1. rewrite Hk. unfold ret at 1.
    cbv beta iota. mstep _value_run.
    rewrite (IH _ entries' _ eq_refl).
    cbn [stamp_entries dict_update fold_left fst snd length ticks clock
         set_ticks].
    f_equal. unfold set_ticks. cbn. f_equal. lia.
Qed.

Lemma values_w_created_fail o2m items acc w :
  mangled_items o2m items = None ->
  forall created, fst (values_w_created o2m items acc w) <> Return created.
Proof.
  revert acc w. induction items as [|[k v] items IH]; intros acc w;
    [discriminate|].
  cbn [mangled_items values_w_created].
  destruct (dict_get k o2m) as [mk|] eqn:Hk.
  - destruct (mangled_items o2m items) as [entries'|] eqn:Hi;
      [discriminate|].
    intros _ created. unfold bind at 1, dict_item at 1. rewrite Hk.
    unfold ret at 1. cbv beta iota. mstep _value_run. apply IH. reflexivity.
  - intros _ created. unfold bind at 1, dict_item at 1. rewrite Hk.
    discriminate.
Qed.

Lemma stamp_entries_In clock t entries mk cv :
  In (mk, cv) (stamp_entries clock t entries) ->
  In (mk, payload cv) entries.
Proof.
  revert t. induction entries as [|[mk' v] entries IH]; intros t; [intros []|].
  cbn [stamp_entries]. intros [[= <- <-]|H]; [left; reflexivity|].
  right. apply (IH _ H).
Qed.

Lemma mangled_items_In o2m items entries mk v :
  mangled_items o2m items = Some entries ->
  In (mk, v) entries ->
  exists k, In (k, v) items /\ dict_get k o2m = Some mk.
Proof.
  revert entries. induction items as [|[k v'] items IH]; intros entries.
  - intros [= <-] [].
  - cbn [mangled_items].
    destruct (dict_get k o2m) as [mk'|] eqn:Hk; [|discriminate].
    destruct (mangled_items o2m items) as [entries'|]; [|discriminate].
    intros [= <-] [[= <- <-]|H].
    + exists k. split; [left; reflexivity|exact Hk].
    + destruct (IH _ eq_refl H) as (k' & H1 & H2).
      exists k'. split; [right; exact H1|exact H2].
Qed.

Lemma mapM_pure {A B} (f : A -> M B) (g : A -> B) l w :
  (forall x w0, f x w0 = (Return (g x), w0)) ->
  mapM f l w = (Return (map g l), w).
Proof.
  intros Hf. induction l as [|x l IH]; [reflexivity|].
  cbn [mapM map]. mstep Hf. mstep IH. reflexivity.
Qed.

(** [_set_multi_cached_value_to_backend] leaves alone the keys that are
    not in the mapping. *)
Lemma _set_multi_cached_value_other (self : CacheRegion) mapping key :
  (forall cv, ~ In (key, cv) mapping) ->
  keeps (same_item key) (_set_multi_cached_value_to_backend self mapping).
Proof.
  intros Hk w. unfold _set_multi_cached_value_to_backend.
  destruct mapping as [|kv mapping]; [reflexivity|].
  destruct (serializer self) as [ser|] eqn:Hser.
  - unfold bind.
    rewrite (mapM_pure _
               (fun kv0 : string * CachedValue =>
                  (fst kv0,
                   (list_byte_of_string
                      (Json_codec.json_dumps (metadata (snd kv0)))
                      ++ pipe :: ser (payload (snd kv0)))%list))).
    2:{ intros x w0. unfold bind, _serialized_cached_value,
          _serialize_cached_value_elements. rewrite Hser. reflexivity. }
    unfold backend_set_serialized_multi.
    cbn [snd]. unfold same_item. cbn [store set_store set_calls].
    apply store_all_other. intros b Hb.
    destruct (dict_update_In _ _ _ _ Hb) as [[]|Hb'].
    apply in_map_iff in Hb'. destruct Hb' as ([k' cv] & [= <- _] & Hin).
    apply (Hk cv). exact Hin.
  - unfold backend_set_multi. cbn [snd]. unfold same_item.
    cbn [store set_store set_calls]. apply store_all_other. exact Hk.
Qed.

Lemma same_item_mutexes key m w : same_item key w (set_mutexes m w).
Proof. reflexivity. Qed.

Lemma keeps_multi_lock_keys (self : CacheRegion) key o2m values e :
  keeps (same_item key) (multi_lock_keys self o2m values e).
Proof.
  unfold multi_lock_keys.
  apply (keeps_forM_ (same_item key) (same_item_refl key)
           (same_item_trans key)).
  intros item _.
  apply (keeps_bind (same_item key) (same_item_trans key));
    [|intros p; apply (keeps_ret _ (same_item_refl key))].
  apply (keeps_Lock (same_item key) (same_item_refl key)
           (same_item_trans key) (same_item_ticks key)
           (same_item_held key)).
  - apply (keeps_raise _ (same_item_refl key)).
  - apply (keeps_multi_get_value (same_item key) (same_item_refl key)
             (same_item_trans key) (same_item_ticks key)).
  - intros run [= <-] w. apply same_item_mutexes.
Qed.

Lemma keeps_multi_finally key : keeps (same_item key) multi_finally.
Proof.
  unfold multi_finally.
  apply (keeps_bind (same_item key) (same_item_trans key));
    [apply (keeps_get_world _ (same_item_refl key))|].
  intros w.
  apply (keeps_forM_ (same_item key) (same_item_refl key)
           (same_item_trans key)).
  intros m _. apply (keeps_release _ (same_item_held key)).
Qed.

(** [get_or_create_multi] does not write under a mangled key when
    [should_cache_fn] refuses every value the creator returns for the
    keys that mangle to it. *)
Lemma get_or_create_multi_refused_keeps_item (self : CacheRegion) keys
  creator e (f : ValuePayload -> bool) mk :
  (forall ks w vs k v,
     creator ks w = Ok vs -> In (k, v) (combine ks vs) ->
     mangle self k = mk -> f v = false) ->
  keeps (same_item mk) (get_or_create_multi self keys creator e (Some f)).
Proof.
  intros Hf. unfold get_or_create_multi.
  set (e' := effective_expiration_time self e).
  set (o2m := dict_of_items
                (combine (sorted_set keys)
                   (map (mangle self) (sorted_set keys)))).
  apply (keeps_bind (same_item mk) (same_item_trans mk)).
  { apply (keeps_get_multi_from_backend (same_item mk) (same_item_refl mk)
             (same_item_trans mk) (same_item_read mk)). }
  intros backend_values.
  apply (keeps_bind (same_item mk) (same_item_trans mk));
    [intros w; apply same_item_mutexes|]. intros _.
  apply (keeps_bind (same_item mk) (same_item_trans mk));
    [apply keeps_multi_lock_keys|]. intros _.
  apply (keeps_try_finally (same_item mk) (same_item_trans mk));
    [|apply keeps_multi_finally].
  unfold multi_try.
  apply (keeps_bind (same_item mk) (same_item_trans mk));
    [apply (keeps_get_world _ (same_item_refl mk))|]. intros w0.
  apply (keeps_bind (same_item mk) (same_item_trans mk)).
  2:{ intros values'.
      apply (keeps_mapM (same_item mk) (same_item_refl mk)
               (same_item_trans mk)).
      intros k _.
      apply (keeps_bind (same_item mk) (same_item_trans mk)).
      { unfold dict_item. destruct (dict_get k o2m);
          [apply (keeps_ret _ (same_item_refl mk))
          |apply (keeps_raise _ (same_item_refl mk))]. }
      intros mk'.
      apply (keeps_bind (same_item mk) (same_item_trans mk)).
      { unfold dict_item. destruct (dict_get mk' values');
          [apply (keeps_ret _ (same_item_refl mk))
          |apply (keeps_raise _ (same_item_refl mk))]. }
      intros value. apply (keeps_ret _ (same_item_refl mk)). }
  destruct (mutexes w0) as [|m ms]; [apply (keeps_ret _ (same_item_refl mk))|].
  set (ktg := sorted_set (dict_keys (m :: ms))).
  intros w. unfold bind at 1. rewrite _log_time_call.
  destruct (creator ktg (set_ticks (S (ticks w)) w)) as [vs|exn] eqn:Hc;
    [|apply same_item_ticks].
  apply same_item_trans with (w2 := set_ticks (S (S (ticks w))) w);
    [apply same_item_ticks|].
  generalize (set_ticks (S (S (ticks w))) w). intros w1.
  destruct (mangled_items o2m (combine ktg vs)) as [entries|] eqn:Hitems.
  - unfold bind at 1.
    rewrite (values_w_created_run _ _ _ _ _ Hitems).
    apply same_item_trans
      with (w2 := set_ticks (ticks w1 + length (combine ktg vs)) w1);
      [apply same_item_ticks|].
    generalize (set_ticks (ticks w1 + length (combine ktg vs)) w1).
    intros w2.
    set (created := dict_update [] (stamp_entries (clock w1) (ticks w1)
                                      entries)).
    unfold bind at 1, get_world at 1. cbv beta iota.
    destruct (_ && _); [apply same_item_refl|].
    apply (keeps_bind (same_item mk) (same_item_trans mk));
      [|intros _; apply (keeps_ret _ (same_item_refl mk))].
    apply _set_multi_cached_value_other.
    intros cv Hin. apply filter_In in Hin. destruct Hin as [Hin Hfv].
    cbn [snd] in Hfv.
    destruct (dict_update_In _ _ _ _ Hin) as [[]|Hin'].
    apply stamp_entries_In in Hin'.
    destruct (mangled_items_In _ _ _ _ _ Hitems Hin') as (k & Hk & Hmk).
    apply orig_to_mangled_get in Hmk.
    rewrite (Hf _ _ _ _ _ Hc Hk (eq_sym Hmk)) in Hfv. discriminate.
  - unfold bind at 1.
    pose proof (values_w_created_fail o2m (combine ktg vs) [] w1 Hitems)
      as Hfail.
    assert (same_item mk w1
              (snd (values_w_created o2m (combine ktg vs) [] w1))) as Hk.
    { clear. generalize (@nil (string * CachedValue)). revert w1.
      induction (combine ktg vs) as [|[k v] items IH]; intros w1 acc;
        [apply same_item_refl|].
      cbn [values_w_created]. unfold bind at 1, dict_item at 1.
      destruct (dict_get k o2m); [|apply same_item_refl].
      unfold ret at 1. cbv beta iota. mstep _value_run.
      apply same_item_trans with (w2 := set_ticks (S (ticks w1)) w1);
        [apply same_item_ticks|apply IH]. }
    destruct (values_w_created o2m (combine ktg vs) [] w1)
      as [[created|exn|] w2]; cbn [snd] in *;
      [exfalso; apply (Hfail created); reflexivity|exact Hk|exact Hk].
Qed.

Lemma dict_get_set_eq {V} (k : string) (x : V) d :
  dict_get k (dict_set k x d) = Some x.
Proof.
  induction d as [|[k' y] d IH]; cbn [dict_set dict_get].
  - rewrite String.eqb_refl. reflexivity.
  - destruct (String.eqb k k') eqn:E; cbn [dict_get].
    + rewrite String.eqb_refl. reflexivity.
    + rewrite E. exact IH.
Qed.

Lemma dict_get_set_ne {V} (k k' : string) (x : V) d :
  k' <> k -> dict_get k' (dict_set k x d) = dict_get k' d.
Proof.
  intros Hne. induction d as [|[k0 y] d IH]; cbn [dict_set dict_get].
  - apply String.eqb_neq in Hne. rewrite Hne. reflexivity.
  - destruct (String.eqb k k0) eqn:E; cbn [dict_get].
    + apply String.eqb_eq in E. subst k0.
      apply String.eqb_neq in Hne. rewrite Hne. reflexivity.
    + destruct (String.eqb k' k0); [reflexivity|exact IH].
Qed.

Lemma fold_last_assoc {V} (k : string) (items : list (string * V)) acc :
  fold_left
    (fun acc kv => if String.eqb k (fst kv) then Some (snd kv) else acc)
    items acc
  = match last_assoc k items with Some x => Some x | None => acc end.
Proof.
  unfold last_assoc. revert acc.
  induction items as [|[k' x] items IH]; intros acc; [reflexivity|].
  cbn [fold_left fst snd].
  rewrite (IH (if String.eqb k k' then Some x else acc)).
  rewrite (IH (if String.eqb k k' then Some x else None)).
  destruct (fold_left _ items None); [reflexivity|].
  destruct (String.eqb k k'); reflexivity.
Qed.

(** Looking a key up after [update]: the last item for the key, else
    what the dict had. *)
Lemma dict_get_update {V} (k : string) (d items : list (string * V)) :
  dict_get k (dict_update d items)
  = match last_assoc k items with
    | Some x => Some x
    | None => dict_get k d
    end.
Proof.
  unfold dict_update. revert d.
  induction items as [|[k' x] items IH]; intros d; [reflexivity|].
  cbn [fold_left fst snd]. rewrite IH.
  replace (last_assoc k ((k', x) :: items))
    with (match last_assoc k items with
          | Some y => Some y
          | None => if String.eqb k k' then Some x else None
          end)
    by (symmetry; apply (fold_last_assoc k items)).
  destruct (last_assoc k items); [reflexivity|].
  destruct (String.eqb k k') eqn:E.
  - apply String.eqb_eq in E. subst k'. apply dict_get_set_eq.
  - apply dict_get_set_ne. apply String.eqb_neq. exact E.
Qed.

Lemma last_assoc_In {V} (k : string) (items : list (string * V)) x :
  last_assoc k items = Some x -> In (k, x) items.
Proof.
  unfold last_assoc.
  induction items as [|[k' y] items IH] using rev_ind; [discriminate|].
  rewrite fold_left_app. cbn [fold_left fst snd].
  destruct (String.eqb k k') eqn:E.
  - apply String.eqb_eq in E. subst k'. intros [= ->].
    apply in_or_app. right. left. reflexivity.
  - intros H. apply in_or_app. left. apply IH, H.
Qed.

Lemma last_assoc_exists {V} (k : string) (items : list (string * V)) x :
  In (k, x) items -> exists y, last_assoc k items = Some y.
Proof.
  unfold last_assoc.
  induction items as [|[k' y] items IH] using rev_ind; [intros []|].
  rewrite fold_left_app. cbn [fold_left fst snd]. intros H.
  destruct (String.eqb k k') eqn:E; [eexists; reflexivity|].
  apply in_app_or in H. destruct H as [H|[[= -> ->]|[]]]; [apply IH, H|].
  rewrite String.eqb_refl in E. discriminate.
Qed.

Lemma stamp_entries_keys clock t entries mk v :
  In (mk, v) entries ->
  exists cv, In (mk, cv) (stamp_entries clock t entries).
Proof.
  revert t. induction entries as [|[mk' v'] entries IH]; intros t; [intros []|].
  cbn [stamp_entries]. intros [[= -> ->]|H].
  - eexists. left. reflexivity.
  - destruct (IH (S t) H) as (cv & Hcv). exists cv. right. exact Hcv.
Qed.

Lemma mangled_items_keys o2m items entries k v mk :
  mangled_items o2m items = Some entries ->
  In (k, v) items -> dict_get k o2m = Some mk ->
  In (mk, v) entries.
Proof.
  revert entries. induction items as [|[k' v'] items IH]; intros entries;
    [intros _ []|].
  cbn [mangled_items].
  destruct (dict_get k' o2m) as [mk'|] eqn:Hk; [|discriminate].
  destruct (mangled_items o2m items) as [entries'|]; [|discriminate].
  intros [= <-] [[= -> ->]|H] Hmk.
  - left. congruence.
  - right. apply (IH _ eq_refl H Hmk).
Qed.

Lemma In_sorted_set k keys : In k (sorted_set keys) <-> In k keys.
Proof.
  assert (forall x l, In k (insert_sorted x l) <-> k = x \/ In k l) as Hins.
  { intros x l. induction l as [|y l IH]; cbn [insert_sorted].
    - split; [intros [<-|[]]; left; reflexivity|].
      intros [->|[]]. left. reflexivity.
    - destruct (String.eqb x y) eqn:E.
      + apply String.eqb_eq in E. subst y. split; [intros H; right; exact H|].
        intros [->|H]; [left; reflexivity|exact H].
      + destruct (String.ltb x y).
        * split; [intros [<-|H]; [left; reflexivity|right; exact H]|].
          intros [->|H]; [left; reflexivity|right; exact H].
        * cbn [In]. rewrite IH. split.
          -- intros [<-|[->|H]]; [right; left; reflexivity|left; reflexivity|].
             right. right. exact H.
          -- intros [->|[<-|H]]; [right; left; reflexivity|left; reflexivity|].
             right. right. exact H. }
  induction keys as [|x keys IH]; [reflexivity|].
  cbn [sorted_set fold_right]. fold (sorted_set keys).
  rewrite Hins, IH. split; intros [->|H]; try (left; reflexivity);
    right; exact H.
Qed.

Lemma sequence_results_lookup {A B} (f : A -> Result B) l ys j x :
  sequence_results (map f l) = Ok ys ->
  l !! j = Some x ->
  exists y, ys !! j = Some y /\ f x = Ok y.
Proof.
  revert ys j. induction l as [|a l IH]; intros ys j; [intros _ [=]|].
  cbn [map sequence_results].
  destruct (f a) as [b|exn] eqn:Hfa; [|discriminate].
  destruct (sequence_results (map f l)) as [ys'|exn]; [|discriminate].
  intros [= <-]. destruct j as [|j]; cbn.
  - intros [= <-]. exists b. split; [reflexivity|exact Hfa].
  - intros H. apply (IH _ _ eq_refl H).
Qed.

Lemma mapM_lift_ext {A B} (f : A -> M B) (h : A -> Result B) l w :
  (forall x w0, f x w0 = (outcome_of (h x), w0)) ->
  mapM f l w = (outcome_of (sequence_results (map h l)), w).
Proof.
  intros Hf. induction l as [|x l IH]; [reflexivity|].
  cbn [mapM map sequence_results]. unfold bind at 1. rewrite Hf.
  destruct (h x) as [y|exn]; [|reflexivity]. cbn [outcome_of].
  unfold bind at 1. rewrite IH.
  destruct (sequence_results (map h l)); reflexivity.
Qed.

Lemma multi_result_run o2m values k w :
  (let* mk := dict_item o2m k in
   let* value := dict_item values mk in
   ret (payload_of value)) w
  = (outcome_of (multi_result o2m values k), w).
Proof.
  unfold multi_result, bind, dict_item.
  destruct (dict_get k o2m) as [mk|]; [|reflexivity].
  unfold ret at 1. cbv beta iota.
  destruct (dict_get mk values); reflexivity.
Qed.

Lemma _set_multi_cached_value_returns (self : CacheRegion) mapping w :
  fst (_set_multi_cached_value_to_backend self mapping w) = Return tt
  /\ mutexes (snd (_set_multi_cached_value_to_backend self mapping w))
     = mutexes w.
Proof.
  unfold _set_multi_cached_value_to_backend.
  destruct mapping as [|kv mapping]; [split; reflexivity|].
  destruct (serializer self) as [ser|] eqn:Hser; [|split; reflexivity].
  unfold bind.
  rewrite (mapM_pure _
             (fun kv0 : string * CachedValue =>
                (fst kv0,
                 (list_byte_of_string
                    (Json_codec.json_dumps (metadata (snd kv0)))
                    ++ pipe :: ser (payload (snd kv0)))%list))).
  2:{ intros x w0. unfold bind, _serialized_cached_value,
        _serialize_cached_value_elements. rewrite Hser. reflexivity. }
  split; reflexivity.
Qed.

(** The [try] body when mutexes were taken, the creator returned and
    every key to generate has a mangled form: what is returned is read
    from [values] updated with the new envelopes. *)
Lemma multi_try_run (self : CacheRegion) keys creator e scf o2m values w
  m ms vs entries :
  mutexes w = m :: ms ->
  creator (sorted_set (dict_keys (m :: ms))) (set_ticks (S (ticks w)) w)
    = Ok vs ->
  mangled_items o2m (combine (sorted_set (dict_keys (m :: ms))) vs)
    = Some entries ->
  match e with None => true | Some _ => false end
  && DefaultInvalidationStrategy.was_soft_invalidated (region_invalidator w)
  = false ->
  fst (multi_try self keys creator e scf o2m values w)
  = outcome_of
      (sequence_results
         (map (multi_result o2m
                 (dict_update values
                    (map (fun kv => (fst kv, Cached (snd kv)))
                       (dict_update []
                          (stamp_entries (clock w) (S (S (ticks w)))
                             entries)))))
            keys)).
Proof.
  intros Hm Hc Hitems Hsoft. unfold multi_try.
  unfold bind at 1, get_world at 1. cbv beta iota. rewrite Hm.
  unfold bind at 1. unfold bind at 1. rewrite _log_time_call, Hc.
  cbv beta iota. unfold bind at 1.
  rewrite (values_w_created_run _ _ _ _ _ Hitems). cbv beta iota.
  unfold bind at 1, get_world at 1. cbv beta iota.
  cbn [region_invalidator set_ticks clock ticks]. rewrite Hsoft.
  unfold bind at 1.
  destruct scf as [f|];
    match goal with
    | |- context [_set_multi_cached_value_to_backend self ?mp ?w0] =>
        destruct (_set_multi_cached_value_returns self mp w0) as [Hr _];
        destruct (_set_multi_cached_value_to_backend self mp w0)
          as [o w4] eqn:Hset
    end;
    cbn [fst] in Hr; subst o; unfold ret at 1; cbv beta iota;
    rewrite (mapM_lift_ext _ (multi_result o2m _) keys w4
               (multi_result_run o2m _));
    reflexivity.
Qed.

Lemma In_combine_map_intro {A B} (f : A -> B) (l : list A) x :
  In x l -> In (x, f x) (combine l (map f l)).
Proof.
  induction l as [|a l IH]; [intros []|].
  cbn [map combine]. intros [->|H]; [left; reflexivity|right; apply IH, H].
Qed.

Lemma mangled_items_found o2m items entries k v :
  mangled_items o2m items = Some entries ->
  In (k, v) items -> exists mk, dict_get k o2m = Some mk.
Proof.
  revert entries. induction items as [|[k' v'] items IH]; intros entries;
    [intros _ []|].
  cbn [mangled_items].
  destruct (dict_get k' o2m) as [mk'|] eqn:Hk; [|discriminate].
  destruct (mangled_items o2m items) as [entries'|]; [|discriminate].
  intros _ [[= -> ->]|H]; [exists mk'; exact Hk|apply (IH _ eq_refl H)].
Qed.

Lemma same_mutexes_refl w : same_mutexes w w.
Proof. reflexivity. Qed.

Lemma same_mutexes_trans w1 w2 w3 :
  same_mutexes w1 w2 -> same_mutexes w2 w3 -> same_mutexes w1 w3.
Proof. unfold same_mutexes. congruence. Qed.

Lemma same_mutexes_ticks n w : same_mutexes w (set_ticks n w).
Proof. reflexivity. Qed.

Lemma same_mutexes_held h w : same_mutexes w (set_held h w).
Proof. reflexivity. Qed.

Lemma keeps_mutexes_multi_finally : keeps same_mutexes multi_finally.
Proof.
  unfold multi_finally.
  apply (keeps_bind _ same_mutexes_trans);
    [apply (keeps_get_world _ same_mutexes_refl)|].
  intros w.
  apply (keeps_forM_ _ same_mutexes_refl same_mutexes_trans).
  intros m _. apply (keeps_release _ same_mutexes_held).
Qed.

Lemma multi_finally_returns w : fst (multi_finally w) = Return tt.
Proof.
  unfold multi_finally, bind, get_world.
  generalize (dict_values (mutexes w)). intros l. revert w.
  induction l as [|m l IH]; intros w; [reflexivity|].
  cbn [forM_]. unfold bind, release. apply IH.
Qed.

Lemma keeps_mutexes_multi_try (self : CacheRegion) keys creator e scf o2m
  values :
  keeps same_mutexes (multi_try self keys creator e scf o2m values).
Proof.
  unfold multi_try.
  apply (keeps_bind _ same_mutexes_trans);
    [apply (keeps_get_world _ same_mutexes_refl)|]. intros w0.
  apply (keeps_bind _ same_mutexes_trans).
  2:{ intros values'.
      apply (keeps_mapM _ same_mutexes_refl same_mutexes_trans).
      intros k _ w. rewrite multi_result_run. reflexivity. }
  destruct (mutexes w0) as [|m ms]; [apply (keeps_ret _ same_mutexes_refl)|].
  apply (keeps_bind _ same_mutexes_trans).
  { apply (keeps_log_time _ same_mutexes_refl same_mutexes_trans
             same_mutexes_ticks).
    apply (keeps_call _ same_mutexes_refl). }
  intros vs. apply (keeps_bind _ same_mutexes_trans).
  { generalize (@nil (string * CachedValue)).
    induction (combine (sorted_set (dict_keys (m :: ms))) vs)
      as [|[k v] items IH]; intros acc;
      [apply (keeps_ret _ same_mutexes_refl)|].
    cbn [values_w_created].
    apply (keeps_bind _ same_mutexes_trans).
    { unfold dict_item. destruct (dict_get k o2m);
        [apply (keeps_ret _ same_mutexes_refl)
        |apply (keeps_raise _ same_mutexes_refl)]. }
    intros mk. apply (keeps_bind _ same_mutexes_trans);
      [apply (keeps_value _ same_mutexes_refl same_mutexes_trans
                same_mutexes_ticks)|].
    intros cv. apply IH. }
  intros created. apply (keeps_bind _ same_mutexes_trans);
    [apply (keeps_get_world _ same_mutexes_refl)|]. intros w1.
  destruct (_ && _); [apply (keeps_raise _ same_mutexes_refl)|].
  apply (keeps_bind _ same_mutexes_trans);
    [|intros _; apply (keeps_ret _ same_mutexes_refl)].
  destruct scf; intros w; apply _set_multi_cached_value_returns.
Qed.

(** What a returning [try] body returned, when mutexes were taken. *)
Lemma multi_try_inv (self : CacheRegion) keys creator e scf o2m values w
  m ms vs results :
  mutexes w = m :: ms ->
  creator (sorted_set (dict_keys (m :: ms))) (set_ticks (S (ticks w)) w)
    = Ok vs ->
  fst (multi_try self keys creator e scf o2m values w) = Return results ->
  exists entries,
    mangled_items o2m (combine (sorted_set (dict_keys (m :: ms))) vs)
      = Some entries
    /\ sequence_results
         (map (multi_result o2m
                 (dict_update values
                    (map (fun kv => (fst kv, Cached (snd kv)))
                       (dict_update []
                          (stamp_entries (clock w) (S (S (ticks w)))
                             entries)))))
            keys) = Ok results.
Proof.
  intros Hm Hc Hret.
  destruct (mangled_items o2m
              (combine (sorted_set (dict_keys (m :: ms))) vs))
    as [entries|] eqn:Hitems.
  - exists entries. split; [reflexivity|].
    destruct (match e with None => true | Some _ => false end
              && DefaultInvalidationStrategy.was_soft_invalidated
                   (region_invalidator w)) eqn:Hsoft.
    + exfalso. revert Hret. unfold multi_try.
      unfold bind at 1, get_world at 1. cbv beta iota. rewrite Hm.
      unfold bind at 1. unfold bind at 1. rewrite _log_time_call, Hc.
      cbv beta iota. unfold bind at 1.
      rewrite (values_w_created_run _ _ _ _ _ Hitems). cbv beta iota.
      unfold bind at 1, get_world at 1. cbv beta iota.
      cbn [region_invalidator set_ticks clock ticks]. rewrite Hsoft.
      discriminate.
    + rewrite (multi_try_run self keys creator e scf o2m values w m ms vs
                 entries Hm Hc Hitems Hsoft) in Hret.
      destruct (sequence_results _) as [ys|exn]; [|discriminate].
      injection Hret as ->. reflexivity.
  - exfalso. revert Hret. unfold multi_try.
    unfold bind at 1, get_world at 1. cbv beta iota. rewrite Hm.
    unfold bind at 1. unfold bind at 1. rewrite _log_time_call, Hc.
    cbv beta iota. unfold bind at 1.
    pose proof (values_w_created_fail o2m
                  (combine (sorted_set (dict_keys (m :: ms))) vs) []
                  (set_ticks (S (S (ticks w))) w) Hitems) as Hfail.
    destruct (values_w_created _ _ _ _) as [[created|exn|] w2];
      [exfalso; apply (Hfail created); reflexivity|discriminate
      |discriminate].
Qed.

(** [get_or_create_multi] returns, for every key whose mutex it took,
    the value the creator made for it. *)
Lemma get_or_create_multi_generated (self : CacheRegion) keys creator
  (g : string -> ValuePayload) e scf w results w' :
  (forall ks w0, creator ks w0 = Ok (map g ks)) ->
  (forall k1 k2, mangle self k1 = mangle self k2 -> k1 = k2) ->
  get_or_create_multi self keys creator e scf w = (Return results, w') ->
  forall j k,
    keys !! j = Some k ->
    In k (dict_keys (mutexes w')) ->
    results !! j = Some (Some (g k)).
Proof.
  intros Hc Hinj Hrun j k Hj Hk. unfold get_or_create_multi in Hrun.
  set (e' := effective_expiration_time self e) in *.
  set (o2m := dict_of_items
                (combine (sorted_set keys)
                   (map (mangle self) (sorted_set keys)))) in *.
  unfold bind at 1 in Hrun.
  destruct (_get_multi_from_backend self _ w) as [[bv|exn|] w1];
    [|discriminate|discriminate].
  set (values := dict_of_items
                   (combine (map (mangle self) (sorted_set keys)) bv)) in *.
  unfold bind at 1 in Hrun. cbv beta iota in Hrun.
  unfold bind at 1 in Hrun.
  destruct (multi_lock_keys self o2m values e' (set_mutexes [] w1))
    as [[[]|exn|] w2]; [|discriminate|discriminate].
  unfold try_finally in Hrun.
  pose proof (keeps_mutexes_multi_try self keys creator e' scf o2m values w2)
    as Hk3.
  destruct (multi_try self keys creator e' scf o2m values w2)
    as [[res|exn|] w3] eqn:Htry; cbn [snd] in Hk3; [| |discriminate].
  2:{ destruct (multi_finally w3) as [[u|exn'|] w4]; discriminate. }
  pose proof (keeps_mutexes_multi_finally w3) as Hk4.
  destruct (multi_finally w3) as [[u|exn'|] w4]; cbn [snd] in Hk4;
    [|discriminate|discriminate].
  injection Hrun as -> ->.
  unfold same_mutexes in Hk3, Hk4. rewrite Hk4, Hk3 in Hk.
  destruct (mutexes w2) as [|m ms] eqn:Hm; [destruct Hk|].
  set (ktg := sorted_set (dict_keys (m :: ms))) in *.
  assert (In k ktg) as Hktg by (apply In_sorted_set; exact Hk).
  destruct (multi_try_inv self keys creator e' scf o2m values w2 m ms
              (map g ktg) results Hm (Hc _ _))
    as (entries & Hitems & Hseq).
  { rewrite Htry. reflexivity. }
  destruct (sequence_results_lookup _ _ _ _ _ Hseq Hj) as (y & Hy & Hres).
  rewrite Hy. f_equal. clear Hy Hseq Htry.
  pose proof (In_combine_map_intro g ktg k Hktg) as Hitem.
  destruct (mangled_items_found _ _ _ _ _ Hitems Hitem) as (mk & Hmk).
  pose proof (orig_to_mangled_get _ _ _ _ Hmk) as ->.
  pose proof (mangled_items_keys _ _ _ _ _ _ Hitems Hitem Hmk) as Hentry.
  destruct (stamp_entries_keys (clock w2) (S (S (ticks w2))) _ _ _ Hentry)
    as (cv1 & Hcv1).
  set (stamps := stamp_entries (clock w2) (S (S (ticks w2))) entries) in *.
  destruct (last_assoc_exists _ _ _ Hcv1) as (cv2 & Hcv2).
  assert (dict_get (mangle self k) (dict_update [] stamps) = Some cv2)
    as Hcreated by (rewrite dict_get_update, Hcv2; reflexivity).
  apply dict_get_In in Hcreated.
  assert (In (mangle self k, Cached cv2)
            (map (fun kv : string * CachedValue => (fst kv, Cached (snd kv)))
               (dict_update [] stamps))) as Hin.
  { apply in_map_iff. exists (mangle self k, cv2).
    split; [reflexivity|exact Hcreated]. }
  destruct (last_assoc_exists _ _ _ Hin) as (value & Hvalue).
  unfold multi_result in Hres. rewrite Hmk, dict_get_update, Hvalue in Hres.
  injection Hres as <-.
  apply last_assoc_In, in_map_iff in Hvalue.
  destruct Hvalue as ([mk' cv] & [= Hmk' <-] & Hcv). subst mk'.
  cbn [payload_of]. f_equal.
  destruct (dict_update_In _ _ _ _ Hcv) as [[]|Hcv'].
  apply stamp_entries_In in Hcv'.
  destruct (mangled_items_In _ _ _ _ _ Hitems Hcv') as (k' & Hk' & Hmk').
  pose proof (In_combine_map _ _ _ _ Hk') as Hg.
  apply orig_to_mangled_get in Hmk'. apply Hinj in Hmk'. subst k'.
  exact Hg.
Qed.

(** Generation in line honours [should_cache_fn].  In a region without
    [async_creation_runner], [get_or_create] makes no backend write at
    all when [should_cache_fn] refuses what the creator returns (the
    store and the write calls are as before, however the call ends), and
    on a miss with the mutex free it returns the creator's value.  [get_or_create_multi] returns, for every
    key it regenerates, the creator's value for that key, and when
    [should_cache_fn] refuses that value the backend holds under the
    mangled key what it held before. *)
Theorem refused_values_are_returned_and_not_written :
  (forall (self : CacheRegion) key creator e (f : ValuePayload -> bool)
          args w,
     async_creation_runner self = None ->
     (forall w0 x, creator_call creator args w0 = Ok x -> f x = false) ->
     let r := get_or_create self key creator e (Some f) args w in
     store (snd r) = store w
     /\ writes (snd r) = writes w
     /\ (forall value x,
           stored_envelope self w (mangle self key) = Ok value ->
           is_miss w value ->
           mangle self key ∉ held w ->
           (forall w0, creator_call creator args w0 = Ok x) ->
           effective_expiration_time self e <> None
           \/ DefaultInvalidationStrategy.was_soft_invalidated
                (region_invalidator w) = false ->
           fst r = Return x))
  /\ (forall (self : CacheRegion) keys creator (g : string -> ValuePayload)
             e (f : ValuePayload -> bool) w results w',
        (forall ks w0, creator ks w0 = Ok (map g ks)) ->
        (forall k1 k2, mangle self k1 = mangle self k2 -> k1 = k2) ->
        get_or_create_multi self keys creator e (Some f) w
          = (Return results, w') ->
        forall j k,
          keys !! j = Some k ->
          In k (dict_keys (mutexes w')) ->
          f (g k) = false ->
          results !! j = Some (Some (g k))
          /\ store w' !! mangle self k = store w !! mangle self k).
Proof.
  split.
  - intros self key creator e f args w Hasync Hf r.
    destruct (get_or_create_refused_keeps_backend self key creator e f args
                Hasync Hf w) as [Hstore Hwrites].
    split; [exact Hstore|]. split; [exact Hwrites|].
    intros value x Hs Hmiss Hfree Hc Hsoft. unfold r.
    rewrite (get_or_create_generates self key creator e (Some f) args w
               value x Hs Hmiss Hfree (Hc _)).
    assert (match effective_expiration_time self e with
            | None => true | Some _ => false end
            && DefaultInvalidationStrategy.was_soft_invalidated
                 (region_invalidator w) = false) as ->.
    { destruct Hsoft as [He | Hw].
      - destruct (effective_expiration_time self e);
          [reflexivity|congruence].
      - rewrite Hw. apply andb_false_r. }
    rewrite (Hf _ _ (Hc w)). reflexivity.
  - intros self keys creator g e f w results w' Hc Hinj Hrun j k Hj Hk Hfk.
    split.
    + apply (get_or_create_multi_generated self keys creator g e (Some f)
               w results w' Hc Hinj Hrun j k Hj Hk).
    + pose proof (get_or_create_multi_refused_keeps_item self keys creator
                    e f (mangle self k)) as Hkeep.
      unfold keeps, same_item in Hkeep.
      assert (forall ks w0 vs k' v,
                creator ks w0 = Ok vs -> In (k', v) (combine ks vs) ->
                mangle self k' = mangle self k -> f v = false) as Hrefused.
      { intros ks w0 vs k' v Hvs Hin Hmk. rewrite Hc in Hvs.
        injection Hvs as <-. apply In_combine_map in Hin.
        apply Hinj in Hmk. subst. exact Hfk. }
      rewrite <- (Hkeep Hrefused w), Hrun. reflexivity.
Qed.

Lemma refused_values_witness :
  fst (get_or_create plain_region "k" creator_42 None (Some refuse_all) None
         empty_world) = Return (PyInt 42)
  /\ store (snd (get_or_create plain_region "k" creator_42 None
                   (Some refuse_all) None empty_world)) = store empty_world
  /\ fst (get_or_create_multi mangling_region ["b"; "a"] creator_of_keys
            None (Some refuse_a) empty_world)
     = Return [Some (PyStr "b"); Some (PyStr "a")]
  /\ store (snd (get_or_create_multi mangling_region ["b"; "a"]
                   creator_of_keys None (Some refuse_a) empty_world))
       !! mangle mangling_region "a"
     = store empty_world !! mangle mangling_region "a".
Proof.
  destruct refused_values_are_returned_and_not_written as [Hone Hmulti].
  destruct (Hone plain_region "k" creator_42 None refuse_all None
              empty_world) as (H1 & _ & H2); [reflexivity|reflexivity|].
  set (run := get_or_create_multi mangling_region ["b"; "a"] creator_of_keys
                None (Some refuse_a) empty_world).
  assert (fst run = Return [Some (PyStr "b"); Some (PyStr "a")]) as Hfst
    by (vm_compute; reflexivity).
  assert (In "a" (dict_keys (mutexes (snd run)))) as Hin
    by (vm_compute; left; reflexivity).
  pose proof (surjective_pairing run) as Hrun. rewrite Hfst in Hrun.
  destruct (Hmulti mangling_region ["b"; "a"] creator_of_keys PyStr None
              refuse_a empty_world _ _ (fun _ _ => eq_refl)
              (fun k1 k2 H => String.app_inj _ _ _ H) Hrun 1%nat "a"
              eq_refl Hin eq_refl)
    as [_ H4].
  split; [|split; [exact H1|split; [exact Hfst|exact H4]]].
  apply (H2 NO_VALUE (PyInt 42)); [reflexivity|exact I| |reflexivity|].
  - vm_compute. set_solver.
  - right. reflexivity.
Defined.

(** C5.  With an [async_creation_runner] the region does not do what
    the claim and the docstring of [should_cache_fn] say.  The region
    expires values after five seconds and has the runner of the class
    docstring; "a" was stored ten seconds before the clock starts;
    [should_cache_fn] refuses every value.  [get_or_create] hands the
    runner the creator only: the call returns the stale payload 7, not
    the creator's 42, and the refused 42 is written under "a"; the mutex
    is released.  The same call in the region without the runner returns
    42 and writes nothing. *)
Theorem C5_async_runner_stores_the_refused_value :
  let w := world_with "a" (Obj current_envelope) in
  let r := get_or_create async_region "a" creator_42 None (Some refuse_all)
             None w in
  let r' := get_or_create expiring_region "a" creator_42 None
              (Some refuse_all) None w in
  refuse_all (PyInt 42) = false
  /\ fst r = Return (PyInt 7)
  /\ store (snd r) !! "a"
     = Some (Obj (mkCachedValue (PyInt 42)
                    [("ct", JInt (1700000001 * second));
                     ("v", JInt value_version)]))
  /\ store (snd r) !! "a" <> store w !! "a"
  /\ writes (snd r) <> writes w
  /\ held (snd r) = held w
  /\ fst r' = Return (PyInt 42)
  /\ store (snd r') = store w
  /\ writes (snd r') = writes w.
Proof.
  cbv zeta.
  split; [reflexivity|].
  split; [vm_compute; reflexivity|].
  split; [vm_compute; reflexivity|].
  split; [vm_compute; discriminate|].
  split; [vm_compute; discriminate|].
  split; [vm_compute; reflexivity|].
  split; [vm_compute; reflexivity|].
  split; vm_compute; reflexivity.
Qed.

(** *** C2: creation times of a multi-key write *)

Lemma set_multi_run (self : CacheRegion) kv mapping w :
  set_multi self (kv :: mapping) w =
  match serializer self with
  | Some ser =>
      backend_set_serialized_multi
        (dict_of_items
           (map (fun kv0 =>
                   (mangle self (fst kv0),
                    (list_byte_of_string
                       (Json_codec.json_dumps (shared_metadata w))
                       ++ pipe :: ser (snd kv0))%list))
              (kv :: mapping)))
        (set_ticks (S (ticks w)) w)
  | None =>
      backend_set_multi
        (dict_of_items
           (map (fun kv0 =>
                   (mangle self (fst kv0),
                    mkCachedValue (snd kv0) (shared_metadata w)))
              (kv :: mapping)))
        (set_ticks (S (ticks w)) w)
  end.
Proof.
  unfold set_multi. unfold bind at 1. unfold _gen_metadata at 1.
  unfold bind at 1, time_time at 1. cbv beta iota. unfold ret at 1.
  cbv beta iota. fold (shared_metadata w).
  destruct (serializer self) as [ser|] eqn:Hser.
  - unfold bind at 1.
    rewrite (mapM_pure _
               (fun kv0 : string * ValuePayload =>
                  (mangle self (fst kv0),
                   (list_byte_of_string
                      (Json_codec.json_dumps (shared_metadata w))
                      ++ pipe :: ser (snd kv0))%list))).
    + reflexivity.
    + intros x w0. unfold bind, _serialized_payload, bind, ret, lift,
        _serialize_cached_value_elements. rewrite Hser. reflexivity.
  - unfold bind at 1.
    rewrite (mapM_pure _
               (fun kv0 : string * ValuePayload =>
                  (mangle self (fst kv0),
                   mkCachedValue (snd kv0) (shared_metadata w)))).
    + reflexivity.
    + intros x w0. reflexivity.
Qed.

Lemma stamp_entries_lookup clock t entries i mk v :
  entries !! i = Some (mk, v) ->
  stamp_entries clock t entries !! i
  = Some (mk, mkCachedValue v
                [("ct", JInt (clock (t + i)%nat));
                 ("v", JInt value_version)]).
Proof.
  revert t i. induction entries as [|[mk' v'] entries IH]; intros t i;
    [intros [=]|].
  destruct i as [|i]; cbn [stamp_entries].
  - intros [= -> ->]. rewrite Nat.add_0_r. reflexivity.
  - intros H. specialize (IH (S t) i H).
    replace (t + S i)%nat with (S t + i)%nat by lia. exact IH.
Qed.

(** The claim C2 fails for [get_or_create_multi]: with the values of "a"
    and "b" expired and a clock that advances, the two envelopes it
    writes carry different creation times. *)
Lemma C2_counterexample :
  let r := get_or_create_multi expiring_region ["a"; "b"] creator_of_keys
             None None two_stale_world in
  fst r = Return [Some (PyStr "a"); Some (PyStr "b")]
  /\ store (snd r) !! "a"
     = Some (Obj (mkCachedValue (PyStr "a")
                    [("ct", JInt (1700000004 * second));
                     ("v", JInt value_version)]))
  /\ store (snd r) !! "b"
     = Some (Obj (mkCachedValue (PyStr "b")
                    [("ct", JInt (1700000005 * second));
                     ("v", JInt value_version)]))
  /\ 1700000004 * second <> 1700000005 * second.
Proof.
  cbv zeta. split; [vm_compute; reflexivity|].
  split; [vm_compute; reflexivity|]. split; [vm_compute; reflexivity|].
  vm_compute. discriminate.
Qed.

(** C2, amended.  [set_multi] on a non-empty mapping reads the clock
    once and passes the backend a mapping all of whose envelopes carry
    that one metadata record.  [get_or_create_multi] wraps each newly
    created value with [_value], which reads the clock again: the i-th
    envelope it makes carries the i-th clock reading after the creator
    returned, and these envelopes are what it hands to the backend. *)
Theorem C2_creation_times_of_multi_writes :
  (forall (self : CacheRegion) kv mapping w,
     let r := set_multi self (kv :: mapping) w in
     fst r = Return tt
     /\ ticks (snd r) = S (ticks w)
     /\ match serializer self with
        | None =>
            exists written,
              calls (snd r) = call_set_multi written :: calls w
              /\ forall k cv, In (k, cv) written ->
                   metadata cv = shared_metadata w
        | Some ser =>
            exists written,
              calls (snd r) = call_set_serialized_multi written :: calls w
              /\ forall k b, In (k, b) written ->
                   exists v,
                     b = (list_byte_of_string
                            (Json_codec.json_dumps (shared_metadata w))
                            ++ pipe :: ser v)%list
        end)
  /\ (forall (self : CacheRegion) keys creator e o2m values w m ms vs
             entries,
        mutexes w = m :: ms ->
        creator (sorted_set (dict_keys (m :: ms))) (set_ticks (S (ticks w)) w)
          = Ok vs ->
        mangled_items o2m (combine (sorted_set (dict_keys (m :: ms))) vs)
          = Some entries ->
        match e with None => true | Some _ => false end
        && DefaultInvalidationStrategy.was_soft_invalidated
             (region_invalidator w) = false ->
        let created := stamp_entries (clock w) (S (S (ticks w))) entries in
        snd (multi_try self keys creator e None o2m values w)
        = snd (_set_multi_cached_value_to_backend self
                 (dict_update [] created)
                 (set_ticks (S (S (ticks w)) + length entries) w))
        /\ forall i mk v,
             entries !! i = Some (mk, v) ->
             created !! i
             = Some (mk, mkCachedValue v
                           [("ct", JInt (clock w (S (S (ticks w)) + i)%nat));
                            ("v", JInt value_version)])).
Proof.
  split.
  - intros self kv mapping w r. unfold r. rewrite set_multi_run.
    destruct (serializer self) as [ser|].
    + split; [reflexivity|]. split; [reflexivity|].
      eexists. split; [reflexivity|]. intros k b Hin.
      destruct (dict_update_In _ _ _ _ Hin) as [[]|Hin'].
      apply in_map_iff in Hin'. destruct Hin' as (kv0 & [= _ <-] & _).
      eexists. reflexivity.
    + split; [reflexivity|]. split; [reflexivity|].
      eexists. split; [reflexivity|]. intros k cv Hin.
      destruct (dict_update_In _ _ _ _ Hin) as [[]|Hin'].
      apply in_map_iff in Hin'. destruct Hin' as (kv0 & [= _ <-] & _).
      reflexivity.
  - intros self keys creator e o2m values w m ms vs entries Hm Hc Hitems
      Hsoft created. split.
    + unfold multi_try.
      unfold bind at 1, get_world at 1. cbv beta iota. rewrite Hm.
      unfold bind at 1. unfold bind at 1. rewrite _log_time_call, Hc.
      cbv beta iota. unfold bind at 1.
      rewrite (values_w_created_run _ _ _ _ _ Hitems). cbv beta iota.
      unfold bind at 1, get_world at 1. cbv beta iota.
      cbn [region_invalidator set_ticks clock ticks]. rewrite Hsoft.
      unfold bind at 1. fold created.
      assert (length (combine (sorted_set (dict_keys (m :: ms))) vs)
              = length entries) as ->.
      { clear -Hitems. revert entries Hitems.
        induction (combine (sorted_set (dict_keys (m :: ms))) vs)
          as [|[k v] items IH]; intros entries.
        - intros [= <-]. reflexivity.
        - cbn [mangled_items]. destruct (dict_get k o2m); [|discriminate].
          destruct (mangled_items o2m items) as [entries'|];
            [|discriminate].
          intros [= <-]. cbn [length]. f_equal. apply IH. reflexivity. }
      change (set_ticks (S (S (ticks w)) + length entries)
                (set_ticks (S (S (ticks w))) w))
        with (set_ticks (S (S (ticks w)) + length entries) w).
      match goal with
      | |- context [_set_multi_cached_value_to_backend self ?mp ?w0] =>
          destruct (_set_multi_cached_value_returns self mp w0) as [Hr _];
          destruct (_set_multi_cached_value_to_backend self mp w0)
            as [o w4]
      end.
      cbn [fst] in Hr. subst o. unfold ret at 1. cbv beta iota.
      rewrite (mapM_lift_ext _ (multi_result o2m _) keys w4
                 (multi_result_run o2m _)).
      reflexivity.
    + intros i mk v Hi. apply stamp_entries_lookup. exact Hi.
Qed.

Lemma C2_witness :
  ticks (snd (set_multi plain_region [("x", PyInt 1); ("y", PyInt 2)]
                empty_world)) = 1%nat
  /\ stamp_entries (clock (set_mutexes [("a", "a"); ("b", "b")] empty_world))
       2 [("a", PyStr "a"); ("b", PyStr "b")] !! 1%nat
     = Some ("b", mkCachedValue (PyStr "b")
                    [("ct", JInt (example_clock 3));
                     ("v", JInt value_version)]).
Proof.
  destruct C2_creation_times_of_multi_writes as [Hset Hmulti].
  destruct (Hset plain_region ("x", PyInt 1) [("y", PyInt 2)] empty_world)
    as (_ & H1 & _).
  destruct (Hmulti plain_region ["a"; "b"] creator_of_keys None
              [("a", "a"); ("b", "b")] []
              (set_mutexes [("a", "a"); ("b", "b")] empty_world)
              ("a", "a") [("b", "b")] [PyStr "a"; PyStr "b"]
              [("a", PyStr "a"); ("b", PyStr "b")]
              eq_refl eq_refl eq_refl eq_refl) as [_ H2].
  split; [exact H1|]. exact (H2 1%nat "b" (PyStr "b") eq_refl).
Defined.

(** *** C6: the encoded form of an envelope *)

Lemma partition_pipe_app (before rest : bytes) :
  ~ In pipe before ->
  partition_pipe (before ++ pipe :: rest)%list = (before, rest).
Proof.
  induction before as [|b before IH]; intros Hno.
  - cbn [app partition_pipe].
    rewrite (Byte.byte_dec_lb (eq_refl pipe)). reflexivity.
  - cbn [app partition_pipe].
    destruct (Byte.eqb b pipe) eqn:E.
    + apply Byte.byte_dec_bl in E. exfalso. apply Hno. left. exact E.
    + rewrite IH; [reflexivity|]. intros H. apply Hno. right. exact H.
Qed.

(** The claim C6 fails for metadata with an extra key that contains a
    pipe: the metadata goes through JSON unchanged and the payload through
    the serializer, yet decoding the encoded envelope splits inside the
    key and raises instead of returning the envelope. *)
Lemma C6_counterexample :
  example_deserializer (example_serializer (PyInt 7)) = Ok (PyInt 7)
  /\ Json_codec.json_loads
       (list_byte_of_string (Json_codec.json_dumps metadata_with_pipe))
     = Ok metadata_with_pipe
  /\ exists b,
       _serialize_cached_value_elements serializing_region (PyInt 7)
         metadata_with_pipe = Ok b
       /\ _parse_serialized_from_backend serializing_region (Some b)
          = Err JSONDecodeError
       /\ _parse_serialized_from_backend serializing_region (Some b)
          <> Ok (Cached (mkCachedValue (PyInt 7) metadata_with_pipe)).
Proof.
  split; [vm_compute; reflexivity|]. split; [vm_compute; reflexivity|].
  eexists. split; [reflexivity|].
  split; [vm_compute; reflexivity|]. vm_compute. discriminate.
Qed.

(** C6, amended.  With a serializer and a deserializer configured, the
    encoded form of an envelope is the JSON text of the metadata, one pipe
    byte, and the serialized payload; decoding splits at the first pipe
    byte.  For every payload that the deserializer takes back from the
    serializer's bytes and every metadata record that goes through JSON
    unchanged and whose JSON text contains no pipe byte, decoding the
    encoded envelope gives the same payload and the same metadata, also
    when the serialized payload contains pipe bytes. *)
Theorem C6_envelope_round_trip
  (self : CacheRegion) (ser : ValuePayload -> bytes)
  (des : bytes -> Result ValuePayload) (p : ValuePayload)
  (md : MetaDataType) :
  serializer self = Some ser ->
  deserializer self = Some des ->
  des (ser p) = Ok p ->
  Json_codec.json_loads (list_byte_of_string (Json_codec.json_dumps md))
    = Ok md ->
  ~ In pipe (list_byte_of_string (Json_codec.json_dumps md)) ->
  _serialize_cached_value_elements self p md
    = Ok (list_byte_of_string (Json_codec.json_dumps md) ++ pipe :: ser p)%list
  /\ partition_pipe
       (list_byte_of_string (Json_codec.json_dumps md) ++ pipe :: ser p)%list
     = (list_byte_of_string (Json_codec.json_dumps md), ser p)
  /\ _parse_serialized_from_backend self
       (Some (list_byte_of_string (Json_codec.json_dumps md)
                ++ pipe :: ser p)%list)
     = Ok (Cached (mkCachedValue p md)).
Proof.
  intros Hser Hdes Hround Hjson Hpipe.
  pose proof (partition_pipe_app _ (ser p) Hpipe) as Hpart.
  split; [|split; [exact Hpart|]].
  - unfold _serialize_cached_value_elements. rewrite Hser. reflexivity.
  - rewrite (_parse_serialized_run self des _ md Hdes).
    + rewrite Hpart. cbn [snd]. rewrite Hround. reflexivity.
    + rewrite Hpart. exact Hjson.
Qed.

Lemma C6_witness :
  _parse_serialized_from_backend serializing_region
    (Some (list_byte_of_string
             (Json_codec.json_dumps (metadata current_envelope))
             ++ pipe :: example_serializer (PyStr "x|y|z"))%list)
  = Ok (Cached (mkCachedValue (PyStr "x|y|z") (metadata current_envelope))).
Proof.
  apply (C6_envelope_round_trip serializing_region example_serializer
           example_deserializer (PyStr "x|y|z") (metadata current_envelope)).
  - reflexivity.
  - reflexivity.
  - vm_compute. reflexivity.
  - vm_compute. reflexivity.
  - vm_compute. intros H.
    repeat (destruct H as [H|H]; [discriminate H|]). exact H.
Defined.

(** *** The JSON text of the metadata the region generates *)

Lemma append_assoc (a b c : string) : ((a ++ b) ++ c = a ++ (b ++ c))%string.
Proof.
  induction a as [|x a IH]; [reflexivity|].
  change (String x ((a ++ b) ++ c) = String x (a ++ (b ++ c)))%string.
  f_equal. exact IH.
Qed.

Lemma append_cons (c : ascii) (a b : string) :
  (String c a ++ b = String c (a ++ b))%string.
Proof. reflexivity. Qed.

Lemma append_nil_l (b : string) : (EmptyString ++ b = b)%string.
Proof. reflexivity. Qed.

Lemma read_digits_digit (c : ascii) d (s : string) :
  Json_codec.digit_of c = Some d ->
  Json_codec.read_digits (String c s)
  = (d (fst (Json_codec.read_digits s)), snd (Json_codec.read_digits s)).
Proof.
  intros H. cbn [Json_codec.read_digits]. rewrite H.
  destruct (Json_codec.read_digits s). reflexivity.
Qed.

Lemma read_digits_uint (u : Decimal.uint) (rest : string) :
  ends_integer rest = true ->
  Json_codec.read_digits (NilEmpty.string_of_uint u ++ rest) = (u, rest).
Proof.
  intros Hrest.
  induction u as [|u IH|u IH|u IH|u IH|u IH|u IH|u IH|u IH|u IH|u IH];
    cbn [NilEmpty.string_of_uint]; rewrite ?append_cons, ?append_nil_l.
  1:{ destruct rest as [|c rest]; [reflexivity|].
      cbn [Json_codec.read_digits]. unfold ends_integer in Hrest.
      destruct (Json_codec.digit_of c); [discriminate|reflexivity]. }
  all: erewrite read_digits_digit by reflexivity; rewrite IH; reflexivity.
Qed.

Lemma to_uint_normal (p : positive) :
  Decimal.unorm (Pos.to_uint p) = Pos.to_uint p.
Proof.
  rewrite <- (DecimalPos.Unsigned.to_of (Pos.to_uint p)).
  rewrite DecimalPos.Unsigned.of_to. reflexivity.
Qed.

Lemma to_uint_no_leading_zero (p : positive) (u : Decimal.uint) :
  Pos.to_uint p <> Decimal.D0 u.
Proof.
  intros H. pose proof (to_uint_normal p) as Hn. rewrite H in Hn.
  rewrite DecimalFacts.unorm_D0 in Hn.
  destruct (Decimal.uint_eq_dec u Decimal.Nil) as [->|Hu].
  - apply (DecimalPos.Unsigned.to_uint_nonzero p). exact H.
  - pose proof (DecimalFacts.nb_digits_unorm u Hu) as Hlen.
    rewrite Hn in Hlen. cbn [Decimal.nb_digits] in Hlen. lia.
Qed.

Lemma checked_digits_to_uint (p : positive) (rest : string) :
  ends_integer rest = true ->
  Json_codec.checked_digits (NilEmpty.string_of_uint (Pos.to_uint p) ++ rest)
  = Some (Pos.to_uint p, rest).
Proof.
  intros Hrest. unfold Json_codec.checked_digits.
  rewrite (read_digits_uint _ _ Hrest).
  assert (Json_codec.starts_float_tail rest = false) as Hfloat.
  { unfold ends_integer in Hrest. destruct rest as [|c rest]; [reflexivity|].
    destruct (Json_codec.digit_of c); [discriminate|].
    apply negb_true_iff. exact Hrest. }
  pose proof (to_uint_no_leading_zero p) as Hz.
  pose proof (DecimalPos.Unsigned.to_uint_nonnil p) as Hnil.
  destruct (Pos.to_uint p) as [|u|u|u|u|u|u|u|u|u|u];
    try (rewrite Hfloat; reflexivity).
  - contradiction.
  - exfalso. apply (Hz u). reflexivity.
Qed.

(** The first character of the decimal text of a positive number is a
    digit. *)
Lemma string_of_to_uint_head (p : positive) :
  exists c s d,
    NilEmpty.string_of_uint (Pos.to_uint p) = String c s
    /\ Json_codec.digit_of c = Some d.
Proof.
  pose proof (DecimalPos.Unsigned.to_uint_nonnil p) as Hnil.
  destruct (Pos.to_uint p) as [|u|u|u|u|u|u|u|u|u|u]; [contradiction| ..];
    cbn [NilEmpty.string_of_uint]; do 3 eexists; split; reflexivity.
Qed.

Lemma digit_is_plain (c : ascii) d :
  Json_codec.digit_of c = Some d ->
  Ascii.eqb c "-" = false /\ Ascii.eqb c Json_codec.quote = false
  /\ Json_codec.is_ws c = false /\ byte_of_ascii c <> pipe.
Proof.
  unfold Json_codec.digit_of. intros H.
  assert (c = ascii_of_nat (nat_of_ascii c)) as Hc
    by (symmetry; apply ascii_nat_embedding).
  destruct (nat_of_ascii c) as [|n] eqn:E; [discriminate|].
  do 47 (destruct n as [|n]; [discriminate|]).
  do 10 (destruct n as [|n];
         [rewrite Hc; repeat split; try reflexivity; discriminate|]).
  discriminate.
Qed.

Lemma dumps_int_shape (z : Z) :
  (exists c s d, Json_codec.dumps_int z = String c s
                 /\ Json_codec.digit_of c = Some d)
  \/ (exists p, z = Z.neg p
                /\ Json_codec.dumps_int z
                   = String "-" (NilEmpty.string_of_uint (Pos.to_uint p))).
Proof.
  unfold Json_codec.dumps_int. destruct z as [|p|p]; cbn [Z.to_int].
  - left. do 3 eexists. split; reflexivity.
  - left. cbn [NilZero.string_of_int].
    destruct (string_of_to_uint_head p) as (c & s & d & Hs & Hd).
    exists c, s, d. split; [|exact Hd].
    unfold NilZero.string_of_uint.
    pose proof (DecimalPos.Unsigned.to_uint_nonnil p) as Hnil.
    destruct (Pos.to_uint p); [contradiction|exact Hs ..].
  - right. exists p. split; [reflexivity|].
    cbn [NilZero.string_of_int]. f_equal.
    unfold NilZero.string_of_uint.
    pose proof (DecimalPos.Unsigned.to_uint_nonnil p) as Hnil.
    destruct (Pos.to_uint p); [contradiction|reflexivity ..].
Qed.

Lemma string_of_uint_nonnil (p : positive) :
  NilZero.string_of_uint (Pos.to_uint p)
  = NilEmpty.string_of_uint (Pos.to_uint p).
Proof.
  unfold NilZero.string_of_uint.
  pose proof (DecimalPos.Unsigned.to_uint_nonnil p) as Hnil.
  destruct (Pos.to_uint p); [contradiction|reflexivity ..].
Qed.

(** Reading back the decimal text of an integer. *)
Lemma loads_int_dumps_int (z : Z) (rest : string) :
  ends_integer rest = true ->
  Json_codec.loads_int (Json_codec.dumps_int z ++ rest) = Some (z, rest).
Proof.
  intros Hrest. unfold Json_codec.dumps_int.
  destruct z as [|p|p]; cbn [Z.to_int NilZero.string_of_int].
  - change (NilZero.string_of_uint (Decimal.D0 Decimal.Nil))
      with (NilEmpty.string_of_uint (Decimal.D0 Decimal.Nil)).
    cbn [NilEmpty.string_of_uint]. rewrite append_cons, append_nil_l.
    unfold Json_codec.loads_int.
    change (Ascii.eqb "0" "-") with false. cbv iota.
    unfold Json_codec.checked_digits.
    rewrite (read_digits_digit "0" Decimal.D0) by reflexivity.
    pose proof (read_digits_uint Decimal.Nil rest Hrest) as Hr.
    cbn [NilEmpty.string_of_uint] in Hr. rewrite append_nil_l in Hr.
    rewrite Hr. cbn [fst snd].
    assert (Json_codec.starts_float_tail rest = false) as ->.
    { unfold ends_integer in Hrest.
      destruct rest as [|c rest]; [reflexivity|].
      destruct (Json_codec.digit_of c); [discriminate|].
      apply negb_true_iff. exact Hrest. }
    reflexivity.
  - rewrite string_of_uint_nonnil.
    destruct (string_of_to_uint_head p) as (c & s & d & Hs & Hd).
    pose proof (checked_digits_to_uint p rest Hrest) as Hchk.
    rewrite Hs in *. rewrite append_cons in *.
    unfold Json_codec.loads_int.
    destruct (digit_is_plain c d Hd) as (-> & _).
    rewrite Hchk. f_equal. f_equal.
    apply (DecimalZ.of_to (Z.pos p)).
  - rewrite string_of_uint_nonnil. rewrite append_cons.
    unfold Json_codec.loads_int.
    change (Ascii.eqb "-" "-") with true. cbv iota.
    rewrite (checked_digits_to_uint p rest Hrest). f_equal. f_equal.
    apply (DecimalZ.of_to (Z.neg p)).
Qed.

Lemma loads_value_dumps_int (z : Z) (rest : string) :
  ends_integer rest = true ->
  Json_codec.loads_value (Json_codec.dumps_int z ++ rest)
  = Some (JInt z, rest).
Proof.
  intros Hrest. pose proof (loads_int_dumps_int z rest Hrest) as Hint.
  destruct (dumps_int_shape z) as [(c & s & d & Hs & Hd)|(p & -> & Hs)];
    rewrite Hs in *; rewrite append_cons in *;
    unfold Json_codec.loads_value.
  - destruct (digit_is_plain c d Hd) as (_ & -> & _).
    rewrite Hint. reflexivity.
  - change (Ascii.eqb "-" Json_codec.quote) with false. cbv iota.
    rewrite Hint. reflexivity.
Qed.

Lemma skip_ws_dumps_int (z : Z) (rest : string) :
  Json_codec.skip_ws (Json_codec.dumps_int z ++ rest)
  = (Json_codec.dumps_int z ++ rest)%string.
Proof.
  destruct (dumps_int_shape z) as [(c & s & d & Hs & Hd)|(p & -> & Hs)];
    rewrite Hs; rewrite append_cons; cbn [Json_codec.skip_ws].
  - destruct (digit_is_plain c d Hd) as (_ & _ & -> & _). reflexivity.
  - reflexivity.
Qed.

(** The JSON text of a record {"ct": t, "v": n}. *)
Lemma json_dumps_ct_v (t n : Z) :
  Json_codec.json_dumps [("ct", JInt t); ("v", JInt n)]
  = String "{"
      (String Json_codec.quote
         (String "c"
            (String "t"
               (String Json_codec.quote
                  (String ":"
                     (String " "
                        (Json_codec.dumps_int t
                         ++ String ","
                              (String " "
                                 (String Json_codec.quote
                                    (String "v"
                                       (String Json_codec.quote
                                          (String ":"
                                             (String " "
                                                (Json_codec.dumps_int n
                                                 ++ "}"))))))))))))))%string.
Proof.
  unfold Json_codec.json_dumps.
  cbn [Json_codec.dumps_members Json_codec.dumps_member fst snd
       Json_codec.dumps_value].
  change (Json_codec.dumps_string "ct")
    with (String Json_codec.quote
            (String "c" (String "t" (String Json_codec.quote EmptyString)))).
  change (Json_codec.dumps_string "v")
    with (String Json_codec.quote
            (String "v" (String Json_codec.quote EmptyString))).
  repeat progress (rewrite ?append_assoc, ?append_cons, ?append_nil_l).
  reflexivity.
Qed.

Lemma loads_members_S fuel acc s :
  Json_codec.loads_members (S fuel) acc s
  = match Json_codec.loads_member s with
    | Some ((k, x), rest) =>
        let acc' := dict_set k x acc in
        match Json_codec.skip_ws rest with
        | String c rest' =>
            if Ascii.eqb c ","
            then Json_codec.loads_members fuel acc' (Json_codec.skip_ws rest')
            else if Ascii.eqb c "}" then Some (acc', rest')
            else None
        | EmptyString => None
        end
    | None => None
    end.
Proof. reflexivity. Qed.

(** Evaluate the tests on the literal characters of the goal. *)
Ltac eval_chars :=
  repeat progress
    (cbn [Json_codec.skip_ws Json_codec.loads_string_body];
     repeat match goal with
       | |- context [Ascii.eqb ?a ?b] =>
           let v := eval vm_compute in (Ascii.eqb a b) in
           progress change (Ascii.eqb a b) with v
       | |- context [Json_codec.is_ws ?a] =>
           let v := eval vm_compute in (Json_codec.is_ws a) in
           progress change (Json_codec.is_ws a) with v
       | |- context [Nat.ltb (nat_of_ascii ?a) 32] =>
           let v := eval vm_compute in (Nat.ltb (nat_of_ascii a) 32) in
           progress change (Nat.ltb (nat_of_ascii a) 32) with v
       end;
     cbv iota).

(** A member ["key": integer] whose key is "ct" or "v". *)
Lemma loads_member_ct (t : Z) (rest : string) :
  ends_integer rest = true ->
  Json_codec.loads_member
    (String Json_codec.quote
       (String "c"
          (String "t"
             (String Json_codec.quote
                (String ":" (String " " (Json_codec.dumps_int t ++ rest)))))))
  = Some (("ct", JInt t), rest).
Proof.
  intros Hrest. unfold Json_codec.loads_member. eval_chars.
  rewrite skip_ws_dumps_int, (loads_value_dumps_int _ _ Hrest). reflexivity.
Qed.

Lemma loads_member_v (n : Z) (rest : string) :
  ends_integer rest = true ->
  Json_codec.loads_member
    (String Json_codec.quote
       (String "v"
          (String Json_codec.quote
             (String ":" (String " " (Json_codec.dumps_int n ++ rest))))))
  = Some (("v", JInt n), rest).
Proof.
  intros Hrest. unfold Json_codec.loads_member. eval_chars.
  rewrite skip_ws_dumps_int, (loads_value_dumps_int _ _ Hrest). reflexivity.
Qed.

(** [json.loads(json.dumps(metadata))] on a record {"ct": t, "v": n}. *)
Lemma json_loads_dumps_ct_v (t n : Z) :
  Json_codec.json_loads
    (list_byte_of_string
       (Json_codec.json_dumps [("ct", JInt t); ("v", JInt n)]))
  = Ok [("ct", JInt t); ("v", JInt n)].
Proof.
  unfold Json_codec.json_loads.
  rewrite string_of_list_byte_of_string, json_dumps_ct_v.
  unfold Json_codec.loads_object. cbn [String.length]. eval_chars.
  rewrite loads_members_S, loads_member_ct by reflexivity.
  cbv zeta. eval_chars.
  rewrite loads_members_S, loads_member_v by reflexivity.
  cbv zeta. eval_chars. reflexivity.
Qed.

Lemma pipe_free_nil : pipe_free EmptyString.
Proof. intros []. Qed.

Lemma pipe_free_cons (c : ascii) (s : string) :
  byte_of_ascii c <> pipe -> pipe_free s -> pipe_free (String c s).
Proof.
  intros Hc Hs [H|H]; [apply Hc; exact H|apply Hs; exact H].
Qed.

Lemma pipe_free_app (a b : string) :
  pipe_free a -> pipe_free b -> pipe_free (a ++ b).
Proof.
  intros Ha Hb. induction a as [|c a IH]; [exact Hb|].
  rewrite append_cons. intros [H|H].
  - apply Ha. left. exact H.
  - apply IH; [|exact H]. intros H'. apply Ha. right. exact H'.
Qed.

Lemma pipe_free_uint (u : Decimal.uint) :
  pipe_free (NilEmpty.string_of_uint u).
Proof.
  induction u; cbn [NilEmpty.string_of_uint];
    [apply pipe_free_nil|apply pipe_free_cons; [discriminate|assumption] ..].
Qed.

Lemma pipe_free_dumps_int (z : Z) : pipe_free (Json_codec.dumps_int z).
Proof.
  unfold Json_codec.dumps_int.
  destruct z as [|p|p]; cbn [Z.to_int NilZero.string_of_int].
  - apply pipe_free_cons; [discriminate|apply pipe_free_nil].
  - rewrite string_of_uint_nonnil. apply pipe_free_uint.
  - rewrite string_of_uint_nonnil.
    apply pipe_free_cons; [discriminate|apply pipe_free_uint].
Qed.

(** The JSON text of a record {"ct": t, "v": n} has no pipe. *)
Lemma pipe_free_json_dumps_ct_v (t n : Z) :
  pipe_free (Json_codec.json_dumps [("ct", JInt t); ("v", JInt n)]).
Proof.
  rewrite json_dumps_ct_v.
  repeat (apply pipe_free_cons; [discriminate|]).
  apply pipe_free_app; [apply pipe_free_dumps_int|].
  repeat (apply pipe_free_cons; [discriminate|]).
  apply pipe_free_app; [apply pipe_free_dumps_int|].
  apply pipe_free_cons; [discriminate|apply pipe_free_nil].
Qed.

(** *** Writing and reading back *)

Lemma set_run (self : CacheRegion) key x w :
  let cv := generated_envelope x (clock w (ticks w)) in
  set self key x w =
  (Return tt,
   set_store (<[mangle self key := backend_item self cv]> (store w))
     (set_calls (write_call self (mangle self key) cv :: calls w)
        (set_ticks (S (ticks w)) w))).
Proof.
  unfold set, backend_item, write_call, _serialized_payload,
    _serialize_cached_value_elements.
  destruct (serializer self) as [ser|]; reflexivity.
Qed.

(** What was written for a generated envelope is read as that envelope. *)
Lemma stored_envelope_written (self : CacheRegion) w key x t :
  reads_back self x ->
  store w !! key = Some (backend_item self (generated_envelope x t)) ->
  stored_envelope self w key = Ok (Cached (generated_envelope x t)).
Proof.
  unfold reads_back, stored_envelope, backend_item, lookup_serialized,
    lookup_object.
  intros Hrb Hst. rewrite Hst.
  destruct (serializer self) as [ser|] eqn:Hser;
    destruct (deserializer self) as [des|] eqn:Hdes; try contradiction.
  - rewrite (_parse_serialized_run self des _ (generated_metadata t) Hdes).
    + rewrite partition_pipe_app
        by (apply (pipe_free_json_dumps_ct_v t value_version)).
      cbn [snd payload generated_envelope]. rewrite Hrb. reflexivity.
    + rewrite partition_pipe_app
        by (apply (pipe_free_json_dumps_ct_v t value_version)).
      apply json_loads_dumps_ct_v.
  - reflexivity.
Qed.

Lemma stored_envelope_absent (self : CacheRegion) w key :
  store w !! key = None ->
  stored_envelope self w key = Ok NO_VALUE.
Proof.
  unfold stored_envelope, lookup_serialized, lookup_object.
  intros ->. destruct (deserializer self); reflexivity.
Qed.

Lemma set_get_run (self : CacheRegion) key x e w :
  reads_back self x ->
  let w1 := snd (set self key x w) in
  fst (set self key x w) = Return tt
  /\ fst (get self key e true w1) = Return (Some x)
  /\ fst (get_value_metadata self key e true w1)
     = Return (Some (generated_envelope x (clock w (ticks w))))
  /\ (match (match e with
             | None => self_expiration_time self
             | Some e' => Some e'
             end) with
      | Some e' => clock w (S (ticks w)) - clock w (ticks w) <= e'
      | None => True
      end ->
      DefaultInvalidationStrategy.is_invalidated (region_invalidator w)
        (clock w (ticks w)) = false ->
      fst (get self key e false w1) = Return (Some x)).
Proof.
  intros Hrb w1.
  assert (stored_envelope self w1 (mangle self key)
          = Ok (Cached (generated_envelope x (clock w (ticks w))))) as Hs.
  { apply stored_envelope_written; [exact Hrb|].
    unfold w1. rewrite set_run. cbn [snd store set_store].
    apply lookup_insert_eq. }
  split; [rewrite set_run; reflexivity|].
  split; [apply (get_ignore_expiration _ _ _ _ _ Hs)|].
  split.
  - unfold get_value_metadata, _get_cache_value.
    unfold bind at 1. unfold bind at 1.
    rewrite _get_from_backend_run, Hs. reflexivity.
  - intros Hage Hinv.
    rewrite (get_run _ _ _ _ (clock w (ticks w)) _ Hs) by reflexivity.
    assert (clock w1 (ticks w1) = clock w (S (ticks w))) as ->
      by (unfold w1; rewrite set_run; reflexivity).
    assert (region_invalidator w1 = region_invalidator w) as ->
      by (unfold w1; rewrite set_run; reflexivity).
    rewrite Hinv.
    destruct (match e with
              | None => self_expiration_time self
              | Some e' => Some e'
              end) as [e'|]; [|reflexivity].
    rewrite Z.gtb_ltb.
    assert (Z.ltb e' (clock w (S (ticks w)) - clock w (ticks w)) = false)
      as -> by (apply Z.ltb_ge; exact Hage).
    reflexivity.
Qed.

(** A value that was [set] is read back.  In a region that reads back
    what it writes for [x], after [set(key, x)]: [get] with
    [ignore_expiration] returns [x]; [get_value_metadata] returns the
    envelope of [x] whose creation time is the clock reading [set] took
    and whose version is [value_version]; and plain [get] returns [x]
    when the time between the two clock readings is at most the
    expiration time in force and the region was not invalidated after
    that creation time. *)
Theorem set_then_get_returns_the_value (self : CacheRegion) key x e w :
  reads_back self x ->
  let w1 := snd (set self key x w) in
  fst (set self key x w) = Return tt
  /\ fst (get self key e true w1) = Return (Some x)
  /\ fst (get_value_metadata self key e true w1)
     = Return (Some (generated_envelope x (clock w (ticks w))))
  /\ (match (match e with
             | None => self_expiration_time self
             | Some e' => Some e'
             end) with
      | Some e' => clock w (S (ticks w)) - clock w (ticks w) <= e'
      | None => True
      end ->
      DefaultInvalidationStrategy.is_invalidated (region_invalidator w)
        (clock w (ticks w)) = false ->
      fst (get self key e false w1) = Return (Some x)).
Proof. exact (set_get_run self key x e w). Qed.

Lemma set_then_get_witness :
  fst (get serializing_region "k" None false
         (snd (set serializing_region "k" (PyInt 5) empty_world)))
  = Return (Some (PyInt 5)).
Proof.
  destruct (set_then_get_returns_the_value serializing_region "k" (PyInt 5)
              None empty_world) as (_ & _ & _ & H).
  - reflexivity.
  - apply H.
    + vm_compute. discriminate.
    + reflexivity.
Defined.

Lemma delete_get_run (self : CacheRegion) key e ie w :
  let w1 := snd (delete self key w) in
  fst (delete self key w) = Return tt
  /\ store w1 !! mangle self key = None
  /\ fst (get self key e ie w1) = Return None
  /\ fst (get_value_metadata self key e ie w1) = Return None
  /\ store (snd (delete self key w1)) = store w1.
Proof.
  intros w1.
  assert (store w1 !! mangle self key = None) as Hnone
    by (apply lookup_delete_eq).
  pose proof (stored_envelope_absent self w1 _ Hnone) as Hs.
  split; [reflexivity|]. split; [exact Hnone|].
  split; [|split].
  - destruct ie.
    + apply (get_ignore_expiration _ _ _ _ _ Hs).
    + unfold get, _get_cache_value.
      unfold bind at 1. unfold bind at 1.
      rewrite _get_from_backend_run, Hs. reflexivity.
  - unfold get_value_metadata, _get_cache_value.
    unfold bind at 1. unfold bind at 1.
    rewrite _get_from_backend_run, Hs. destruct ie; reflexivity.
  - unfold delete, backend_delete. cbn [snd store set_store].
    apply delete_id. exact Hnone.
Qed.

(** After [delete(key)] the backend holds nothing under the mangled key:
    [get] and [get_value_metadata] find no value, whatever their
    arguments, and deleting again changes nothing. *)
Theorem delete_then_get_finds_nothing (self : CacheRegion) key e ie w :
  let w1 := snd (delete self key w) in
  fst (delete self key w) = Return tt
  /\ store w1 !! mangle self key = None
  /\ fst (get self key e ie w1) = Return None
  /\ fst (get_value_metadata self key e ie w1) = Return None
  /\ store (snd (delete self key w1)) = store w1.
Proof. exact (delete_get_run self key e ie w). Qed.

(** *** Reads change nothing *)

Lemma only_read_refl w : only_read w w.
Proof. repeat split. Qed.

Lemma only_read_trans w1 w2 w3 :
  only_read w1 w2 -> only_read w2 w3 -> only_read w1 w3.
Proof.
  intros (A1 & A2 & A3 & A4) (B1 & B2 & B3 & B4).
  repeat split; congruence.
Qed.

Lemma only_read_ticks n w : only_read w (set_ticks n w).
Proof. repeat split. Qed.

Lemma only_read_read c w :
  is_write c = false -> only_read w (set_calls (c :: calls w) w).
Proof.
  intros Hc. repeat split. unfold writes. cbn [calls set_calls List.filter].
  rewrite Hc. reflexivity.
Qed.

Lemma keeps_only_read_value_fn e now value :
  keeps only_read (value_fn e now value).
Proof.
  intros w. rewrite value_fn_unexpired. apply only_read_refl.
Qed.

Lemma keeps_only_read_unexpired_value_fn (self : CacheRegion) e ie :
  keeps only_read (_unexpired_value_fn self e ie).
Proof.
  intros w. destruct ie; [apply only_read_refl|].
  rewrite _unexpired_value_fn_run. apply only_read_ticks.
Qed.

Lemma unexpired_value_fn_result (self : CacheRegion) e ie w fn w' :
  _unexpired_value_fn self e ie w = (Return fn, w') ->
  forall value, keeps only_read (fn value).
Proof.
  destruct ie.
  - intros [= <- <-] value. apply keeps_ret, only_read_refl.
  - rewrite _unexpired_value_fn_run. intros [= <- <-] value.
    apply keeps_only_read_value_fn.
Qed.

Lemma keeps_only_read_get_cache_value (self : CacheRegion) key e ie :
  keeps only_read (_get_cache_value self key e ie).
Proof.
  intros w. unfold _get_cache_value, bind.
  pose proof (keeps_get_from_backend only_read only_read_read self
                (mangle self key) w) as H1.
  destruct (_get_from_backend self (mangle self key) w) as [[value| |] w1];
    cbn [snd] in *; try exact H1.
  pose proof (keeps_only_read_unexpired_value_fn self e ie w1) as H2.
  destruct (_unexpired_value_fn self e ie w1) as [[fn| |] w2] eqn:Hfn;
    cbn [snd] in *; try (eapply only_read_trans; eassumption).
  pose proof (unexpired_value_fn_result _ _ _ _ _ _ Hfn value w2) as H3.
  eapply only_read_trans; [exact H1|].
  eapply only_read_trans; [exact H2|exact H3].
Qed.

(** [get], [get_value_metadata], [get_multi] and [key_is_locked] only
    read: whatever the backend holds and however the call ends, the
    backend's contents, the write calls made, the locked mutexes and the
    invalidation state are the same after the call as before. *)
Theorem reads_change_nothing (self : CacheRegion) e ie w :
  (forall key, only_read w (snd (get self key e ie w)))
  /\ (forall key, only_read w (snd (get_value_metadata self key e ie w)))
  /\ (forall keys, only_read w (snd (get_multi self keys e ie w)))
  /\ (forall key, only_read w (snd (key_is_locked self key w))).
Proof.
  split; [|split; [|split]].
  - intros key. unfold get.
    apply (keeps_bind only_read only_read_trans).
    + apply keeps_only_read_get_cache_value.
    + intros value. apply keeps_ret, only_read_refl.
  - intros key. unfold get_value_metadata.
    apply (keeps_bind only_read only_read_trans).
    + apply keeps_only_read_get_cache_value.
    + intros [|cv]; apply keeps_ret, only_read_refl.
  - intros keys. unfold get_multi. destruct keys as [|k keys].
    + apply only_read_refl.
    + unfold bind at 1.
      pose proof (keeps_get_multi_from_backend only_read only_read_refl
                    only_read_trans only_read_read self
                    (map (mangle self) (k :: keys)) w) as H1.
      destruct (_get_multi_from_backend self
                  (map (mangle self) (k :: keys)) w)
        as [[values| |] w1]; cbn [snd] in *; try exact H1.
      unfold bind at 1.
      pose proof (keeps_only_read_unexpired_value_fn self e ie w1) as H2.
      destruct (_unexpired_value_fn self e ie w1) as [[fn| |] w2] eqn:Hfn;
        cbn [snd] in *; try (eapply only_read_trans; eassumption).
      eapply only_read_trans; [exact H1|].
      eapply only_read_trans; [exact H2|].
      apply (keeps_mapM only_read only_read_refl only_read_trans).
      intros value _.
      apply (keeps_bind only_read only_read_trans).
      * apply (unexpired_value_fn_result _ _ _ _ _ _ Hfn).
      * intros v. apply keeps_ret, only_read_refl.
  - intros key. apply only_read_refl.
Qed.

(** *** Invalidation *)

(** [invalidate] hides every value created before it from [get] and
    [get_multi], whatever the expiration time, and writes nothing: the
    value is still there for [ignore_expiration].  Only a hard
    invalidation makes it a miss for [get_or_create]; a value created at
    or after the invalidation is not affected. *)
Theorem invalidate_hides_earlier_values (self : CacheRegion) (hard : bool)
  key cv ct e w :
  stored_envelope self w (mangle self key) = Ok (Cached cv) ->
  metadata_ct (metadata cv) = Ok ct ->
  ct < clock w (ticks w) ->
  let w1 := snd (invalidate hard w) in
  store w1 = store w
  /\ fst (get self key e false w1) = Return None
  /\ fst (get_multi self [key] e false w1) = Return [None]
  /\ fst (get self key e true w1) = Return (Some (payload cv))
  /\ (getitem (metadata cv) "v" = Ok (JInt value_version) ->
      fst (_is_cache_miss self (Cached cv) key w1) = Return hard)
  /\ (forall ct', clock w (ticks w) <= ct' ->
      DefaultInvalidationStrategy.is_invalidated (region_invalidator w1) ct'
      = false).
Proof.
  intros Hs Hct Hlt w1.
  assert (stored_envelope self w1 (mangle self key) = Ok (Cached cv)) as Hs1
    by (rewrite <- Hs; apply stored_envelope_frame; reflexivity).
  assert (DefaultInvalidationStrategy.is_invalidated
            (region_invalidator w1) ct = true) as Hinv.
  { unfold w1. rewrite invalidate_run.
    unfold DefaultInvalidationStrategy.is_invalidated. simpl.
    apply Z.ltb_lt. exact Hlt. }
  split; [reflexivity|].
  split.
  { rewrite (get_run _ _ _ _ _ _ Hs1 Hct), Hinv.
    destruct (match _ with Some e' => _ | None => false end); reflexivity. }
  split.
  { rewrite (get_multi_run self key [] _ [Cached cv] w1)
      by (repeat constructor; exact Hs1).
    cbn [map sequence_results unexpired]. rewrite Hct, Hinv.
    destruct (match _ with Some e' => _ | None => false end); reflexivity. }
  split; [apply (get_ignore_expiration _ _ _ _ _ Hs1)|].
  split.
  - intros Hv. rewrite (_is_cache_miss_run _ _ _ _ _ _ Hv Hct).
    cbn [Json_eqb fst]. rewrite Z.eqb_refl. cbn [negb orb].
    unfold DefaultInvalidationStrategy.is_hard_invalidated. rewrite Hinv.
    rewrite andb_true_r. destruct hard; reflexivity.
  - intros ct' Hle. unfold w1. rewrite invalidate_run.
    unfold DefaultInvalidationStrategy.is_invalidated. simpl.
    apply Z.ltb_ge. exact Hle.
Qed.

Lemma invalidate_witness :
  fst (get plain_region "k" None false
         (snd (invalidate false (world_with "k" (Obj current_envelope)))))
  = Return None
  /\ fst (get plain_region "k" None true
            (snd (invalidate false (world_with "k" (Obj current_envelope)))))
     = Return (Some (PyInt 7)).
Proof.
  destruct (invalidate_hides_earlier_values plain_region false "k"
              current_envelope (1699999990 * second) None
              (world_with "k" (Obj current_envelope)))
    as (_ & H2 & _ & H4 & _).
  - reflexivity.
  - reflexivity.
  - reflexivity.
  - split; [exact H2|exact H4].
Defined.

(** *** One key at a time *)

(** [set] and [delete] act on the mangled key and on nothing else: every
    other item of the backend, the locked mutexes and the invalidation
    state are as before; each makes exactly one backend call. *)
Theorem set_and_delete_touch_one_key (self : CacheRegion) key x w :
  let ws := snd (set self key x w) in
  let wd := snd (delete self key w) in
  (forall other, other <> mangle self key ->
     store ws !! other = store w !! other
     /\ store wd !! other = store w !! other)
  /\ held ws = held w /\ held wd = held w
  /\ region_invalidator ws = region_invalidator w
  /\ region_invalidator wd = region_invalidator w
  /\ (exists c, calls ws = c :: calls w /\ is_write c = true)
  /\ calls wd = call_delete (mangle self key) :: calls w.
Proof.
  intros ws wd. unfold ws, wd, delete, backend_delete. rewrite set_run.
  cbn [snd store held region_invalidator calls set_store set_calls
       set_ticks].
  split.
  { intros other Hne. split.
    - apply lookup_insert_ne. congruence.
    - apply lookup_delete_ne. congruence. }
  repeat (split; [reflexivity|]).
  split; [|reflexivity].
  eexists. split; [reflexivity|].
  unfold write_call. destruct (serializer self); reflexivity.
Qed.

Lemma set_and_delete_witness :
  store (snd (set plain_region "a" (PyInt 1)
                (world_with "k" (Obj current_envelope)))) !! "k"
  = store (world_with "k" (Obj current_envelope)) !! "k".
Proof.
  destruct (set_and_delete_touch_one_key plain_region "a" (PyInt 1)
              (world_with "k" (Obj current_envelope))) as [H _].
  destruct (H "k") as [Hs _]; [discriminate|exact Hs].
Defined.

(** *** Generation by get_or_create *)

(** An exception of the creator leaves [get_or_create] as it is, nothing
    is written and the mutex is released.  On a miss (nothing stored, or
    an envelope that [_is_cache_miss] rejects) with the mutex free, when
    the creator raises [exn]: [get_or_create] raises [exn], the backend's
    contents and the write calls are as before, and the locked mutexes
    are as before. *)
Theorem creator_exception_propagates (self : CacheRegion) key creator e scf
  args w value exn :
  stored_envelope self w (mangle self key) = Ok value ->
  is_miss w value ->
  mangle self key ∉ held w ->
  (forall w', creator_call creator args w' = Err exn) ->
  let r := get_or_create self key creator e scf args w in
  fst r = Raise exn
  /\ store (snd r) = store w
  /\ writes (snd r) = writes w
  /\ held (snd r) = held w.
Proof.
  intros Hs Hmiss Hfree Hc r. unfold r.
  rewrite (get_or_create_miss _ _ _ _ _ _ _ _ Hs Hmiss Hfree).
  unfold bind, try_finally.
  rewrite (gen_value_creator_raises _ _ _ _ _ _ _ _ _ (Hc _)).
  unfold release. cbn [fst snd store held set_held set_ticks].
  destruct (after_fresh_frame (effective_expiration_time self e)
              (logged self (mangle self key) w))
    as (_ & Hstore & Hcalls & Hheld & _).
  split; [reflexivity|]. split; [|split].
  - unfold holding. cbn [store set_held]. rewrite Hstore. reflexivity.
  - unfold writes, holding. cbn [calls set_held set_ticks].
    rewrite Hcalls. apply writes_logged.
  - rewrite release_holding by (rewrite Hheld; exact Hfree).
    exact Hheld.
Qed.

Lemma creator_exception_witness :
  fst (get_or_create plain_region "k" (fun _ _ => Err (UserError 3)) None
         None None empty_world) = Raise (UserError 3).
Proof.
  apply (creator_exception_propagates plain_region "k"
           (fun _ _ => Err (UserError 3)) None None None empty_world
           NO_VALUE (UserError 3)).
  - reflexivity.
  - exact I.
  - vm_compute. set_solver.
  - reflexivity.
Defined.

(** A generated value is served from the cache afterwards.  In a region
    that was never invalidated and reads back what it writes for [x],
    with a clock whose readings are positive and, when an expiration
    time is in force, closer to each other than it: after
    [get_or_create] generated [x] on a miss, a second [get_or_create] of
    the key returns [x] whatever its creator, [should_cache_fn] and
    arguments are, and only reads. *)
Theorem generated_value_is_served_from_the_cache (self : CacheRegion) key
  creator e args w value x :
  stored_envelope self w (mangle self key) = Ok value ->
  is_miss w value ->
  mangle self key ∉ held w ->
  (forall w', creator_call creator args w' = Ok x) ->
  reads_back self x ->
  region_invalidator w = DefaultInvalidationStrategy.init ->
  (forall n, 0 < clock w n) ->
  (forall e', effective_expiration_time self e = Some e' ->
     forall n, clock w (S n) - clock w n < e') ->
  let r1 := get_or_create self key creator e None args w in
  fst r1 = Return x
  /\ forall creator2 scf2 args2,
       let r2 := get_or_create self key creator2 e scf2 args2 (snd r1) in
       fst r2 = Return x /\ only_read (snd r1) (snd r2).
Proof.
  intros Hs Hmiss Hfree Hc Hrb Hinit Hpos Hexp r1.
  set (mk := mangle self key) in *.
  set (e' := effective_expiration_time self e) in *.
  set (wg := holding mk (after_fresh e' (logged self mk w))).
  set (t := ticks wg).
  set (cv := generated_envelope x (clock w (S (S t)))).
  assert (r1 =
    (Return x,
     set_held (held w)
       (set_store (<[mk := backend_item self cv]> (store w))
          (set_calls (write_call self mk cv :: calls wg)
             (set_ticks (S (S (S t))) wg))))) as Hr1.
  { unfold r1.
    rewrite (get_or_create_generates self key creator e None args w value x
               Hs Hmiss Hfree (Hc _)).
    rewrite Hinit. fold e'. rewrite andb_false_r. reflexivity. }
  rewrite Hr1. cbn [fst snd]. split; [reflexivity|].
  intros creator2 scf2 args2.
  match goal with
  | |- context [get_or_create _ _ _ _ _ _ ?w0] => set (w1 := w0)
  end.
  assert (clock wg = clock w) as Hclock
    by (unfold wg, e'; destruct (effective_expiration_time self e);
        reflexivity).
  assert (stored_envelope self w1 mk = Ok (Cached cv)) as Hs1.
  { apply stored_envelope_written; [exact Hrb|].
    unfold w1. cbn [store set_held set_store]. apply lookup_insert_eq. }
  assert (region_invalidator w1 = DefaultInvalidationStrategy.init) as Hinv1.
  { unfold w1, wg, e'. rewrite <- Hinit.
    destruct (effective_expiration_time self e); reflexivity. }
  assert (get_value self mk key e' w1
          = (Return (x, clock w (S (S t))), logged self mk w1)) as Hget.
  { rewrite (get_value_cached self mk key e' w1 cv (clock w (S (S t))) Hs1)
      by reflexivity.
    rewrite Hinv1. reflexivity. }
  unfold get_or_create. fold mk. fold e'.
  rewrite (Lock_fresh _ _ _ _ _ _ _ _ _ Hget).
  - cbn [fst snd].
    destruct (after_fresh_frame e' (logged self mk w1))
      as (_ & Hstore & Hcalls & Hheld & Hinv & _).
    split; [reflexivity|]. split; [exact Hstore|].
    split; [|split; [exact Hheld|exact Hinv]].
    unfold writes. rewrite Hcalls. apply writes_logged.
  - apply Hpos.
  - destruct e' as [e''|] eqn:He'; [|exact I].
    assert (clock (logged self mk w1) = clock w) as ->
      by (unfold w1; cbn [clock logged set_calls set_held set_store
                          set_ticks]; exact Hclock).
    assert (ticks (logged self mk w1) = S (S (S t))) as -> by reflexivity.
    apply (Hexp e''). reflexivity.
Qed.

Lemma generated_value_witness :
  fst (get_or_create serializing_region "k" (fun _ _ => Err (UserError 3))
         None None None
         (snd (get_or_create serializing_region "k" creator_42 None None
                 None empty_world)))
  = Return (PyInt 42).
Proof.
  destruct (generated_value_is_served_from_the_cache serializing_region "k"
              creator_42 None None empty_world NO_VALUE (PyInt 42))
    as [_ H].
  - reflexivity.
  - exact I.
  - vm_compute. set_solver.
  - reflexivity.
  - reflexivity.
  - reflexivity.
  - intros n. unfold empty_world, example_clock, second. cbn [clock]. lia.
  - intros e' [= <-] n. unfold empty_world, example_clock, second.
    cbn [clock]. lia.
  - apply (H (fun _ _ => Err (UserError 3)) None None).
Defined.

(** *** The decorator cache_on_arguments *)

(** A fresh envelope of the current version is returned as it is. *)
Lemma get_or_create_cached (self : CacheRegion) key creator e scf args w x
  ct :
  stored_envelope self w (mangle self key)
    = Ok (Cached (generated_envelope x ct)) ->
  DefaultInvalidationStrategy.is_invalidated (region_invalidator w) ct
    = false ->
  0 < ct ->
  (forall e', effective_expiration_time self e = Some e' ->
     clock w (ticks w) - ct < e') ->
  let r := get_or_create self key creator e scf args w in
  fst r = Return x /\ only_read w (snd r).
Proof.
  intros Hs Hinv Hpos Hexp r.
  set (mk := mangle self key) in *.
  set (e' := effective_expiration_time self e) in *.
  assert (get_value self mk key e' w = (Return (x, ct), logged self mk w))
    as Hget.
  { rewrite (get_value_cached self mk key e' w _ ct Hs) by reflexivity.
    unfold DefaultInvalidationStrategy.is_hard_invalidated,
      DefaultInvalidationStrategy.is_soft_invalidated.
    rewrite Hinv, !andb_false_r. reflexivity. }
  unfold r, get_or_create. fold mk. fold e'.
  rewrite (Lock_fresh _ _ _ _ _ _ _ _ _ Hget).
  - cbn [fst snd].
    destruct (after_fresh_frame e' (logged self mk w))
      as (_ & Hstore & Hcalls & Hheld & Hinv' & _).
    split; [reflexivity|]. split; [exact Hstore|].
    split; [|split; [exact Hheld|exact Hinv']].
    unfold writes. rewrite Hcalls. apply writes_logged.
  - exact Hpos.
  - destruct e' as [e''|] eqn:He'; [|exact I].
    apply (Hexp e''). reflexivity.
Qed.

(** The attributes [set], [get] and [invalidate] of a decorated function
    act on the key of the call's arguments.  In a region that reads back
    what it writes for [v]: after [set] of [v] for some arguments, [get]
    of the same arguments returns [v] when the time between the two
    clock readings is at most the region's expiration time and the
    region was not invalidated after the first; after [invalidate] of
    the arguments, [get] finds nothing. *)
Theorem decorator_set_get_invalidate (self : CacheRegion)
  (key_generator : list ValuePayload -> string) v arg w :
  reads_back self v ->
  match self_expiration_time self with
  | Some e' => clock w (S (ticks w)) - clock w (ticks w) <= e'
  | None => True
  end ->
  DefaultInvalidationStrategy.is_invalidated (region_invalidator w)
    (clock w (ticks w)) = false ->
  fst (cache_on_arguments.get self key_generator arg
         (snd (cache_on_arguments.set_ self key_generator v arg w)))
  = Return (Some v)
  /\ fst (cache_on_arguments.get self key_generator arg
            (snd (cache_on_arguments.invalidate self key_generator arg w)))
     = Return None.
Proof.
  intros Hrb Hage Hinv.
  unfold cache_on_arguments.get, cache_on_arguments.set_,
    cache_on_arguments.invalidate.
  split.
  - destruct (set_get_run self (key_generator arg) v None
                w Hrb) as (_ & _ & _ & H).
    apply H; [exact Hage|exact Hinv].
  - destruct (delete_get_run self (key_generator arg) None
                false w) as (_ & _ & H & _).
    exact H.
Qed.

Lemma decorator_witness :
  fst (cache_on_arguments.get serializing_region example_key_generator
         [PyStr "a"]
         (snd (cache_on_arguments.set_ serializing_region
                 example_key_generator (PyInt 5) [PyStr "a"] empty_world)))
  = Return (Some (PyInt 5)).
Proof.
  apply (decorator_set_get_invalidate serializing_region
           example_key_generator (PyInt 5) [PyStr "a"] empty_world).
  - reflexivity.
  - vm_compute. discriminate.
  - reflexivity.
Defined.

(** [refresh] stores what the function returns and the decorated function
    then serves it from the cache.  In a region that was never
    invalidated and reads back what it writes for [x], with a positive
    clock whose next two readings are closer than the expiration time in
    force: when the function returns [x] for the arguments, [refresh]
    returns [x], with one write, under the key of the arguments; a call
    of the decorated function with these arguments then returns [x]
    whatever function and [should_cache_fn] it decorates, and only
    reads. *)
Theorem refresh_then_call_is_served_from_the_cache (self : CacheRegion)
  (key_generator : list ValuePayload -> string) (user_func : Creator)
  timeout arg w x :
  user_func arg w = Ok x ->
  reads_back self x ->
  region_invalidator w = DefaultInvalidationStrategy.init ->
  0 < clock w (ticks w) ->
  (forall e', effective_expiration_time self timeout = Some e' ->
     clock w (S (ticks w)) - clock w (ticks w) < e') ->
  let r := cache_on_arguments.refresh self key_generator user_func arg w in
  fst r = Return x
  /\ store (snd r) !! mangle self (key_generator arg)
     = Some (backend_item self (generated_envelope x (clock w (ticks w))))
  /\ forall user_func2 scf,
       let r2 := cache_on_arguments.get_or_create_for_user_func self
                   key_generator (expiration_value timeout) scf user_func2
                   arg (snd r) in
       fst r2 = Return x /\ only_read (snd r) (snd r2).
Proof.
  intros Hc Hrb Hinit Hpos Hexp r.
  assert (r = (Return x, snd (set self (key_generator arg) x w))) as Hr.
  { unfold r, cache_on_arguments.refresh, bind, call. rewrite Hc.
    cbn [lift ret]. rewrite set_run. reflexivity. }
  rewrite Hr. cbn [fst snd]. rewrite set_run. cbn [snd].
  split; [reflexivity|].
  split; [cbn [store set_store]; apply lookup_insert_eq|].
  intros user_func2 scf.
  unfold cache_on_arguments.get_or_create_for_user_func.
  unfold bind at 1, ret at 1. cbv beta iota.
  apply get_or_create_cached with (ct := clock w (ticks w)).
  - apply stored_envelope_written; [exact Hrb|].
    cbn [store set_store]. apply lookup_insert_eq.
  - cbn [region_invalidator set_store set_calls set_ticks]. rewrite Hinit.
    reflexivity.
  - exact Hpos.
  - exact Hexp.
Qed.

Lemma refresh_witness :
  fst (cache_on_arguments.get_or_create_for_user_func serializing_region
         example_key_generator (expiration_value None) None
         (fun _ _ => Err (UserError 3)) [PyStr "a"]
         (snd (cache_on_arguments.refresh serializing_region
                 example_key_generator creator_42 [PyStr "a"] empty_world)))
  = Return (PyInt 42).
Proof.
  destruct (refresh_then_call_is_served_from_the_cache serializing_region
              example_key_generator creator_42 None [PyStr "a"] empty_world
              (PyInt 42)) as (_ & _ & H).
  - reflexivity.
  - reflexivity.
  - reflexivity.
  - reflexivity.
  - intros e' [= <-]. reflexivity.
  - apply (H (fun _ _ => Err (UserError 3)) None).
Defined.
